(** * Trady2: barrier labelling, position simulation and trade execution

    A shallow embedding of the Python sources

      - [apps/analytics/backtesting/run.py]      (module [Backtest])
      - [apps/analytics/models/train.py]         (module [Labeler])
      - [apps/trading_core/risk_manager.py]      (module [Risk])
      - [apps/trading_core/circuit_breaker.py],
        [apps/trading_core/execution_manager.py],
        [apps/trading_core/decision_manager.py],
        [apps/trading_core/models.py]            (module [TradingCore])
      - [apps/analytics/volatility/atr_analyzer.py]   (module [Atr])
      - [apps/trading_core/risk_manager.py], the trade parameters
                                                 (module [RiskSizing])
      - [apps/trading_core/circuit_breaker.py], [update_state]
                                                 (module [BreakerUpdate])
      - [apps/analytics/backtesting/walk_forward.py]  (module [WalkForward])

    Numbers.  Python [float] and [Decimal] values are represented by the
    rational they denote ([Q]); arithmetic is exact, so rounding, infinities
    and NaN are outside the model.  Where the source relies on a NaN or an
    infinity (the [np.inf] / [np.nan] sentinels of the labeler, the defaults
    of [dict.get]) the sentinel is an explicit [None].

    Exceptions.  Code that can raise returns a [res]; [Raise e] is the Python
    exception [e] leaving the function. *)

From Stdlib Require Import QArith Qabs Lqa ZArith Lia String List Bool.
From stdpp Require Import gmap strings list pretty.

(** ** Python exceptions and results *)

Inductive exn : Type :=
| KeyError
| TypeError
| IndexError
| ValueError (msg : string)
| PermissionError (msg : string)
| RuntimeError (msg : string)
| IntegrityError
| DoesNotExist
| MultipleObjectsReturned.

Inductive res (A : Type) : Type :=
| Ok (a : A)
| Raise (e : exn).
Arguments Ok {A} a.
Arguments Raise {A} e.

Definition res_bind {A B} (m : res A) (k : A -> res B) : res B :=
  match m with
  | Ok a => k a
  | Raise e => Raise e
  end.

Declare Scope res_scope.
Delimit Scope res_scope with res.
Notation "'let?' x := m 'in' k" := (res_bind m (fun x => k))
  (at level 10, x pattern, m at level 100, k at level 200) : res_scope.

(** ** Comparisons and truthiness on numbers *)

Definition Qleb (x y : Q) : bool := Qle_bool x y.
Definition Qltb (x y : Q) : bool := negb (Qle_bool y x).

(** [bool(x)] for a number: every value but zero is true. *)
Definition truthy (x : Q) : bool := negb (Qeq_bool x 0).

(** [bool(x)] for a value that may be [None]. *)
Definition opt_truthy (o : option Q) : bool :=
  match o with
  | Some x => truthy x
  | None => false
  end.

(** * apps/analytics/backtesting/run.py *)

Module Backtest.
Local Open Scope Q_scope.
Local Open Scope res_scope.

(** [config['backtesting']]; an absent key is [None]. *)
Record config : Type := {
  cfg_initial_capital : option Q;
  stop_loss_pct : option Q;
  take_profit_pct : option Q;
  slippage_pct : option Q;
  commission_pct : option Q
}.

Definition initial_capital (c : config) : Q := default 10000 (cfg_initial_capital c).
Definition sl_pct (c : config) : option Q := stop_loss_pct c.
Definition tp_pct (c : config) : option Q := take_profit_pct c.
Definition slippage (c : config) : Q := default 0.0002 (slippage_pct c).
Definition commission (c : config) : Q := default 0.0001 (commission_pct c).

(** One row of [prices_df.join(signals_df, how='inner').sort_index()];
    [name] is the row's index value (its timestamp). *)
Record bar : Type := {
  name : Z;
  open : Q;
  high : Q;
  low : Q;
  close : Q;
  long_signal : Q;
  short_signal : Q
}.

(** A row once the entry columns have been added. *)
Record row : Type := {
  row_bar : bar;
  enter_long : bool;
  enter_short : bool
}.

(** [enter_long = long_signal.shift(1) > 0], [enter_short] likewise, then
    both are cleared where both hold.  [prev] is the row before (none for
    the first row, where [shift] gives NaN and the comparison is false). *)
Fixpoint add_entries (prev : option bar) (df : list bar) : list row :=
  match df with
  | [] => []
  | b :: rest =>
      let el := match prev with Some p => Qltb 0 (long_signal p) | None => false end in
      let es := match prev with Some p => Qltb 0 (short_signal p) | None => false end in
      let conflicting_signals := el && es in
      {| row_bar := b;
         enter_long := if conflicting_signals then false else el;
         enter_short := if conflicting_signals then false else es |}
      :: add_entries (Some b) rest
  end.

(** The [position_details] dict once a position is open. *)
Record position_details : Type := {
  entry_time : Z;
  entry_price_after_costs : Q;
  stop_price : option Q;
  tp_price : option Q
}.

(** An entry of [trades]. *)
Record trade : Type := {
  trade_entry_time : Z;
  trade_exit_time : Z;
  pnl_pct : Q;
  exit_reason : string;
  trade_type : string
}.

(** The variables the loop updates.  [position = None] is the empty dict. *)
Record loop_state : Type := {
  in_position : Z;
  position : option position_details;
  trades : list trade;
  equity : list Q;
  dates : list Z
}.

(** [v <= position_details.get(key, -np.inf)]: false on the default,
    [TypeError] when the stored value is [None]. *)
Definition le_get (v : Q) (d : option position_details)
    (key : position_details -> option Q) : res bool :=
  match d with
  | None => Ok false
  | Some pd =>
      match key pd with
      | Some x => Ok (Qleb v x)
      | None => Raise TypeError
      end
  end.

(** [v >= position_details.get(key, np.inf)]. *)
Definition ge_get (v : Q) (d : option position_details)
    (key : position_details -> option Q) : res bool :=
  match d with
  | None => Ok false
  | Some pd =>
      match key pd with
      | Some x => Ok (Qleb x v)
      | None => Raise TypeError
      end
  end.

(** [position_details[key]] *)
Definition subscript {A} (d : option position_details)
    (key : position_details -> A) : res A :=
  match d with
  | None => Raise KeyError
  | Some pd => Ok (key pd)
  end.

(** [a and b] where [a] is the truthiness of a percentage and [b] a
    comparison that is only evaluated when [a] holds. *)
Definition and_then (a : bool) (b : res bool) : res bool :=
  if a then b else Ok false.

(** Lines 49-59: the pair [(exit_price, exit_reason)] for the current row;
    [(None, None)] when the position stays open. *)
Definition check_exit (c : config) (in_pos : Z) (d : option position_details)
    (current_row : bar) : res (option Q * option string) :=
  if (in_pos =? 1)%Z then
    let? stop_hit := and_then (opt_truthy (sl_pct c)) (le_get (low current_row) d stop_price) in
    if stop_hit then
      let? p := subscript d stop_price in Ok (p, Some "SL"%string)
    else
      let? tp_hit := and_then (opt_truthy (tp_pct c)) (ge_get (high current_row) d tp_price) in
      if tp_hit then
        let? p := subscript d tp_price in Ok (p, Some "TP"%string)
      else Ok (None, None)
  else if (in_pos =? -1)%Z then
    let? stop_hit := and_then (opt_truthy (sl_pct c)) (ge_get (high current_row) d stop_price) in
    if stop_hit then
      let? p := subscript d stop_price in Ok (p, Some "SL"%string)
    else
      let? tp_hit := and_then (opt_truthy (tp_pct c)) (le_get (low current_row) d tp_price) in
      if tp_hit then
        let? p := subscript d tp_price in Ok (p, Some "TP"%string)
      else Ok (None, None)
  else Ok (None, None).

(** Lines 62-68: the trade's return from the exit price. *)
Definition trade_return (c : config) (in_pos : Z) (entry_price_after_costs exit_price : Q) : Q :=
  if (in_pos =? 1)%Z then
    let exit_price_after_costs := exit_price * (1 - slippage c - commission c) in
    (exit_price_after_costs / entry_price_after_costs) - 1
  else
    let exit_price_after_costs := exit_price * (1 + slippage c + commission c) in
    (entry_price_after_costs / exit_price_after_costs) - 1.

(** [equity[-1]] *)
Definition last_equity (equity : list Q) : res Q :=
  match last equity with
  | Some e => Ok e
  | None => Raise IndexError
  end.

(** Lines 48-77: the exit phase of one iteration. *)
Definition exit_phase (c : config) (st : loop_state) (current_row : bar) : res loop_state :=
  if negb (in_position st =? 0)%Z then
    let? (exit_price, exit_reason) := check_exit c (in_position st) (position st) current_row in
    if opt_truthy exit_price then
      let? entry_price_after_costs := subscript (position st) entry_price_after_costs in
      let pnl_pct := trade_return c (in_position st) entry_price_after_costs (default 0 exit_price) in
      let? entry_time := subscript (position st) entry_time in
      let? e := last_equity (equity st) in
      Ok {| in_position := 0;
            position := None;
            trades := trades st ++
              [{| trade_entry_time := entry_time;
                  trade_exit_time := name current_row;
                  pnl_pct := pnl_pct;
                  exit_reason := default ""%string exit_reason;
                  trade_type := if (in_position st =? 1)%Z then "LONG" else "SHORT" |}];
            equity := equity st ++ [e * (1 + pnl_pct)];
            dates := dates st ++ [name current_row] |}
    else Ok st
  else Ok st.

(** [x * (1 + pct) if pct else None] and its mirror. *)
Definition barrier_above (entry_price : Q) (pct : option Q) : option Q :=
  if opt_truthy pct then Some (entry_price * (1 + default 0 pct)) else None.
Definition barrier_below (entry_price : Q) (pct : option Q) : option Q :=
  if opt_truthy pct then Some (entry_price * (1 - default 0 pct)) else None.

(** Lines 80-100: the entry phase of one iteration. *)
Definition entry_phase (c : config) (st : loop_state) (current_row : row) : loop_state :=
  if (in_position st =? 0)%Z then
    let entry_price := open (row_bar current_row) in
    if enter_long current_row then
      {| in_position := 1;
         position := Some
           {| entry_time := name (row_bar current_row);
              entry_price_after_costs := entry_price * (1 + slippage c + commission c);
              stop_price := barrier_below entry_price (sl_pct c);
              tp_price := barrier_above entry_price (tp_pct c) |};
         trades := trades st; equity := equity st; dates := dates st |}
    else if enter_short current_row then
      {| in_position := -1;
         position := Some
           {| entry_time := name (row_bar current_row);
              entry_price_after_costs := entry_price * (1 - slippage c - commission c);
              stop_price := barrier_above entry_price (sl_pct c);
              tp_price := barrier_below entry_price (tp_pct c) |};
         trades := trades st; equity := equity st; dates := dates st |}
    else st
  else st.

(** One iteration of the loop of line 44. *)
Definition step (c : config) (st : loop_state) (current_row : row) : res loop_state :=
  let? st1 := exit_phase c st (row_bar current_row) in
  Ok (entry_phase c st1 current_row).

(** [for i in range(1, len(df))] over the rows it visits. *)
Fixpoint run_loop (c : config) (rows : list row) (st : loop_state) : res loop_state :=
  match rows with
  | [] => Ok st
  | r :: rest => let? st' := step c st r in run_loop c rest st'
  end.

(** The state before the loop (lines 37-42); [now] is
    [pd.Timestamp.now(tz='UTC')], used when the frame is empty. *)
Definition init_state (c : config) (now : Z) (df : list bar) : loop_state :=
  {| in_position := 0;
     position := None;
     trades := [];
     equity := [initial_capital c];
     dates := [match df with b :: _ => name b | [] => now end] |}.

(** The rows the loop visits: all but the first. *)
Definition loop_rows (df : list bar) : list row := tail (add_entries None df).

(** The dict returned by [run_vectorized_backtest]; [equity_curve] is keyed
    by the timestamp that [isoformat] renders. *)
Record result : Type := {
  total_return_pct : Q;
  sharpe_ratio : Q;
  max_drawdown_pct : Q;
  final_capital : Q;
  equity_curve : gmap Z Q;
  num_trades : nat;
  result_trades : list trade
}.

(** [pd.Series(data=equity, index=pd.to_datetime(dates))]: the two lists
    must have the same length. *)
Definition make_series (equity : list Q) (dates : list Z) : res (list (Z * Q)) :=
  if (length equity =? length dates)%nat then Ok (zip dates equity)
  else Raise (ValueError "Length of values does not match length of index").

(** [Series.to_dict()]: of two entries with the same index the later wins. *)
Definition to_dict (series : list (Z * Q)) : gmap Z Q :=
  list_to_map (reverse series).

(** [Series.cummax()] *)
Fixpoint cummax_from (m : Q) (l : list Q) : list Q :=
  match l with
  | [] => []
  | x :: rest => let m' := if Qleb m x then x else m in m' :: cummax_from m' rest
  end.
Definition cummax (l : list Q) : list Q :=
  match l with
  | [] => []
  | x :: rest => x :: cummax_from x rest
  end.

(** [Series.min()] of a series with at least one value. *)
Definition series_min (l : list Q) : Q :=
  match l with
  | [] => 0
  | x :: rest => fold_left (fun m y => if Qleb y m then y else m) rest x
  end.

Section Metrics.

(** [Series.mean()], [Series.std()] and the value of [np.sqrt(252 * 24)] are
    pandas and numpy; they are only used when at least one trade closed. *)
Variable series_mean : list Q -> Q.
Variable series_std : list Q -> Q.
Variable annualization_factor : Q.

(** Lines 103-118. *)
Definition summarize (c : config) (st : loop_state) : res result :=
  let? equity_series := make_series (equity st) (dates st) in
  if bool_decide (trades st = []) then
    let? index0 := match equity_series with
                   | (d, _) :: _ => Ok d
                   | [] => Raise IndexError
                   end in
    Ok {| total_return_pct := 0;
          sharpe_ratio := 0;
          max_drawdown_pct := 0;
          final_capital := initial_capital c;
          equity_curve := {[ index0 := initial_capital c ]};
          num_trades := 0;
          result_trades := [] |}
  else
    let? final_capital := last_equity (equity_series.*2) in
    let total_return := (final_capital / initial_capital c) - 1 in
    let trade_returns := pnl_pct <$> trades st in
    let std := series_std trade_returns in
    let sharpe_ratio :=
      (series_mean trade_returns / (if negb (Qeq_bool std 0) then std else 0.000000001))
      * annualization_factor in
    let running_max := cummax (equity_series.*2) in
    let drawdown := zip_with (fun e m => (e - m) / m) (equity_series.*2) running_max in
    let max_drawdown := series_min drawdown in
    Ok {| total_return_pct := total_return * 100;
          sharpe_ratio := sharpe_ratio;
          max_drawdown_pct := max_drawdown * 100;
          final_capital := final_capital;
          equity_curve := to_dict equity_series;
          num_trades := length (trades st);
          result_trades := trades st |}.

(** [run_vectorized_backtest(prices_df, signals_df, config)] on the joined
    and sorted frame [df]. *)
Definition run_vectorized_backtest (now : Z) (df : list bar) (c : config) : res result :=
  let? st := run_loop c (loop_rows df) (init_state c now df) in
  summarize c st.

End Metrics.

(** *** Conditions on a bar, for stating what the loop does

    [side] is the value of [in_position]: 1 for a long, -1 for a short. *)

(** The stop condition of lines 51 and 56 holds on [b], at level [price]. *)
Definition stop_hit (c : config) (side : Z) (pd : position_details) (b : bar) (price : Q) : Prop :=
  opt_truthy (sl_pct c) = true /\ stop_price pd = Some price /\
  if (side =? 1)%Z then low b <= price else price <= high b.

(** The target condition of lines 53 and 58 holds on [b], at level [price]. *)
Definition target_hit (c : config) (side : Z) (pd : position_details) (b : bar) (price : Q) : Prop :=
  opt_truthy (tp_pct c) = true /\ tp_price pd = Some price /\
  if (side =? 1)%Z then price <= high b else low b <= price.

(** Neither condition holds on [b]. *)
Definition untouched (c : config) (side : Z) (pd : position_details) (b : bar) : Prop :=
  (forall p, ~ stop_hit c side pd b p) /\ (forall p, ~ target_hit c side pd b p).

(** The barriers a percentage in force needs are present. *)
Definition barriers_set (c : config) (pd : position_details) : Prop :=
  (opt_truthy (sl_pct c) = true -> is_Some (stop_price pd)) /\
  (opt_truthy (tp_pct c) = true -> is_Some (tp_price pd)).

(** What every state of the loop satisfies. *)
Definition wf (c : config) (st : loop_state) : Prop :=
  equity st <> [] /\ length (equity st) = length (dates st) /\
  match position st with
  | None => in_position st = 0%Z
  | Some pd => (in_position st = 1%Z \/ in_position st = (-1)%Z) /\ barriers_set c pd
  end.

(** [t] is the trade of a position opened at the open of [b_in] and closed
    on [b_out] at the barrier [exit_price]. *)
Definition closed_at (c : config) (b_in b_out : bar) (exit_price : Q) (t : trade) : Prop :=
  trade_entry_time t = name b_in /\ trade_exit_time t = name b_out /\
  ((trade_type t = "LONG"%string /\
    ((exit_reason t = "SL"%string /\ barrier_below (open b_in) (sl_pct c) = Some exit_price) \/
     (exit_reason t = "TP"%string /\ barrier_above (open b_in) (tp_pct c) = Some exit_price)) /\
    pnl_pct t =
      exit_price * (1 - slippage c - commission c)
        / (open b_in * (1 + slippage c + commission c)) - 1)
   \/
   (trade_type t = "SHORT"%string /\
    ((exit_reason t = "SL"%string /\ barrier_above (open b_in) (sl_pct c) = Some exit_price) \/
     (exit_reason t = "TP"%string /\ barrier_below (open b_in) (tp_pct c) = Some exit_price)) /\
    pnl_pct t =
      open b_in * (1 - slippage c - commission c)
        / (exit_price * (1 + slippage c + commission c)) - 1)).

(** [pd] is what the entry phase stores when it opens a position of side
    [side] on bar [b]. *)
Definition opened_at (c : config) (side : Z) (b : bar) (pd : position_details) : Prop :=
  entry_time pd = name b /\
  if (side =? 1)%Z then
    entry_price_after_costs pd = open b * (1 + slippage c + commission c) /\
    stop_price pd = barrier_below (open b) (sl_pct c) /\
    tp_price pd = barrier_above (open b) (tp_pct c)
  else
    entry_price_after_costs pd = open b * (1 - slippage c - commission c) /\
    stop_price pd = barrier_above (open b) (sl_pct c) /\
    tp_price pd = barrier_below (open b) (tp_pct c).

(** The equity list that compounding the trades' returns one after the
    other gives, from [e0]. *)
Fixpoint compound (e0 : Q) (ts : list trade) : list Q :=
  match ts with
  | [] => [e0]
  | t :: rest => e0 :: compound (e0 * (1 + pnl_pct t)) rest
  end.

(** The state the exit phase leaves when it closes the position of [st] on
    [b] at [price] for [reason]; [e] is the last equity. *)
Definition closed_state (c : config) (st : loop_state) (pd : position_details) (b : bar)
    (price : Q) (reason : string) (e : Q) : loop_state :=
  let r := trade_return c (in_position st) (entry_price_after_costs pd) price in
  {| in_position := 0;
     position := None;
     trades := trades st ++
       [{| trade_entry_time := entry_time pd;
           trade_exit_time := name b;
           pnl_pct := r;
           exit_reason := reason;
           trade_type := if (in_position st =? 1)%Z then "LONG" else "SHORT" |}];
     equity := equity st ++ [e * (1 + r)];
     dates := dates st ++ [name b] |}.

(** [t] closes a position opened and closed on bars of [df]. *)
Definition explained (c : config) (df : list bar) (t : trade) : Prop :=
  exists b_in b_out exit_price,
    b_in ∈ df /\ b_out ∈ df /\ closed_at c b_in b_out exit_price t.

(** The invariant of the loop over the frame [df]. *)
Definition inv (c : config) (df : list bar) (st : loop_state) : Prop :=
  wf c st /\
  equity st = compound (initial_capital c) (trades st) /\
  (forall pd, position st = Some pd ->
     exists b, b ∈ df /\ opened_at c (in_position st) b pd) /\
  Forall (explained c df) (trades st).

(** *** Sample runs *)

Definition flat_bar (t : Z) (o h l cl : Q) : bar :=
  {| name := t; open := o; high := h; low := l; close := cl;
     long_signal := 0; short_signal := 0 |}.

Definition long_bar (t : Z) (o h l cl : Q) : bar :=
  {| name := t; open := o; high := h; low := l; close := cl;
     long_signal := 1; short_signal := 0 |}.

Definition short_bar (t : Z) (o h l cl : Q) : bar :=
  {| name := t; open := o; high := h; low := l; close := cl;
     long_signal := 0; short_signal := 1 |}.

(** Stop 2%, target 4%, with the given slippage and no commission. *)
Definition sample_config (slip : Q) : config :=
  {| cfg_initial_capital := Some 10000; stop_loss_pct := Some 0.02;
     take_profit_pct := Some 0.04; slippage_pct := Some slip;
     commission_pct := Some 0 |}.

(** A long entered at 100 on bar 1 and stopped at 98 on bar 2. *)
Definition long_stopped : list bar :=
  [long_bar 0 100 100 100 100; flat_bar 1 100 101 99 100; flat_bar 2 100 100 97 98].

(** A short entered at 100 on bar 1 and stopped at 102 on bar 2. *)
Definition short_stopped : list bar :=
  [short_bar 0 100 100 100 100; flat_bar 1 100 101 99 100; flat_bar 2 100 103 100 102].

(** A long entered at 100 on bar 1 that reaches its target 104 on bar 2. *)
Definition long_target : list bar :=
  [long_bar 0 100 100 100 100; flat_bar 1 100 101 99 100; flat_bar 2 100 105 100 104].

(** A long entered at 100 on bar 1; bars 2 to 4 stay between 99 and 101. *)
Definition long_drifting : list bar :=
  [long_bar 0 100 100 100 100; flat_bar 1 100 101 99 100; flat_bar 2 100 101 99 100;
   flat_bar 3 100 101 99 100; flat_bar 4 100 101 99 100].

(** The position a long entered at 100 holds under [sample_config slip]. *)
Definition sample_long (slip : Q) : position_details :=
  {| entry_time := 1; entry_price_after_costs := 100 * (1 + slip + 0);
     stop_price := Some (100 * (1 - 0.02));
     tp_price := Some (100 * (1 + 0.04)) |}.

(** The state after that entry on bar 1. *)
Definition sample_open (slip : Q) : loop_state :=
  {| in_position := 1; position := Some (sample_long slip);
     trades := []; equity := [10000]; dates := [0%Z] |}.

(** Stop 20%, target 40%, no costs. *)
Definition wide_config : config :=
  {| cfg_initial_capital := Some 10000; stop_loss_pct := Some 0.2;
     take_profit_pct := Some 0.4; slippage_pct := Some 0;
     commission_pct := Some 0 |}.

(** A long entered at 100 on bar 1 and stopped at 80 on bar 2. *)
Definition long_stopped_wide : list bar :=
  [long_bar 0 100 100 100 100; flat_bar 1 100 101 99 100; flat_bar 2 100 100 79 80].

End Backtest.

(** * apps/analytics/models/train.py *)

Module Labeler.
Local Open Scope Q_scope.

(** An entry of [first_touch_up] / [first_touch_down]: a step, or [np.inf]. *)
Definition touch : Type := option nat.

Definition is_inf (t : touch) : bool :=
  match t with
  | None => true
  | Some _ => false
  end.

(** [a < b] on entries, [np.inf] being larger than every step. *)
Definition touch_lt (a b : touch) : bool :=
  match a, b with
  | Some x, Some y => (x <? y)%nat
  | Some _, None => true
  | None, _ => false
  end.

(** [future_p = np.full(T, np.nan); future_p[:-step] = price_vals[step:]];
    an entry left at NaN is [None]. *)
Definition future_p (price_vals : list Q) (step : nat) : list (option Q) :=
  let T := length price_vals in
  (Some <$> drop step price_vals) ++ replicate (T - length (drop step price_vals)) None.

(** [future_p >= upper] and [future_p <= lower] on one entry; a comparison
    with NaN is false. *)
Definition ge_barrier (f : option Q) (barrier : Q) : bool :=
  match f with
  | Some p => Qleb barrier p
  | None => false
  end.
Definition le_barrier (f : option Q) (barrier : Q) : bool :=
  match f with
  | Some p => Qleb p barrier
  | None => false
  end.

(** [hit = cmp(future_p, barrier) & (first_touch == np.inf);
     first_touch[hit] = step] *)
Definition record_touch (cmp : option Q -> Q -> bool) (step : nat)
    (future : list (option Q)) (barrier : list Q) (first_touch : list touch) : list touch :=
  zip_with (fun fb ft => if cmp fb.1 fb.2 && is_inf ft then Some step else ft)
    (zip future barrier) first_touch.

(** The body of [for step in range(1, time_horizon + 1)]. *)
Definition scan_step (price_vals upper lower : list Q)
    (acc : list touch * list touch) (step : nat) : list touch * list touch :=
  let future := future_p price_vals step in
  (record_touch ge_barrier step future upper acc.1,
   record_touch le_barrier step future lower acc.2).

(** [create_triple_barrier_target]; the two series carry the same index and
    are given by position. *)
Definition create_triple_barrier_target (prices volatility : list Q)
    (time_horizon : nat) (pt_multiplier sl_multiplier min_ret : Q) : list Z :=
  let upper := zip_with (fun p v => p * (1 + v * pt_multiplier)) prices volatility in
  let lower := zip_with (fun p v => p * (1 - v * sl_multiplier)) prices volatility in
  let T := length prices in
  let first_touch := fold_left (scan_step prices upper lower) (seq 1 time_horizon)
                       (replicate T None, replicate T None) in
  let is_profit := zip_with (fun u d => negb (is_inf u) && touch_lt u d)
                     first_touch.1 first_touch.2 in
  let is_worth := (fun v => Qltb min_ret (v * pt_multiplier)) <$> volatility in
  zip_with (fun p w => if p && w then 1%Z else 0%Z) is_profit is_worth.

(** The reading of section 4.1 for one index [t], written from its words:
    the barrier race seen from [t]. *)
Section Race.
Variables (prices volatility : list Q) (H : nat) (pt sl : Q) (t : nat).

(** The price [s] steps after [t] meets or exceeds the upper barrier. *)
Definition touches_up (s : nat) : Prop :=
  exists p v f, prices !! t = Some p /\ volatility !! t = Some v /\
    prices !! (t + s)%nat = Some f /\ p * (1 + v * pt) <= f.

(** The price [s] steps after [t] meets or falls below the lower barrier. *)
Definition touches_down (s : nat) : Prop :=
  exists p v f, prices !! t = Some p /\ volatility !! t = Some v /\
    prices !! (t + s)%nat = Some f /\ f <= p * (1 - v * sl).

(** [r] is the first step in [1..H] at which [hit] holds, [None] standing
    for an unresolved touch. *)
Definition first_step (hit : nat -> Prop) (r : touch) : Prop :=
  match r with
  | Some s => (1 <= s <= H)%nat /\ hit s /\ forall s', (1 <= s' < s)%nat -> ~ hit s'
  | None => forall s, (1 <= s <= H)%nat -> ~ hit s
  end.

(** [a] is strictly earlier than [b], an unresolved touch being later than
    every step. *)
Definition earlier (a b : touch) : Prop :=
  match a, b with
  | Some x, Some y => (x < y)%nat
  | Some _, None => True
  | None, _ => False
  end.

End Race.

(** The first step in [1..n] at which [hit] holds, found the way the loop
    finds it: a later step never replaces an earlier one. *)
Fixpoint first_hit (hit : nat -> bool) (n : nat) : touch :=
  match n with
  | O => None
  | S m =>
      match first_hit hit m with
      | Some s => Some s
      | None => if hit (S m) then Some (S m) else None
      end
  end.

End Labeler.

(** * apps/trading_core/risk_manager.py *)

Module Risk.
Local Open Scope Q_scope.
Local Open Scope res_scope.

(** A number handed to [RiskManager]: a finite [float] or [Decimal], each
    with the rational it denotes.  The signature declares [Decimal]s; an
    [int], a NaN and an infinity are not represented. *)
Inductive pynum : Type :=
| PyFloat (v : Q)
| PyDecimal (v : Q).

Definition value (x : pynum) : Q :=
  match x with
  | PyFloat v => v
  | PyDecimal v => v
  end.

(** The literal [0.1] is the binary64 number nearest to one tenth,
    3602879701896397 / 2^55. *)
Definition float_0_1 : Q := 3602879701896397 # 36028797018963968.

(** [a * b]: [Decimal] and [float] do not mix. *)
Definition py_mul (a b : pynum) : res pynum :=
  match a, b with
  | PyFloat x, PyFloat y => Ok (PyFloat (x * y))
  | PyDecimal x, PyDecimal y => Ok (PyDecimal (x * y))
  | _, _ => Raise TypeError
  end.

(** The attributes [__init__] sets; [df_ohlcv] is kept by its length. *)
Record RiskManager : Type := {
  account_balance : pynum;
  risk_per_trade_pct : pynum;
  df_ohlcv : nat;
  risk_amount : pynum
}.

(** [RiskManager.__init__].  Python compares an [int], a [float] and a
    [Decimal] by their exact values. *)
Definition RiskManager_init (account_balance risk_per_trade_pct : pynum) (df_ohlcv : nat)
    : res RiskManager :=
  if negb (Qltb 0 (value risk_per_trade_pct) && Qltb (value risk_per_trade_pct) float_0_1) then
    Raise (ValueError "risk_per_trade_pct must be between 0 and 0.1")
  else
    let? risk_amount := py_mul account_balance risk_per_trade_pct in
    Ok {| account_balance := account_balance;
          risk_per_trade_pct := risk_per_trade_pct;
          df_ohlcv := df_ohlcv;
          risk_amount := risk_amount |}.

(** Line 71: [position_size = self.risk_amount / stop_loss_pips], with
    [risk_amount = account_balance * risk_per_trade_pct]. *)
Definition position_size (equity risk_fraction stop_distance : Q) : Q :=
  (equity * risk_fraction) / stop_distance.

End Risk.

(** * apps/trading_core: models, circuit breaker, execution, decision *)

Module TradingCore.
Local Open Scope Q_scope.

(** ** State and exceptions threaded through the database code *)

Definition st_ret {S A : Type} (a : A) : S -> res A * S :=
  fun s => (Ok a, s).

Definition st_raise {S A : Type} (e : exn) : S -> res A * S :=
  fun s => (Raise e, s).

Definition st_bind {S A B : Type} (m : S -> res A * S) (k : A -> S -> res B * S)
    : S -> res B * S :=
  fun s =>
    match m s with
    | (Ok a, s') => k a s'
    | (Raise e, s') => (Raise e, s')
    end.

Declare Scope st_scope.
Delimit Scope st_scope with st.
Notation "x <- m ;; k" := (st_bind m (fun x => k))
  (at level 100, m at next level, right associativity) : st_scope.
Local Open Scope st_scope.

(** [str(e)] *)
Definition exn_str (e : exn) : string :=
  match e with
  | ValueError msg | PermissionError msg | RuntimeError msg => msg
  | KeyError => "KeyError"
  | TypeError => "TypeError"
  | IndexError => "IndexError"
  | IntegrityError => "UNIQUE constraint failed"
  | DoesNotExist => "TradingSignal matching query does not exist."
  | MultipleObjectsReturned => "get() returned more than one TradingSignal"
  end.

(** ** models.py *)

(** A value stored in a [JSONField]. *)
Inductive json : Type :=
| JStr (s : string)
| JNum (q : Q).

Record TradingSignal : Type := {
  id : Z;
  asset : Z;
  timestamp : Z;
  signal_type : string;
  entry_price : Q;
  stop_loss : Q;
  take_profit : Q;
  position_size : Q;
  status : string;
  meta : gmap string json
}.

Record Order : Type := {
  order_id : Z;
  order_signal : Z;
  broker_order_id : option string;
  order_status : string;
  sent_at : Z;
  executed_at : option Z;
  broker_response : gmap string json
}.

Record CircuitBreakerState : Type := {
  is_tripped : bool;
  tripped_at : option Z;
  reason : option string;
  consecutive_losses : nat;
  last_reset_at : Z
}.

(** The tables, each keyed by primary key, and the next key of the two
    tables the code inserts into. *)
Record database : Type := {
  signals : gmap Z TradingSignal;
  orders : gmap Z Order;
  breaker_states : gmap Z CircuitBreakerState;
  next_signal_id : Z;
  next_order_id : Z
}.

Definition DB (A : Type) : Type := database -> res A * database.

Definition set_signals (f : gmap Z TradingSignal -> gmap Z TradingSignal) (d : database) : database :=
  {| signals := f (signals d); orders := orders d; breaker_states := breaker_states d;
     next_signal_id := next_signal_id d; next_order_id := next_order_id d |}.

Definition set_orders (f : gmap Z Order -> gmap Z Order) (d : database) : database :=
  {| signals := signals d; orders := f (orders d); breaker_states := breaker_states d;
     next_signal_id := next_signal_id d; next_order_id := next_order_id d |}.

Definition set_status (s : TradingSignal) (v : string) : TradingSignal :=
  {| id := id s; asset := asset s; timestamp := timestamp s; signal_type := signal_type s;
     entry_price := entry_price s; stop_loss := stop_loss s; take_profit := take_profit s;
     position_size := position_size s; status := v; meta := meta s |}.

Definition set_meta (s : TradingSignal) (k : string) (v : json) : TradingSignal :=
  {| id := id s; asset := asset s; timestamp := timestamp s; signal_type := signal_type s;
     entry_price := entry_price s; stop_loss := stop_loss s; take_profit := take_profit s;
     position_size := position_size s; status := status s; meta := <[k := v]> (meta s) |}.

(** The rows of [Order] whose [signal] is [pk]. *)
Definition orders_of (pk : Z) (d : database) : list Order :=
  filter (fun o => order_signal o = pk) (map_to_list (orders d)).*2.

(** [TradingSignal.objects.select_for_update().get(pk=pk)] *)
Definition TradingSignal_get (pk : Z) : DB TradingSignal :=
  fun d =>
    match signals d !! pk with
    | Some s => (Ok s, d)
    | None => (Raise DoesNotExist, d)
    end.

(** [signal.save()] *)
Definition TradingSignal_save (s : TradingSignal) : DB unit :=
  fun d => (Ok tt, set_signals <[id s := s]> d).

(** [Order.objects.create(signal=s, status=st)]: [signal] is one-to-one,
    so a second row for the same signal violates its unique constraint, as
    does a primary key that is already taken. *)
Definition Order_create (s : TradingSignal) (st : string) (now : Z) : DB Order :=
  fun d =>
    match orders_of (id s) d, orders d !! next_order_id d with
    | [], None =>
        let o := {| order_id := next_order_id d; order_signal := id s;
                    broker_order_id := None; order_status := st; sent_at := now;
                    executed_at := None; broker_response := ∅ |} in
        (Ok o, {| signals := signals d; orders := <[next_order_id d := o]> (orders d);
                  breaker_states := breaker_states d;
                  next_signal_id := next_signal_id d;
                  next_order_id := (next_order_id d + 1)%Z |})
    | _, _ => (Raise IntegrityError, d)
    end.

(** [order.save()] *)
Definition Order_save (o : Order) : DB unit :=
  fun d => (Ok tt, set_orders <[order_id o := o]> d).

(** [Order.objects.filter(signal=s).update(status=st, broker_response=r)] *)
Definition Order_update_of (pk : Z) (st : string) (r : gmap string json) : DB unit :=
  fun d =>
    (Ok tt, set_orders (fmap (fun o =>
       if decide (order_signal o = pk) then
         {| order_id := order_id o; order_signal := order_signal o;
            broker_order_id := broker_order_id o; order_status := st;
            sent_at := sent_at o; executed_at := executed_at o; broker_response := r |}
       else o)) d).

(** ** circuit_breaker.py *)

Module CircuitBreaker.

(** The row [get_or_create(id=1)] inserts when there is none: the field
    defaults of the model. *)
Definition default_state (now : Z) : CircuitBreakerState :=
  {| is_tripped := false; tripped_at := None; reason := None;
     consecutive_losses := 0; last_reset_at := now |}.

(** [CircuitBreakerState.objects.get_or_create(id=1)] *)
Definition get_or_create (now : Z) : DB (CircuitBreakerState * bool) :=
  fun d =>
    match breaker_states d !! 1%Z with
    | Some st => (Ok (st, false), d)
    | None =>
        (Ok (default_state now, true),
         {| signals := signals d; orders := orders d;
            breaker_states := <[1%Z := default_state now]> (breaker_states d);
            next_signal_id := next_signal_id d; next_order_id := next_order_id d |})
    end.

(** [CircuitBreaker.check()] *)
Definition check (now : Z) : DB unit :=
  sc <- get_or_create now ;;
  if is_tripped sc.1 then
    st_raise (PermissionError ("Circuit Breaker Tripped: " +:+ default "None"%string (reason sc.1)))
  else st_ret tt.

(** [CircuitBreaker.reset()] *)
Definition reset (now : Z) : DB unit :=
  sc <- get_or_create now ;;
  fun d =>
    (Ok tt,
     {| signals := signals d; orders := orders d;
        breaker_states :=
          <[1%Z := {| is_tripped := false; tripped_at := tripped_at sc.1; reason := None;
                      consecutive_losses := 0; last_reset_at := now |}]> (breaker_states d);
        next_signal_id := next_signal_id d; next_order_id := next_order_id d |}).

End CircuitBreaker.

(** ** execution_manager.py *)

(** [self]: the signal object the manager was built with and
    [config.get("EXECUTION_MODE", "demo")]. *)
Record ExecutionManager : Type := {
  signal : TradingSignal;
  mode : string
}.

(** The database together with the manager object, whose [signal] the
    handlers mutate in memory. *)
Record world : Type := {
  db : database;
  self : ExecutionManager
}.

Definition M (A : Type) : Type := world -> res A * world.

(** A database operation run from a method. *)
Definition lift {A : Type} (op : DB A) : M A :=
  fun w =>
    let (r, d) := op (db w) in
    (r, {| db := d; self := self w |}).

Definition get_self : M ExecutionManager :=
  fun w => (Ok (self w), w).

Definition set_self_signal (s : TradingSignal) : M unit :=
  fun w => (Ok tt, {| db := db w; self := {| signal := s; mode := mode (self w) |} |}).

(** [with transaction.atomic(): body]: when [body] leaves with an exception
    the database is back to what it was on entry; objects in memory keep
    their changes. *)
Definition atomic {A : Type} (body : M A) : M A :=
  fun w =>
    match body w with
    | (Ok a, w') => (Ok a, w')
    | (Raise e, w') => (Raise e, {| db := db w; self := self w' |})
    end.

(** [try: body  except ...: handler] *)
Definition try_except {A : Type} (body : M A) (handler : exn -> M A) : M A :=
  fun w =>
    match body w with
    | (Ok a, w') => (Ok a, w')
    | (Raise e, w') => handler e w'
    end.

(** [ExecutionManager._process_order] *)
Definition _process_order (now : Z) (signal_to_execute : TradingSignal) : M Order :=
  order <- lift (Order_create signal_to_execute "SENT" now) ;;
  me <- get_self ;;
  if decide (mode me = "live"%string) then
    st_raise (RuntimeError
      "Live trading is disabled. Enable explicitly in settings after passing all acceptance tests.")
  else
    let order :=
      {| order_id := order_id order; order_signal := order_signal order;
         broker_order_id := Some ("demo_" +:+ pretty (id signal_to_execute));
         order_status := "FILLED";
         sent_at := sent_at order;
         executed_at := Some now;
         broker_response :=
           {[ "message"%string := JStr "Trade executed successfully in demo mode." ]} |} in
    _ <- lift (Order_save order) ;;
    _ <- lift (TradingSignal_save (set_status signal_to_execute "EXECUTED")) ;;
    st_ret order.

(** [ExecutionManager._handle_cancellation] *)
Definition _handle_cancellation (reason : string) : M unit :=
  me <- get_self ;;
  let s := set_meta (set_status (signal me) "CANCELLED") "cancel_reason" (JStr reason) in
  _ <- set_self_signal s ;;
  lift (TradingSignal_save s).

(** [ExecutionManager._handle_failure] *)
Definition _handle_failure (error : string) : M unit :=
  me <- get_self ;;
  lift (Order_update_of (id (signal me)) "FAILED" {[ "error"%string := JStr error ]}).

(** [ExecutionManager.execute_trade].  The atomic block yields [None] when
    the method returns from inside it (line 33) and the order otherwise;
    what follows the block only logs. *)
Definition execute_trade (now : Z) : M unit :=
  try_except
    (_ <- atomic
            (me <- get_self ;;
             signal_to_execute <- lift (TradingSignal_get (id (signal me))) ;;
             if negb (bool_decide (status signal_to_execute = "PENDING"%string)) then
               st_ret None
             else
               _ <- lift (CircuitBreaker.check now) ;;
               order <- _process_order now signal_to_execute ;;
               st_ret (Some order)) ;;
     st_ret tt)
    (fun e =>
       match e with
       | PermissionError msg => _handle_cancellation msg
       | _ => _handle_failure (exn_str e)
       end).

(** [ExecutionManager(signal).execute_trade()] from a database state. *)
Definition run_execute (s : TradingSignal) (m : string) (now : Z) (d : database)
    : res unit * world :=
  execute_trade now {| db := d; self := {| signal := s; mode := m |} |}.

(** *** The outcome of a demo execution, for stating what it does *)

(** The order a demo execution of [sig] leaves in [d]. *)
Definition filled_order (now : Z) (sig : TradingSignal) (d : database) : Order :=
  {| order_id := next_order_id d; order_signal := id sig;
     broker_order_id := Some ("demo_" +:+ pretty (id sig));
     order_status := "FILLED"; sent_at := now; executed_at := Some now;
     broker_response :=
       {[ "message"%string := JStr "Trade executed successfully in demo mode." ]} |}.

(** The database after the row [sig] was executed in demo mode from [d]:
    the breaker row exists, the order is there and filled, the signal is
    executed. *)
Definition demo_filled (now : Z) (sig : TradingSignal) (d : database) : database :=
  {| signals := <[id sig := set_status sig "EXECUTED"]> (signals d);
     orders := <[next_order_id d := filled_order now sig d]> (orders d);
     breaker_states := breaker_states (CircuitBreaker.get_or_create now d).2;
     next_signal_id := next_signal_id d;
     next_order_id := (next_order_id d + 1)%Z |}.

(** The breaker lets executions through in [d]. *)
Definition breaker_closed (d : database) : Prop :=
  forall st, breaker_states d !! 1%Z = Some st -> is_tripped st = false.

(** *** Sample data: the signal of the test factory, pending, alone in the
    database *)

Definition sample_signal : TradingSignal :=
  {| id := 7; asset := 1; timestamp := 100; signal_type := "BUY";
     entry_price := 1.1; stop_loss := 1.09; take_profit := 1.11;
     position_size := 1000; status := "PENDING"; meta := ∅ |}.

Definition sample_db : database :=
  {| signals := {[ 7%Z := sample_signal ]}; orders := ∅; breaker_states := ∅;
     next_signal_id := 8; next_order_id := 1 |}.

(** [s'] carries the side and the price levels of [s]. *)
Definition same_terms (s s' : TradingSignal) : Prop :=
  signal_type s' = signal_type s /\ entry_price s' = entry_price s /\
  stop_loss s' = stop_loss s /\ take_profit s' = take_profit s.

(** ** decision_manager.py *)

(** [Decimal.quantize] to [places] decimal places, rounding half to even. *)
Definition round_half_even (q : Q) : Z :=
  let n := Qnum q in
  let d := Z.pos (Qden q) in
  let f := (n / d)%Z in
  let r := (n mod d)%Z in
  if (2 * r <? d)%Z then f
  else if (d <? 2 * r)%Z then (f + 1)%Z
  else if Z.even f then f else (f + 1)%Z.

Definition quantize (q : Q) (places : nat) : Q :=
  let scale := (10 ^ Z.of_nat places)%Z in
  Qmake (round_half_even (q * inject_Z scale)) (Z.to_pos scale).

(** [max(a, b)] of two [Decimal]s *)
Definition Qmax (a b : Q) : Q := if Qltb a b then b else a.

(** The attributes [DecisionManager.__init__] sets; [execution_mode] is the
    [EXECUTION_MODE] of [settings.TRADING_CONFIG], which the execution
    manager reads. *)
Record DecisionManager : Type := {
  symbol : string;
  timeframe : string;
  dm_asset : Z;
  account_balance : Q;
  risk_per_trade_pct : Q;
  execution_mode : string
}.

(** [DecisionManager.__init__]: [config_balance] is
    [config.get("ACCOUNT_BALANCE", 10000.0)] when the key is present. *)
Definition DecisionManager_init (symbol timeframe : string) (asset : Z)
    (config_balance : option Q) (execution_mode : string) : DecisionManager :=
  {| symbol := symbol; timeframe := timeframe; dm_asset := asset;
     account_balance := default 10000 config_balance;
     risk_per_trade_pct := 0.0025;
     execution_mode := execution_mode |}.

(** What the loader and the indicator library give for the two frames. *)
Record frames : Type := {
  len_h1 : nat;
  len_d1 : nat;
  d1_adx : Q;
  d1_atr : Q;
  h1_ema200 : Q;
  h1_rsi : Q;
  h1_adx : Q;
  last_close : Q;
  last_open : Q
}.

(** What the feature pipeline and the classifier give for the last row. *)
Record inference : Type := {
  ml_prob : Q;
  vol_std : Q
}.

(** The collaborators' answers during one run: [loaded = None] when the
    loader raises, [model_info = false] when there is no active model,
    [inferred = None] when the [try] block of step 4 raises. *)
Record market : Type := {
  loaded : option frames;
  model_info : bool;
  inferred : option inference
}.

(** The rows of [TradingSignal] for an asset and a timestamp. *)
Definition signals_at (a ts : Z) (d : database) : list TradingSignal :=
  filter (fun s => asset s = a /\ timestamp s = ts) (map_to_list (signals d)).*2.

(** [TradingSignal.objects.get_or_create(asset=a, timestamp=ts, defaults=...)];
    [mk] builds the row from its new primary key. *)
Definition TradingSignal_get_or_create (a ts : Z) (mk : Z -> TradingSignal)
    : DB (TradingSignal * bool) :=
  fun d =>
    match signals_at a ts d with
    | [] =>
        match signals d !! next_signal_id d with
        | None =>
            let s := mk (next_signal_id d) in
            (Ok (s, true),
             {| signals := <[next_signal_id d := s]> (signals d); orders := orders d;
                breaker_states := breaker_states d;
                next_signal_id := (next_signal_id d + 1)%Z;
                next_order_id := next_order_id d |})
        | Some _ => (Raise IntegrityError, d)
        end
    | [s] => (Ok (s, false), d)
    | _ => (Raise MultipleObjectsReturned, d)
    end.

(** Steps 5 and 6 of [run_analysis] (lines 112-162). *)
Definition fire (dm : DecisionManager) (f : frames) (i : inference) (now : Z) : DB unit :=
  let current_vol := vol_std i in
  let current_price := last_close f in
  let raw_stop_dist := current_price * current_vol * 1.5 in
  let stop_dist := Qmax raw_stop_dist 2.5 in
  let stop_loss := current_price - stop_dist in
  let tp_dist := Qmax (current_price * current_vol * 2.0) 4.0 in
  let take_profit := current_price + tp_dist in
  let risk_amount := account_balance dm * risk_per_trade_pct dm in
  if Qeq_bool stop_dist 0 then st_ret tt
  else
    let position_size := quantize (risk_amount / stop_dist) 2 in
    sc <- TradingSignal_get_or_create (dm_asset dm) now
            (fun pk =>
               {| id := pk; asset := dm_asset dm; timestamp := now;
                  signal_type := "BUY";
                  entry_price := current_price;
                  stop_loss := stop_loss;
                  take_profit := take_profit;
                  position_size := position_size;
                  status := "PENDING";
                  meta := {[ "ml_prob"%string := JNum (ml_prob i);
                             "d1_adx"%string := JNum (d1_adx f);
                             "d1_atr"%string := JNum (d1_atr f);
                             "strategy"%string := JStr "Hybrid_Trend_v1" ]} |}) ;;
    if sc.2 then
      fun d =>
        let (r, w) := run_execute sc.1 (execution_mode dm) now d in
        (r, db w)
    else st_ret tt.

(** [DecisionManager.run_analysis] *)
Definition run_analysis (dm : DecisionManager) (m : market) (now : Z) : DB unit :=
  match loaded m with
  | None => st_ret tt
  | Some f =>
      if (len_h1 f <? 200)%nat || (len_d1 f <? 50)%nat then st_ret tt
      else if Qltb (d1_atr f) 15.0 || Qltb (d1_adx f) 20.0 then st_ret tt
      else
        let is_signal :=
          Qltb (h1_ema200 f) (last_close f) && Qltb (h1_rsi f) 45
          && Qltb 20 (h1_adx f) && Qltb (last_open f) (last_close f) in
        if negb is_signal then st_ret tt
        else if negb (model_info m) then st_ret tt
        else
          match inferred m with
          | None => st_ret tt
          | Some i =>
              if Qltb (ml_prob i) 0.60 then st_ret tt
              else fire dm f i now
          end
  end.

(** *** Sample data: a market that passes every gate *)

Definition sample_manager : DecisionManager :=
  DecisionManager_init "XAUUSD" "H1" 1 None "demo".

Definition sample_market : market :=
  {| loaded := Some {| len_h1 := 480; len_d1 := 100; d1_adx := 25; d1_atr := 30;
                       h1_ema200 := 2000; h1_rsi := 40; h1_adx := 25;
                       last_close := 2010; last_open := 2005 |};
     model_info := true;
     inferred := Some {| ml_prob := 0.7; vol_std := 0.002 |} |}.

End TradingCore.

(** * apps/analytics/volatility/atr_analyzer.py *)

Module Atr.
Local Open Scope Q_scope.

(** The larger of two numbers, as [DataFrame.max(axis=1)] takes it. *)
Definition max2 (a b : Q) : Q := if Qleb a b then b else a.

(** One entry of [tr]: the row maximum of [high - low],
    [|high - close.shift()|] and [|low - close.shift()|].  On the first row
    the shifted close is NaN, which the maximum skips. *)
Definition true_range (high low : Q) (prev_close : option Q) : Q :=
  match prev_close with
  | None => high - low
  | Some pc => max2 (max2 (high - low) (Qabs (high - pc))) (Qabs (low - pc))
  end.

(** [tr], the three series carrying the same index. *)
Definition true_ranges (high low close : list Q) : list Q :=
  zip_with (fun hl pc => true_range hl.1 hl.2 pc) (zip high low) (None :: (Some <$> close)).

(** [Series.ewm(alpha=alpha, adjust=False).mean()]: the first value is
    kept, every later one is [(1 - alpha) * previous + alpha * x]. *)
Fixpoint ewm_from (alpha y : Q) (xs : list Q) : list Q :=
  match xs with
  | [] => []
  | x :: rest =>
      let y' := (1 - alpha) * y + alpha * x in
      y' :: ewm_from alpha y' rest
  end.

Definition ewm_mean (alpha : Q) (xs : list Q) : list Q :=
  match xs with
  | [] => []
  | x :: rest => x :: ewm_from alpha x rest
  end.

(** [atr(high, low, close, window)] for a window of at least one bar. *)
Definition atr (high low close : list Q) (window : positive) : list Q :=
  ewm_mean (1 / inject_Z (Z.pos window)) (true_ranges high low close).

End Atr.

(** * apps/trading_core/risk_manager.py: trade parameters *)

Module RiskSizing.
Import Risk.
Local Open Scope Q_scope.
Local Open Scope res_scope.

(** A row of [self.df_ohlcv]. *)
Record candle : Type := {
  high : Q;
  low : Q;
  close : Q
}.

(** [self.risk_amount / stop_loss_pips]: the divisor is a [Decimal], so
    the amount must be one too. *)
Definition div_by_decimal (a : pynum) (d : Q) : res Q :=
  match a with
  | PyDecimal x => Ok (x / d)
  | PyFloat _ => Raise TypeError
  end.

(** [RiskManager.calculate_trade_parameters]; [df] holds the rows of
    [self.df_ohlcv], [entry_price] is a [Decimal]. *)
Definition calculate_trade_parameters (self : RiskManager) (df : list candle)
    (entry_price : Q) (signal_type : string) : res (option (Q * Q * Q)) :=
  if (length df <? 20)%nat then Ok None
  else
    match last (Atr.atr (high <$> df) (low <$> df) (close <$> df) 14) with
    | None => Raise IndexError
    | Some current_atr =>
        let stop_loss_pips := current_atr * 2 in
        let levels :=
          if decide (signal_type = "BUY"%string) then
            Some (entry_price - stop_loss_pips, entry_price + stop_loss_pips * 1.5)
          else if decide (signal_type = "SELL"%string) then
            Some (entry_price + stop_loss_pips, entry_price - stop_loss_pips * 1.5)
          else None in
        match levels with
        | None => Ok None
        | Some (stop_loss, take_profit) =>
            if Qeq_bool stop_loss_pips 0 then Ok None
            else
              let? position_size := div_by_decimal (risk_amount self) stop_loss_pips in
              Ok (Some (TradingCore.quantize position_size 4,
                        TradingCore.quantize stop_loss 5,
                        TradingCore.quantize take_profit 5))
        end
    end.

End RiskSizing.

(** * apps/trading_core/circuit_breaker.py: [update_state] *)

Module BreakerUpdate.
Import TradingCore.
Local Open Scope Q_scope.

(** [settings.TRADING_CONFIG]: the keys [update_state] reads, an absent key
    being [None]. *)
Record breaker_settings : Type := {
  max_consecutive_losses : option nat;
  max_daily_drawdown_pct : option Q;
  ACCOUNT_BALANCE : option Q
}.

(** How [update_state] ends; the division by the initial balance is a
    [float] division, which raises on zero. *)
Inductive ending : Type :=
| Returned
| ZeroDivisionError.

Section UpdateState.

(** The text of the reason, an f-string over the two percentages. *)
Variable drawdown_reason : Q -> Q -> string.

(** [CircuitBreaker.update_state(current_balance)].  The query for the
    recent signals is never evaluated and [losses] is never used; the row
    is fetched, or created, before the drawdown is computed. *)
Definition update_state (cfg : breaker_settings) (current_balance : Q) (now : Z)
    (d : database) : ending * database :=
  let max_dd_pct := default 0.03 (max_daily_drawdown_pct cfg) in
  let initial_balance := default 10000 (ACCOUNT_BALANCE cfg) in
  let state := (CircuitBreaker.get_or_create now d).1 in
  let d1 := (CircuitBreaker.get_or_create now d).2 in
  match state with
  | Raise _ => (Returned, d1)
  | Ok sc =>
      if Qeq_bool initial_balance 0 then (ZeroDivisionError, d1)
      else
        let current_dd := (initial_balance - current_balance) / initial_balance in
        if Qleb max_dd_pct current_dd then
          (Returned,
           {| signals := signals d1; orders := orders d1;
              breaker_states :=
                <[1%Z := {| is_tripped := true; tripped_at := Some now;
                            reason := Some (drawdown_reason current_dd max_dd_pct);
                            consecutive_losses := consecutive_losses sc.1;
                            last_reset_at := last_reset_at sc.1 |}]> (breaker_states d1);
              next_signal_id := next_signal_id d1; next_order_id := next_order_id d1 |})
        else (Returned, d1)
  end.

End UpdateState.

End BreakerUpdate.

(** * apps/analytics/backtesting/walk_forward.py *)

Module WalkForward.

(** The folds [RollingWindowSplit.split] yields over a frame of [n] rows,
    as positions into its index; [fuel] bounds the iterations of the
    [while] loop. *)
Fixpoint split_from (fuel train_size test_size step n start : nat)
    : list (list nat * list nat) :=
  match fuel with
  | O => []
  | S fuel' =>
      if (start + train_size + test_size <=? n)%nat then
        let train_end := (start + train_size)%nat in
        (seq start train_size, seq train_end test_size)
        :: split_from fuel' train_size test_size step n (start + step)
      else []
  end.

(** [list(RollingWindowSplit(train_size, test_size, step).split(data))] *)
Definition split (fuel train_size test_size step n : nat) : list (list nat * list nat) :=
  split_from fuel train_size test_size step n 0.

(** The number of folds over [n] rows. *)
Definition fold_count (train_size test_size step n : nat) : nat :=
  if (train_size + test_size <=? n)%nat
  then S ((n - train_size - test_size) / step)
  else 0.

End WalkForward.

(** * Further notions for stating properties *)

Module Notions.
Local Open Scope Q_scope.

(** The growth factor of a list of trades: the product of [1 + pnl_pct]. *)
Fixpoint growth (ts : list Backtest.trade) : Q :=
  match ts with
  | [] => 1
  | t :: rest => (1 + Backtest.pnl_pct t) * growth rest
  end.

(** No trade starts before an earlier one has ended. *)
Definition sequential (ts : list Backtest.trade) : Prop :=
  forall i j t1 t2, (i < j)%nat -> ts !! i = Some t1 -> ts !! j = Some t2 ->
    (Backtest.trade_exit_time t1 <= Backtest.trade_entry_time t2)%Z.

(** Two bars with the same timestamp, open, high and low. *)
Definition same_prices (b b' : Backtest.bar) : Prop :=
  Backtest.name b' = Backtest.name b /\ Backtest.open b' = Backtest.open b /\
  Backtest.high b' = Backtest.high b /\ Backtest.low b' = Backtest.low b.

(** The timestamps [ts] increase strictly, starting above [bound]. *)
Fixpoint ascending (bound : Z) (ts : list Z) : Prop :=
  match ts with
  | [] => True
  | t :: rest => (bound < t)%Z /\ ascending t rest
  end.

(** The index of a frame increases strictly. *)
Definition increasing (ts : list Z) : Prop :=
  match ts with
  | [] => True
  | t :: rest => ascending t rest
  end.

(** What the loop has recorded lies in the past of [bound] and in order:
    every trade ends after it started and by [bound]; no trade starts
    before an earlier one ended; an open position was entered by [bound]
    and after every recorded trade ended. *)
Definition chronological (st : Backtest.loop_state) (bound : Z) : Prop :=
  Forall (fun t => (Backtest.trade_entry_time t < Backtest.trade_exit_time t)%Z /\
                   (Backtest.trade_exit_time t <= bound)%Z) (Backtest.trades st) /\
  sequential (Backtest.trades st) /\
  (forall pd, Backtest.position st = Some pd ->
     (Backtest.entry_time pd <= bound)%Z /\
     Forall (fun t => (Backtest.trade_exit_time t <= Backtest.entry_time pd)%Z)
       (Backtest.trades st)).

(** Two rows with the same flags over bars with the same prices. *)
Definition same_row_data (r r' : Backtest.row) : Prop :=
  same_prices (Backtest.row_bar r) (Backtest.row_bar r') /\
  Backtest.enter_long r' = Backtest.enter_long r /\
  Backtest.enter_short r' = Backtest.enter_short r.

(** [s'] is [s] but for the status and the metadata. *)
Definition same_row (s s' : TradingCore.TradingSignal) : Prop :=
  TradingCore.id s' = TradingCore.id s /\
  TradingCore.asset s' = TradingCore.asset s /\
  TradingCore.timestamp s' = TradingCore.timestamp s /\
  TradingCore.signal_type s' = TradingCore.signal_type s /\
  TradingCore.entry_price s' = TradingCore.entry_price s /\
  TradingCore.stop_loss s' = TradingCore.stop_loss s /\
  TradingCore.take_profit s' = TradingCore.take_profit s /\
  TradingCore.position_size s' = TradingCore.position_size s.

(** Every gate of [run_analysis] lets the market [m] through, on the frames
    [f] and the inference [i]. *)
Definition gates_pass (m : TradingCore.market) (f : TradingCore.frames)
    (i : TradingCore.inference) : Prop :=
  TradingCore.loaded m = Some f /\ TradingCore.inferred m = Some i /\
  TradingCore.model_info m = true /\
  (200 <= TradingCore.len_h1 f)%nat /\ (50 <= TradingCore.len_d1 f)%nat /\
  15.0 <= TradingCore.d1_atr f /\ 20.0 <= TradingCore.d1_adx f /\
  TradingCore.h1_ema200 f < TradingCore.last_close f /\
  TradingCore.h1_rsi f < 45 /\ 20 < TradingCore.h1_adx f /\
  TradingCore.last_open f < TradingCore.last_close f /\
  0.60 <= TradingCore.ml_prob i.

(** *** Sample data *)

(** [sample_db] with the breaker tripped for the reason "Test trip". *)
Definition tripped_state : TradingCore.CircuitBreakerState :=
  {| TradingCore.is_tripped := true; TradingCore.tripped_at := Some 3%Z;
     TradingCore.reason := Some "Test trip"%string;
     TradingCore.consecutive_losses := 0; TradingCore.last_reset_at := 0 |}.

Definition tripped_db : TradingCore.database :=
  {| TradingCore.signals := TradingCore.signals TradingCore.sample_db;
     TradingCore.orders := ∅;
     TradingCore.breaker_states := {[ 1%Z := tripped_state ]};
     TradingCore.next_signal_id := 8; TradingCore.next_order_id := 1 |}.

(** [sample_db] with an order already stored for [sample_signal]. *)
Definition stale_order : TradingCore.Order :=
  {| TradingCore.order_id := 1; TradingCore.order_signal := 7;
     TradingCore.broker_order_id := None; TradingCore.order_status := "SENT";
     TradingCore.sent_at := 2; TradingCore.executed_at := None;
     TradingCore.broker_response := ∅ |}.

Definition stale_db : TradingCore.database :=
  {| TradingCore.signals := TradingCore.signals TradingCore.sample_db;
     TradingCore.orders := {[ 1%Z := stale_order ]};
     TradingCore.breaker_states := ∅;
     TradingCore.next_signal_id := 8; TradingCore.next_order_id := 2 |}.

(** The manager built for [sample_signal] in the given mode. *)
Definition sample_world (d : TradingCore.database) (m : string) : TradingCore.world :=
  {| TradingCore.db := d;
     TradingCore.self := {| TradingCore.signal := TradingCore.sample_signal;
                            TradingCore.mode := m |} |}.

(** The settings with every key absent, and a stand-in for the reason's
    text. *)
Definition default_settings : BreakerUpdate.breaker_settings :=
  {| BreakerUpdate.max_consecutive_losses := None;
     BreakerUpdate.max_daily_drawdown_pct := None;
     BreakerUpdate.ACCOUNT_BALANCE := None |}.

Definition plain_reason (current_dd max_dd_pct : Q) : string :=
  "Max Drawdown Limit Hit".

(** Twenty candles between 1.1 and 1.2 that close at 1.15, and twenty that
    do not move. *)
Definition sample_candles : list RiskSizing.candle :=
  replicate 20 {| RiskSizing.high := 1.2; RiskSizing.low := 1.1; RiskSizing.close := 1.15 |}.

Definition still_candles : list RiskSizing.candle :=
  replicate 20 {| RiskSizing.high := 1; RiskSizing.low := 1; RiskSizing.close := 1 |}.

(** A manager that risks one percent of 10000, given as [Decimal]s and as
    [float]s. *)
Definition decimal_manager : Risk.RiskManager :=
  {| Risk.account_balance := Risk.PyDecimal 10000;
     Risk.risk_per_trade_pct := Risk.PyDecimal 0.01;
     Risk.df_ohlcv := 20;
     Risk.risk_amount := Risk.PyDecimal (10000 * 0.01) |}.

Definition float_manager : Risk.RiskManager :=
  {| Risk.account_balance := Risk.PyFloat 10000;
     Risk.risk_per_trade_pct := Risk.PyFloat 0.01;
     Risk.df_ohlcv := 20;
     Risk.risk_amount := Risk.PyFloat (10000 * 0.01) |}.

(** Three prices that rise through the upper barrier of the first on the
    second step, under a volatility of one percent. *)
Definition rising_prices : list Q := [100; 101; 103].
Definition one_percent : list Q := [0.01; 0.01; 0.01].

End Notions.

(** * Properties *)

Lemma Qleb_le x y : Qleb x y = true <-> (x <= y)%Q.
Proof. apply Qle_bool_iff. Qed.

Lemma Qltb_lt x y : Qltb x y = true <-> (x < y)%Q.
Proof.
  unfold Qltb. rewrite negb_true_iff. split.
  - intros H. apply Qnot_le_lt. intros Hle.
    apply Qle_bool_iff in Hle. congruence.
  - intros H. destruct (Qle_bool y x) eqn:E; [|reflexivity].
    apply Qle_bool_iff in E. exfalso. exact (Qlt_not_le _ _ H E).
Qed.

(** ** The position simulator *)

Module BacktestFacts.
Import Backtest.
Local Open Scope Q_scope.
Local Open Scope res_scope.

Lemma last_equity_ok (l : list Q) : l <> [] -> exists e, last l = Some e /\ last_equity l = Ok e.
Proof.
  intros Hne. unfold last_equity. destruct (last l) as [e|] eqn:E.
  - eauto.
  - apply last_None in E. contradiction.
Qed.

(** The exit check on a well-formed state never raises. *)
Lemma check_exit_total c st b :
  wf c st -> exists p r, check_exit c (in_position st) (position st) b = Ok (p, r).
Proof.
  intros (_ & _ & Hpos). unfold check_exit.
  destruct (position st) as [pd|] eqn:Epd.
  - destruct Hpos as [Hside [Hsl Htp]].
    unfold and_then, le_get, ge_get, subscript.
    destruct (opt_truthy (sl_pct c)) eqn:Esl; destruct (opt_truthy (tp_pct c)) eqn:Etp;
      try (destruct Hsl as [sp Esp]; [reflexivity|]; rewrite Esp);
      try (destruct Htp as [tp Etpp]; [reflexivity|]; rewrite Etpp);
      destruct Hside as [-> | ->]; simpl;
      repeat (match goal with |- context [if ?b then _ else _] => destruct b end; simpl);
      eauto.
  - rewrite Hpos. simpl. eauto.
Qed.

Lemma stop_hit_dec c side pd b :
  (exists p, stop_hit c side pd b p) \/ (forall p, ~ stop_hit c side pd b p).
Proof.
  unfold stop_hit. destruct (opt_truthy (sl_pct c)); [|right; intros p [? _]; done].
  destruct (stop_price pd) as [sp|]; [|right; intros p (_ & ? & _); done].
  destruct (side =? 1)%Z.
  - destruct (Qleb (low b) sp) eqn:E.
    + left. exists sp. by apply Qleb_le in E.
    + right. intros p (_ & [= <-] & H). apply Qleb_le in H. congruence.
  - destruct (Qleb sp (high b)) eqn:E.
    + left. exists sp. by apply Qleb_le in E.
    + right. intros p (_ & [= <-] & H). apply Qleb_le in H. congruence.
Qed.

Lemma target_hit_dec c side pd b :
  (exists p, target_hit c side pd b p) \/ (forall p, ~ target_hit c side pd b p).
Proof.
  unfold target_hit. destruct (opt_truthy (tp_pct c)); [|right; intros p [? _]; done].
  destruct (tp_price pd) as [tp|]; [|right; intros p (_ & ? & _); done].
  destruct (side =? 1)%Z.
  - destruct (Qleb tp (high b)) eqn:E.
    + left. exists tp. by apply Qleb_le in E.
    + right. intros p (_ & [= <-] & H). apply Qleb_le in H. congruence.
  - destruct (Qleb (low b) tp) eqn:E.
    + left. exists tp. by apply Qleb_le in E.
    + right. intros p (_ & [= <-] & H). apply Qleb_le in H. congruence.
Qed.

Lemma Qleb_false x y : ~ (x <= y) -> Qleb x y = false.
Proof. intros H. destruct (Qleb x y) eqn:E; [|done]. by apply Qleb_le in E. Qed.

(** The stop condition decides first. *)
Lemma check_exit_stop c side pd b price :
  side = 1%Z \/ side = (-1)%Z ->
  stop_hit c side pd b price ->
  check_exit c side (Some pd) b = Ok (Some price, Some "SL"%string).
Proof.
  intros Hside (Hsl & Hsp & Hcmp). unfold check_exit, and_then, le_get, ge_get, subscript.
  rewrite Hsl, Hsp. destruct Hside as [-> | ->]; simpl in *.
  - apply Qleb_le in Hcmp. by rewrite Hcmp.
  - apply Qleb_le in Hcmp. by rewrite Hcmp.
Qed.

(** The stop condition, when it fails, evaluates to false without raising. *)
Lemma stop_test_false c side pd b :
  barriers_set c pd ->
  (forall p, ~ stop_hit c side pd b p) ->
  and_then (opt_truthy (sl_pct c))
    (if (side =? 1)%Z then le_get (low b) (Some pd) stop_price
     else ge_get (high b) (Some pd) stop_price) = Ok false.
Proof.
  intros [Hset _] Hno. unfold and_then, stop_hit in *.
  destruct (opt_truthy (sl_pct c)); [|done].
  destruct Hset as [sp Hsp]; [done|]. unfold le_get, ge_get. rewrite Hsp.
  destruct (side =? 1)%Z; f_equal; apply Qleb_false; intros H; by apply (Hno sp).
Qed.

Lemma target_test_false c side pd b :
  barriers_set c pd ->
  (forall p, ~ target_hit c side pd b p) ->
  and_then (opt_truthy (tp_pct c))
    (if (side =? 1)%Z then ge_get (high b) (Some pd) tp_price
     else le_get (low b) (Some pd) tp_price) = Ok false.
Proof.
  intros [_ Hset] Hno. unfold and_then, target_hit in *.
  destruct (opt_truthy (tp_pct c)); [|done].
  destruct Hset as [tp Htp]; [done|]. unfold le_get, ge_get. rewrite Htp.
  destruct (side =? 1)%Z; f_equal; apply Qleb_false; intros H; by apply (Hno tp).
Qed.

(** The target condition decides when the stop condition fails. *)
Lemma check_exit_target c side pd b price :
  side = 1%Z \/ side = (-1)%Z ->
  barriers_set c pd ->
  (forall p, ~ stop_hit c side pd b p) ->
  target_hit c side pd b price ->
  check_exit c side (Some pd) b = Ok (Some price, Some "TP"%string).
Proof.
  intros Hside Hset Hno (Htp & Htpp & Hcmp).
  pose proof (stop_test_false c side pd b Hset Hno) as Hstop.
  unfold check_exit. destruct Hside as [-> | ->]; simpl in *; rewrite Hstop; simpl;
    unfold and_then, le_get, ge_get, subscript; rewrite Htp, Htpp;
    apply Qleb_le in Hcmp; by rewrite Hcmp.
Qed.

(** No condition, no exit. *)
Lemma check_exit_untouched c side pd b :
  side = 1%Z \/ side = (-1)%Z ->
  barriers_set c pd ->
  untouched c side pd b ->
  check_exit c side (Some pd) b = Ok (None, None).
Proof.
  intros Hside Hset [Hs Ht].
  pose proof (stop_test_false c side pd b Hset Hs) as Hstop.
  pose proof (target_test_false c side pd b Hset Ht) as Htgt.
  unfold check_exit. destruct Hside as [-> | ->]; simpl in *; by rewrite Hstop, Htgt.
Qed.

Lemma check_exit_inv c side pd b price reason :
  side = 1%Z \/ side = (-1)%Z ->
  barriers_set c pd ->
  check_exit c side (Some pd) b = Ok (price, reason) ->
  (exists p, price = Some p /\ reason = Some "SL"%string /\ stop_hit c side pd b p) \/
  (exists p, price = Some p /\ reason = Some "TP"%string /\
             (forall q, ~ stop_hit c side pd b q) /\ target_hit c side pd b p) \/
  (price = None /\ reason = None /\ untouched c side pd b).
Proof.
  intros Hside Hset Hex.
  destruct (stop_hit_dec c side pd b) as [[p Hp] | Hns].
  - rewrite (check_exit_stop c side pd b p Hside Hp) in Hex.
    injection Hex as <- <-. left. eauto.
  - destruct (target_hit_dec c side pd b) as [[p Hp] | Hnt].
    + rewrite (check_exit_target c side pd b p Hside Hset Hns Hp) in Hex.
      injection Hex as <- <-. right. left. eauto.
    + rewrite (check_exit_untouched c side pd b Hside Hset (conj Hns Hnt)) in Hex.
      injection Hex as <- <-. right. right. done.
Qed.

Lemma exit_phase_flat c st b : in_position st = 0%Z -> exit_phase c st b = Ok st.
Proof. intros H. unfold exit_phase. by rewrite H. Qed.

Lemma exit_phase_close c st b pd price reason e :
  in_position st = 1%Z \/ in_position st = (-1)%Z ->
  position st = Some pd ->
  last (equity st) = Some e ->
  check_exit c (in_position st) (Some pd) b = Ok (Some price, Some reason) ->
  truthy price = true ->
  exit_phase c st b = Ok (closed_state c st pd b price reason e).
Proof.
  intros Hside Hpd He Hex Ht. unfold exit_phase, closed_state.
  rewrite Hpd, Hex. simpl. rewrite Ht. unfold last_equity. rewrite He. simpl.
  by destruct Hside as [-> | ->].
Qed.

Lemma exit_phase_stay c st b pd price reason :
  position st = Some pd ->
  check_exit c (in_position st) (Some pd) b = Ok (price, reason) ->
  opt_truthy price = false ->
  exit_phase c st b = Ok st.
Proof.
  intros Hpd Hex Ht. unfold exit_phase. rewrite Hpd, Hex. simpl. rewrite Ht.
  by destruct (negb _).
Qed.

(** What the exit phase does on a well-formed state: nothing, or it closes
    the position at the price and for the reason the exit check gave. *)
Lemma exit_phase_cases c st b :
  wf c st ->
  exit_phase c st b = Ok st \/
  exists pd price reason e,
    (in_position st = 1%Z \/ in_position st = (-1)%Z) /\
    position st = Some pd /\ last (equity st) = Some e /\
    check_exit c (in_position st) (Some pd) b = Ok (Some price, Some reason) /\
    truthy price = true /\
    exit_phase c st b = Ok (closed_state c st pd b price reason e).
Proof.
  intros (Hne & Hlen & Hpos).
  destruct (position st) as [pd|] eqn:Epd; [|left; by apply exit_phase_flat].
  destruct Hpos as [Hside Hset].
  destruct (check_exit c (in_position st) (Some pd) b) as [[price reason]|err] eqn:Hex.
  2:{ destruct (check_exit_total c st b) as (p & r & Hok).
      - split_and!; [done..|]. by rewrite Epd.
      - rewrite Epd in Hok. congruence. }
  destruct (opt_truthy price) eqn:Ht.
  - right. destruct price as [p|]; [|done].
    destruct (check_exit_inv c _ pd b _ _ Hside Hset Hex)
      as [(q & [= <-] & -> & _) | [(q & [= <-] & -> & _) | (? & _)]]; [| |done];
      destruct (last_equity_ok (equity st) Hne) as (e & He & _);
      eexists pd, p, _, e; split_and!; try done; by apply exit_phase_close.
  - left. by eapply exit_phase_stay.
Qed.

Lemma compound_last e0 ts : exists e, last (compound e0 ts) = Some e.
Proof.
  revert e0. induction ts as [|t ts IH]; intros e0; simpl; [eauto|].
  destruct (IH (e0 * (1 + pnl_pct t))) as [e He].
  exists e. by rewrite last_cons, He.
Qed.

Lemma compound_snoc e0 ts t e :
  last (compound e0 ts) = Some e ->
  compound e0 (ts ++ [t]) = compound e0 ts ++ [e * (1 + pnl_pct t)].
Proof.
  revert e0. induction ts as [|t' ts IH]; intros e0 He; simpl in *.
  - by injection He as ->.
  - f_equal. apply IH.
    destruct (compound_last (e0 * (1 + pnl_pct t')) ts) as [e' He'].
    rewrite last_cons, He' in He. congruence.
Qed.

Lemma compound_length e0 ts : length (compound e0 ts) = S (length ts).
Proof. revert e0. induction ts as [|t ts IH]; intros e0; simpl; [done|]. by rewrite IH. Qed.

Lemma barrier_below_set x pct : opt_truthy pct = true -> is_Some (barrier_below x pct).
Proof. intros H. unfold barrier_below. rewrite H. eauto. Qed.

Lemma barrier_above_set x pct : opt_truthy pct = true -> is_Some (barrier_above x pct).
Proof. intros H. unfold barrier_above. rewrite H. eauto. Qed.

Lemma init_inv c now df : inv c df (init_state c now df).
Proof.
  unfold inv, wf, init_state; simpl. by split_and!.
Qed.

Lemma closed_trade_explained c df st pd b price reason b_in :
  in_position st = 1%Z \/ in_position st = (-1)%Z ->
  barriers_set c pd ->
  b_in ∈ df -> b ∈ df ->
  opened_at c (in_position st) b_in pd ->
  check_exit c (in_position st) (Some pd) b = Ok (Some price, Some reason) ->
  explained c df
    {| trade_entry_time := entry_time pd;
       trade_exit_time := name b;
       pnl_pct := trade_return c (in_position st) (entry_price_after_costs pd) price;
       exit_reason := reason;
       trade_type := if (in_position st =? 1)%Z then "LONG" else "SHORT" |}.
Proof.
  intros Hside Hset Hin Hout [Htime Hop] Hex.
  exists b_in, b, price. split; [done|]. split; [done|].
  unfold closed_at. simpl. split; [done|]. split; [done|].
  unfold trade_return.
  destruct (check_exit_inv c _ pd b _ _ Hside Hset Hex)
    as [(q & [= <-] & [= ->] & (_ & Hsp & _)) |
        [(q & [= <-] & [= ->] & _ & (_ & Htp & _)) | (? & _)]]; [| |done];
    destruct Hside as [Hs | Hs]; rewrite Hs in *; simpl in *;
    destruct Hop as (-> & Hsp' & Htp').
  - left. split; [done|]. split; [|done]. left. split; [done|]. congruence.
  - right. split; [done|]. split; [|done]. left. split; [done|]. congruence.
  - left. split; [done|]. split; [|done]. right. split; [done|]. congruence.
  - right. split; [done|]. split; [|done]. right. split; [done|]. congruence.
Qed.

Lemma exit_phase_inv c df st b :
  inv c df st -> b ∈ df -> exists st1, exit_phase c st b = Ok st1 /\ inv c df st1.
Proof.
  intros (Hwf & Heq & Hopen & Htr) Hb.
  destruct (exit_phase_cases c st b Hwf)
    as [Hsame | (pd & price & reason & e & Hside & Hpd & He & Hex & Ht & Hclose)].
  - exists st. by split.
  - exists (closed_state c st pd b price reason e). split; [done|].
    destruct Hwf as (Hne & Hlen & Hpos). rewrite Hpd in Hpos. destruct Hpos as [_ Hset].
    destruct (Hopen pd Hpd) as (b_in & Hin & Hop).
    unfold inv, wf, closed_state; simpl. split_and!.
    + by destruct (equity st).
    + rewrite !length_app. simpl. lia.
    + done.
    + rewrite Heq in He |- *. by rewrite (compound_snoc _ _ _ e He).
    + done.
    + apply Forall_app. split; [done|]. apply Forall_singleton.
      by eapply closed_trade_explained.
Qed.

Lemma entry_phase_inv c df st r :
  inv c df st -> row_bar r ∈ df -> inv c df (entry_phase c st r).
Proof.
  intros (Hwf & Heq & Hopen & Htr) Hb. unfold entry_phase.
  destruct (in_position st =? 0)%Z; [|done].
  destruct Hwf as (Hne & Hlen & Hpos).
  destruct (enter_long r); [|destruct (enter_short r); [|done]].
  - split; [|split; [done|split; [|done]]].
    + split; [done|]. split; [done|]. simpl. split; [by left|].
      split; [apply barrier_below_set | apply barrier_above_set].
    + simpl. intros pd [= <-]. exists (row_bar r). split; [done|]. by unfold opened_at.
  - split; [|split; [done|split; [|done]]].
    + split; [done|]. split; [done|]. simpl. split; [by right|].
      split; [apply barrier_above_set | apply barrier_below_set].
    + simpl. intros pd [= <-]. exists (row_bar r). split; [done|]. by unfold opened_at.
Qed.

Lemma step_inv c df st r :
  inv c df st -> row_bar r ∈ df -> exists st', step c st r = Ok st' /\ inv c df st'.
Proof.
  intros Hinv Hb. destruct (exit_phase_inv c df st _ Hinv Hb) as (st1 & Hex & Hinv1).
  exists (entry_phase c st1 r). unfold step. rewrite Hex. simpl.
  split; [done|]. by apply entry_phase_inv.
Qed.

Lemma run_loop_inv c df rows st :
  inv c df st -> Forall (fun r => row_bar r ∈ df) rows ->
  exists st', run_loop c rows st = Ok st' /\ inv c df st'.
Proof.
  revert st. induction rows as [|r rows IH]; intros st Hinv Hrows; simpl.
  - eauto.
  - apply Forall_cons in Hrows as [Hr Hrows].
    destruct (step_inv c df st r Hinv Hr) as (st1 & -> & Hinv1). simpl.
    by apply IH.
Qed.

Lemma add_entries_bars prev df : row_bar <$> add_entries prev df = df.
Proof.
  revert prev. induction df as [|b df IH]; intros prev; simpl; [done|].
  by rewrite IH.
Qed.

Lemma loop_rows_bars df : Forall (fun r => row_bar r ∈ df) (loop_rows df).
Proof.
  unfold loop_rows. apply Forall_forall. intros r Hr.
  rewrite <- (add_entries_bars None df) at 1.
  apply list_elem_of_fmap. exists r. split; [done|].
  destruct (add_entries None df); [done|]. simpl in Hr. by right.
Qed.

(** The loop never raises, and its final state satisfies the invariant. *)
Lemma run_loop_total c now df :
  exists st, run_loop c (loop_rows df) (init_state c now df) = Ok st /\ inv c df st.
Proof. apply run_loop_inv; [apply init_inv | apply loop_rows_bars]. Qed.

(** On a bar where neither condition holds an open position is left as
    it is. *)
Lemma step_untouched c st pd r :
  wf c st -> position st = Some pd ->
  untouched c (in_position st) pd (row_bar r) ->
  step c st r = Ok st.
Proof.
  intros (Hne & Hlen & Hpos) Hpd Hun. rewrite Hpd in Hpos. destruct Hpos as [Hside Hset].
  unfold step.
  rewrite (exit_phase_stay c st (row_bar r) pd None None Hpd); simpl.
  - unfold entry_phase. by destruct Hside as [-> | ->].
  - by apply check_exit_untouched.
  - done.
Qed.

Lemma run_loop_untouched c st pd rows :
  wf c st -> position st = Some pd ->
  Forall (fun r => untouched c (in_position st) pd (row_bar r)) rows ->
  run_loop c rows st = Ok st.
Proof.
  intros Hwf Hpd. induction 1 as [|r rows Hr _ IH]; simpl; [done|].
  by rewrite (step_untouched c st pd r Hwf Hpd Hr).
Qed.

Lemma explained_reason c df t :
  explained c df t -> exit_reason t = "SL"%string \/ exit_reason t = "TP"%string.
Proof.
  intros (b_in & b_out & p & _ & _ & _ & _ & Hcases).
  destruct Hcases as [(_ & [[-> _] | [-> _]] & _) | (_ & [[-> _] | [-> _]] & _)]; auto.
Qed.

(** Without entry flags a flat state is left as it is. *)
Lemma run_loop_no_entry c st rows :
  in_position st = 0%Z ->
  Forall (fun r => enter_long r = false /\ enter_short r = false) rows ->
  run_loop c rows st = Ok st.
Proof.
  intros Hflat. induction 1 as [|r rows [Hl Hs] _ IH]; simpl; [done|].
  unfold step. rewrite exit_phase_flat by done. simpl.
  unfold entry_phase. by rewrite Hflat, Hl, Hs.
Qed.

Lemma Qltb_false x y : x <= y -> Qltb y x = false.
Proof.
  intros H. destruct (Qltb y x) eqn:E; [|done]. apply Qltb_lt in E.
  exfalso. exact (Qlt_not_le _ _ E H).
Qed.

Lemma add_entries_no_signal prev df :
  (forall p, prev = Some p -> long_signal p <= 0 /\ short_signal p <= 0) ->
  Forall (fun b => long_signal b <= 0 /\ short_signal b <= 0) df ->
  Forall (fun r => enter_long r = false /\ enter_short r = false) (add_entries prev df).
Proof.
  intros Hprev Hdf. revert prev Hprev.
  induction Hdf as [|b df Hb _ IH]; intros prev Hprev; simpl; [done|].
  apply Forall_cons. split.
  - simpl. destruct prev as [p|]; [|done].
    destruct (Hprev p eq_refl) as [Hl Hs].
    by rewrite (Qltb_false _ _ Hl), (Qltb_false _ _ Hs).
  - apply IH. by intros p [= <-].
Qed.

Lemma summarize_total mean std af c df st :
  inv c df st -> exists r, summarize mean std af c st = Ok r /\
    result_trades r = trades st /\
    (trades st = [] ->
       total_return_pct r = 0 /\ sharpe_ratio r = 0 /\ max_drawdown_pct r = 0 /\
       final_capital r = initial_capital c /\ num_trades r = 0%nat).
Proof.
  intros ((Hne & Hlen & _) & _). unfold summarize, make_series.
  apply Nat.eqb_eq in Hlen as Hlenb. rewrite Hlenb. simpl.
  destruct (equity st) as [|e es] eqn:Ee; [done|].
  destruct (dates st) as [|d ds] eqn:Ed; [done|].
  case_bool_decide as Htr.
  - simpl. eexists. split; [done|]. simpl. by rewrite Htr.
  - assert (Hsnd : (zip (d :: ds) (e :: es)).*2 <> []) by done.
    destruct (last_equity_ok _ Hsnd) as (x & _ & ->). simpl.
    eexists. split; [done|]. by simpl.
Qed.

(** For a position entered at a non-zero price the long return is the
    textbook quotient. *)
Lemma trade_return_long c entry exit_price :
  ~ entry == 0 ->
  trade_return c 1 entry exit_price
  == (exit_price * (1 - slippage c - commission c) - entry) / entry.
Proof. intros H. unfold trade_return. simpl. by field. Qed.

(** The short return is taken on the exit price paid. *)
Lemma trade_return_short c entry exit_price :
  ~ exit_price * (1 + slippage c + commission c) == 0 ->
  trade_return c (-1) entry exit_price
  == (entry - exit_price * (1 + slippage c + commission c))
       / (exit_price * (1 + slippage c + commission c)).
Proof.
  intros H. unfold trade_return. simpl. field.
  split; intros H0; apply H; rewrite H0; ring.
Qed.

(** The loop never raises; every trade it records closes a position opened
    at the open of a bar of the frame and closed at one of the two barriers,
    with the return [closed_at] gives; and the equity list is the initial
    capital followed, for each closed trade in turn, by the previous equity
    times [1 + pnl_pct]. *)
Lemma closed_trades_compound c now df :
  exists st,
    run_loop c (loop_rows df) (init_state c now df) = Ok st /\
    Forall (explained c df) (trades st) /\
    equity st = compound (initial_capital c) (trades st) /\
    length (equity st) = S (length (trades st)).
Proof.
  destruct (run_loop_total c now df) as (st & Hrun & _ & Heq & _ & Htr).
  exists st. split_and!; try done. rewrite Heq. apply compound_length.
Qed.

(** C1, as amended: the loop never raises; every long trade it records
    closes a position opened at the open of a bar of the frame and closed at
    its stop or its target, with the cost-adjusted return
    [(exit_after_costs - entry_after_costs) / entry_after_costs], where
    [entry_after_costs] is the open times [1 + slippage + commission] and
    [exit_after_costs] the barrier times [1 - slippage - commission]; and
    the equity list is the initial capital followed, for each closed trade
    in turn, long or short, by the previous equity times [1 + pnl_pct]: the
    return acts on the whole equity, and neither a risk fraction nor a stop
    distance enters. *)
Theorem long_trades_compound c now df :
  exists st,
    run_loop c (loop_rows df) (init_state c now df) = Ok st /\
    Forall (fun t =>
              trade_type t = "LONG"%string ->
              exists b_in b_out exit_price,
                b_in ∈ df /\ b_out ∈ df /\
                trade_entry_time t = name b_in /\ trade_exit_time t = name b_out /\
                ((exit_reason t = "SL"%string /\
                  barrier_below (open b_in) (sl_pct c) = Some exit_price) \/
                 (exit_reason t = "TP"%string /\
                  barrier_above (open b_in) (tp_pct c) = Some exit_price)) /\
                let entry_after_costs := open b_in * (1 + slippage c + commission c) in
                let exit_after_costs := exit_price * (1 - slippage c - commission c) in
                pnl_pct t = exit_after_costs / entry_after_costs - 1 /\
                (~ entry_after_costs == 0 ->
                 pnl_pct t == (exit_after_costs - entry_after_costs) / entry_after_costs))
      (trades st) /\
    equity st = compound (initial_capital c) (trades st) /\
    length (equity st) = S (length (trades st)).
Proof.
  destruct (run_loop_total c now df) as (st & Hrun & _ & Heq & _ & Htr).
  exists st. split; [done|]. split; [|split; [done|rewrite Heq; apply compound_length]].
  eapply Forall_impl; [exact Htr|]. simpl.
  intros t (b_in & b_out & x & Hin & Hout & Hen & Hex & Hcase) Hlong.
  destruct Hcase as [(_ & Hbar & Hpnl) | (Hshort & _)]; [|congruence].
  exists b_in, b_out, x. split_and!; try done.
  intros Hnz. rewrite Hpnl. field.
  first [exact Hnz | split; intros H0; apply Hnz; rewrite H0; ring].
Qed.

(** C1 fails as stated.  Under [wide_config] the long of
    [long_stopped_wide], entered at 100 and stopped at 80, loses 20% and
    the equity goes from 10000 to 8000: the loss is a fifth of the equity.
    A risk-sized P&L, the return times the size
    [equity * risk_fraction / stop_distance], is for every risk fraction in
    (0, 0.1] at most a tenth of the equity when the stop distance is the
    fraction 0.2 of the price, and at most 10 when it is the 20 price units;
    the price move times that size is at most a tenth of the equity too. *)
Lemma risk_sized_equity_counterexample :
  exists t e,
    run_loop wide_config (loop_rows long_stopped_wide)
      (init_state wide_config 0 long_stopped_wide)
    = Ok {| in_position := 0; position := None; trades := [t];
            equity := [10000; e]; dates := [0%Z; 2%Z] |} /\
    trade_type t = "LONG"%string /\ exit_reason t = "SL"%string /\
    pnl_pct t == (80 - 100) / 100 /\ e == 8000 /\
    forall rf, 0 < rf <= 0.1 ->
      ~ e == 10000 + pnl_pct t * Risk.position_size 10000 rf 0.2 /\
      ~ e == 10000 + pnl_pct t * Risk.position_size 10000 rf (100 - 80) /\
      ~ e == 10000 + (80 - 100) * Risk.position_size 10000 rf (100 - 80).
Proof.
  eexists _, _. split; [vm_compute; reflexivity|]. simpl.
  split; [done|]. split; [done|]. split; [by vm_compute|]. split; [by vm_compute|].
  intros rf [Hlo Hhi]. unfold Risk.position_size.
  assert (Hfrac : 10000 * rf / 0.2 == 50000 * rf) by (by field).
  assert (Hunit : 10000 * rf / (100 - 80) == 500 * rf) by (by field).
  rewrite Hfrac, Hunit. split_and!; lra.
Qed.

(** C2, as amended: the loop has no holding horizon.  A position on whose
    bars neither the stop nor the target condition holds stays open, with no
    trade recorded, however many such bars follow; and every trade a run
    records was closed for the reason SL or TP. *)
Theorem no_time_exit c now df st0 pd rows :
  wf c st0 ->
  position st0 = Some pd ->
  Forall (fun r => untouched c (in_position st0) pd (row_bar r)) rows ->
  run_loop c rows st0 = Ok st0 /\
  exists st,
    run_loop c (loop_rows df) (init_state c now df) = Ok st /\
    Forall (fun t => exit_reason t = "SL"%string \/ exit_reason t = "TP"%string) (trades st).
Proof.
  intros Hwf Hpd Hrows. split; [by eapply run_loop_untouched|].
  destruct (run_loop_total c now df) as (st & Hrun & _ & _ & _ & Htr).
  exists st. split; [done|]. eapply Forall_impl; [exact Htr|].
  intros t. apply explained_reason.
Qed.

(** Bars 2 to 4 of [long_drifting] meet neither condition. *)
Lemma drifting_untouched :
  Forall (fun r => untouched (sample_config 0) 1
                     (sample_long 0) (row_bar r))
    (drop 1 (loop_rows long_drifting)).
Proof.
  repeat apply Forall_cons_2; [..|apply Forall_nil_2];
    (split; intros p (_ & [= <-] & Hcmp); vm_compute in Hcmp; by apply Hcmp).
Qed.

(** The theorem at [long_drifting]: the long entered on bar 1 is still open
    after bars 2 to 4. *)
Lemma no_time_exit_witness :
  run_loop (sample_config 0) (drop 1 (loop_rows long_drifting)) (sample_open 0)
  = Ok (sample_open 0) /\
  exists st,
    run_loop (sample_config 0) (loop_rows long_drifting)
      (init_state (sample_config 0) 0 long_drifting) = Ok st /\
    Forall (fun t => exit_reason t = "SL"%string \/ exit_reason t = "TP"%string) (trades st).
Proof.
  apply (no_time_exit (sample_config 0) 0 long_drifting (sample_open 0) (sample_long 0)).
  - unfold wf, barriers_set; simpl. split_and!; eauto.
  - reflexivity.
  - exact drifting_untouched.
Defined.

(** C2 fails as stated.  In [long_drifting] the long entered on bar 1 (stop
    98, target 104) meets neither condition on bars 2, 3 and 4, so with a
    horizon of one, two or three bars a TIME exit was due; the run ends with
    the position still open and no trade recorded. *)
Lemma time_exit_counterexample :
  exists st pd,
    run_loop (sample_config 0) (loop_rows long_drifting)
      (init_state (sample_config 0) 0 long_drifting) = Ok st /\
    in_position st = 1%Z /\ position st = Some pd /\ entry_time pd = 1%Z /\
    Forall (fun b => untouched (sample_config 0) 1 pd b) (drop 2 long_drifting) /\
    trades st = [] /\
    ~ exists t, t ∈ trades st /\ exit_reason t = "TIME"%string.
Proof.
  eexists _, _. split; [vm_compute; reflexivity|]. simpl.
  split; [done|]. split; [done|]. split; [done|]. split.
  - repeat apply Forall_cons_2; [..|apply Forall_nil_2];
      (split; intros p (_ & [= <-] & Hcmp); vm_compute in Hcmp; by apply Hcmp).
  - split; [done|]. intros (t & Ht & _). by apply elem_of_nil in Ht.
Qed.

(** C6, as amended: on a bar of an open position the stop condition is
    looked at first, whatever the target condition says, and the target
    condition only when the stop condition fails; the trade closes at that
    barrier price, and the same exit cost, slippage plus commission, is
    charged on stop and on target exits alike. *)
Theorem stop_first_costs_on_every_exit c st b pd price reason :
  wf c st ->
  position st = Some pd ->
  (stop_hit c (in_position st) pd b price /\ reason = "SL"%string) \/
  ((forall p, ~ stop_hit c (in_position st) pd b p) /\
   target_hit c (in_position st) pd b price /\ reason = "TP"%string) ->
  truthy price = true ->
  exists e t,
    last (equity st) = Some e /\
    exit_phase c st b
    = Ok {| in_position := 0; position := None; trades := trades st ++ [t];
            equity := equity st ++ [e * (1 + pnl_pct t)];
            dates := dates st ++ [name b] |} /\
    exit_reason t = reason /\
    trade_exit_time t = name b /\
    pnl_pct t =
      if (in_position st =? 1)%Z then
        price * (1 - slippage c - commission c) / entry_price_after_costs pd - 1
      else
        entry_price_after_costs pd / (price * (1 + slippage c + commission c)) - 1.
Proof.
  intros Hwf Hpd Hhit Ht.
  pose proof Hwf as (Hne & _ & Hpos). rewrite Hpd in Hpos. destruct Hpos as [Hside Hset].
  destruct (last_equity_ok _ Hne) as (e & He & _).
  assert (Hex : check_exit c (in_position st) (Some pd) b = Ok (Some price, Some reason)).
  { destruct Hhit as [[Hs ->] | (Hns & Htg & ->)].
    - by apply check_exit_stop.
    - by apply check_exit_target. }
  exists e.
  exists {| trade_entry_time := entry_time pd;
            trade_exit_time := name b;
            pnl_pct := trade_return c (in_position st) (entry_price_after_costs pd) price;
            exit_reason := reason;
            trade_type := if (in_position st =? 1)%Z then "LONG" else "SHORT" |}.
  split; [done|].
  rewrite (exit_phase_close c st b pd price reason e Hside Hpd He Hex Ht).
  split; [reflexivity|]. simpl. split; [done|]. split; [done|].
  unfold trade_return. by destruct Hside as [-> | ->].
Qed.

(** The theorem on a bar that meets both conditions (low 97, high 105): the
    exit is the stop, at 98, less 1% slippage. *)
Lemma stop_first_costs_on_every_exit_witness :
  exists e t,
    last (equity (sample_open 0.01)) = Some e /\
    exit_phase (sample_config 0.01) (sample_open 0.01) (flat_bar 2 100 105 97 98)
    = Ok {| in_position := 0; position := None; trades := trades (sample_open 0.01) ++ [t];
            equity := equity (sample_open 0.01) ++ [e * (1 + pnl_pct t)];
            dates := dates (sample_open 0.01) ++ [name (flat_bar 2 100 105 97 98)] |} /\
    exit_reason t = "SL"%string /\
    trade_exit_time t = name (flat_bar 2 100 105 97 98) /\
    pnl_pct t =
      if (in_position (sample_open 0.01) =? 1)%Z then
        (100 * (1 - 0.02)) * (1 - slippage (sample_config 0.01) - commission (sample_config 0.01))
          / entry_price_after_costs (sample_long 0.01) - 1
      else
        entry_price_after_costs (sample_long 0.01)
          / ((100 * (1 - 0.02)) * (1 + slippage (sample_config 0.01) + commission (sample_config 0.01))) - 1.
Proof.
  apply (stop_first_costs_on_every_exit (sample_config 0.01) (sample_open 0.01)
           (flat_bar 2 100 105 97 98) (sample_long 0.01) (100 * (1 - 0.02)) "SL").
  - unfold wf, barriers_set; simpl. split_and!; eauto.
  - reflexivity.
  - left. split; [|reflexivity]. split; [reflexivity|]. split; [reflexivity|].
    by vm_compute.
  - reflexivity.
Defined.

(** C6 fails as stated.  With 1% slippage and no commission the long of
    [long_target], entered at 100 for 101 after costs, reaches its target
    104 on bar 2: the recorded return is [104 * 0.99 / 101 - 1], the target
    exit having paid the slippage, and not [104 / 101 - 1]. *)
Lemma target_exit_slippage_counterexample :
  exists t e,
    run_loop (sample_config 0.01) (loop_rows long_target)
      (init_state (sample_config 0.01) 0 long_target)
    = Ok {| in_position := 0; position := None; trades := [t];
            equity := [10000; e]; dates := [0%Z; 2%Z] |} /\
    exit_reason t = "TP"%string /\
    pnl_pct t == 104 * (1 - 0.01) / 101 - 1 /\
    ~ pnl_pct t == 104 / 101 - 1.
Proof.
  eexists _, _. split; [vm_compute; reflexivity|]. simpl.
  split; [done|]. split; by vm_compute.
Qed.

(** C9: the simulator never raises; when the loop closed no trade the result
    is the neutral one, total return, Sharpe ratio and drawdown zero, no
    trades, final capital the initial capital; and no trade is closed on an
    empty frame or on a frame without signals. *)
Theorem zero_trades_neutral mean std af now df c :
  exists st r,
    run_loop c (loop_rows df) (init_state c now df) = Ok st /\
    run_vectorized_backtest mean std af now df c = Ok r /\
    result_trades r = trades st /\
    (trades st = [] ->
       total_return_pct r = 0 /\ sharpe_ratio r = 0 /\ max_drawdown_pct r = 0 /\
       final_capital r = initial_capital c /\ num_trades r = 0%nat /\
       result_trades r = []) /\
    (df = [] -> trades st = []) /\
    (Forall (fun b => long_signal b <= 0 /\ short_signal b <= 0) df -> trades st = []).
Proof.
  destruct (run_loop_total c now df) as (st & Hrun & Hinv).
  destruct (summarize_total mean std af c df st Hinv) as (r & Hsum & Htr & Hneutral).
  exists st, r. unfold run_vectorized_backtest. rewrite Hrun. simpl.
  split; [done|]. split; [done|]. split; [done|]. split; [|split].
  - intros Hnone. destruct (Hneutral Hnone) as (? & ? & ? & ? & ?).
    split_and!; try done. by rewrite Htr.
  - intros ->. simpl in Hrun. by injection Hrun as <-.
  - intros Hdf.
    assert (Hst : run_loop c (loop_rows df) (init_state c now df) = Ok (init_state c now df)).
    { apply run_loop_no_entry; [done|]. unfold loop_rows.
      pose proof (add_entries_no_signal None df) as Hflags.
      destruct (add_entries None df) as [|r0 rows] eqn:E; [done|]. simpl.
      eapply Forall_cons_1, Hflags; [|done]. by intros p [=]. }
    rewrite Hst in Hrun. by injection Hrun as <-.
Qed.

End BacktestFacts.

(** ** The barrier labeler *)

Module LabelerFacts.
Import Labeler.
Local Open Scope Q_scope.

Lemma future_p_length pv step : length (future_p pv step) = length pv.
Proof.
  unfold future_p. rewrite length_app, length_fmap, length_replicate, length_drop. lia.
Qed.

Lemma future_p_lookup pv step i :
  (i < length pv)%nat -> future_p pv step !! i = Some (pv !! (i + step)%nat).
Proof.
  intros Hi. unfold future_p.
  destruct (decide (i < length pv - step)%nat) as [Hlt | Hge].
  - rewrite lookup_app_l by (rewrite length_fmap, length_drop; lia).
    rewrite list_lookup_fmap, lookup_drop, (Nat.add_comm step i).
    destruct (lookup_lt_is_Some_2 pv (i + step)%nat) as [x ->]; [lia|]. done.
  - rewrite lookup_app_r by (rewrite length_fmap, length_drop; lia).
    rewrite length_fmap, length_drop.
    rewrite lookup_replicate_2 by lia.
    by rewrite (lookup_ge_None_2 pv (i + step)%nat) by lia.
Qed.

Lemma record_touch_lookup cmp step pv barrier ft i b x :
  (i < length pv)%nat ->
  barrier !! i = Some b -> ft !! i = Some x ->
  record_touch cmp step (future_p pv step) barrier ft !! i
  = Some (if cmp (pv !! (i + step)%nat) b && is_inf x then Some step else x).
Proof.
  intros Hi Hb Hx. unfold record_touch.
  rewrite lookup_zip_with, lookup_zip_with, (future_p_lookup pv step i Hi), Hb, Hx. done.
Qed.

(** The loop invariant: after the steps [1..n] each entry holds the first
    of these steps at which its barrier was met. *)
Lemma scan_invariant pv upper lower n i u l :
  (i < length pv)%nat ->
  upper !! i = Some u -> lower !! i = Some l ->
  let r := fold_left (scan_step pv upper lower) (seq 1 n)
             (replicate (length pv) None, replicate (length pv) None) in
  r.1 !! i = Some (first_hit (fun s => ge_barrier (pv !! (i + s)%nat) u) n) /\
  r.2 !! i = Some (first_hit (fun s => le_barrier (pv !! (i + s)%nat) l) n).
Proof.
  intros Hi Hu Hl. cbv zeta. induction n as [|n IH].
  - simpl. by rewrite !lookup_replicate_2.
  - destruct IH as [IHu IHd]. rewrite seq_S, fold_left_app.
    set (acc := fold_left _ (seq 1 n) _) in *.
    cbn [fold_left scan_step fst snd first_hit]. change (1 + n)%nat with (S n).
    rewrite (record_touch_lookup _ _ pv upper acc.1 i u _ Hi Hu IHu).
    rewrite (record_touch_lookup _ _ pv lower acc.2 i l _ Hi Hl IHd).
    split; f_equal.
    + clear IHu IHd.
      destruct (first_hit (fun s => ge_barrier (pv !! (i + s)%nat) u) n); cbn [is_inf];
        rewrite ?andb_false_r, ?andb_true_r; reflexivity.
    + clear IHu IHd.
      destruct (first_hit (fun s => le_barrier (pv !! (i + s)%nat) l) n); cbn [is_inf];
        rewrite ?andb_false_r, ?andb_true_r; reflexivity.
Qed.

(** [first_hit] finds the first step. *)
Lemma first_hit_first hitb (hit : nat -> Prop) n :
  (forall s, hitb s = true <-> hit s) ->
  first_step n hit (first_hit hitb n).
Proof.
  intros Href. induction n as [|n IH]; simpl.
  - intros s Hs. lia.
  - destruct (first_hit hitb n) as [s0|] eqn:E; simpl in *.
    + destruct IH as (Hr & Hh & Hmin). split; [lia|]. by split.
    + destruct (hitb (S n)) eqn:Eh; simpl.
      * split; [lia|]. split; [by apply Href|]. intros s' Hs'. apply IH. lia.
      * intros s Hs Hhit. destruct (decide (s = S n)) as [-> | Hne].
        -- apply Href in Hhit. congruence.
        -- apply (IH s); [lia|done].
Qed.

(** The first step is unique. *)
Lemma first_step_unique n (hit : nat -> Prop) r r' :
  first_step n hit r -> first_step n hit r' -> r = r'.
Proof.
  destruct r as [s|], r' as [s'|]; simpl.
  - intros (Hr & Hh & Hmin) (Hr' & Hh' & Hmin'). f_equal.
    destruct (Nat.lt_trichotomy s s') as [Hlt | [-> | Hgt]]; [|done|].
    + exfalso. apply (Hmin' s); [lia|done].
    + exfalso. apply (Hmin s'); [lia|done].
  - intros (Hr & Hh & _) Hnone. exfalso. by apply (Hnone s).
  - intros Hnone (Hr & Hh & _). exfalso. by apply (Hnone s').
  - done.
Qed.

Lemma touch_lt_earlier a b : touch_lt a b = true <-> earlier a b.
Proof.
  destruct a as [x|], b as [y|]; simpl; try done.
  apply Nat.ltb_lt.
Qed.

Lemma earlier_irrefl a : ~ earlier a a.
Proof. destruct a; unfold earlier; [lia|tauto]. Qed.

Lemma ge_barrier_touches prices volatility pt t p v s :
  prices !! t = Some p -> volatility !! t = Some v ->
  ge_barrier (prices !! (t + s)%nat) (p * (1 + v * pt)) = true
  <-> touches_up prices volatility pt t s.
Proof.
  intros Hp Hv. unfold touches_up, ge_barrier. split.
  - destruct (prices !! (t + s)%nat) as [f|]; [|done].
    intros Hle. apply Qleb_le in Hle. by exists p, v, f.
  - intros (p' & v' & f & Hp' & Hv' & -> & Hle).
    rewrite Hp in Hp'. rewrite Hv in Hv'. injection Hp' as <-. injection Hv' as <-.
    by apply Qleb_le.
Qed.

Lemma le_barrier_touches prices volatility sl t p v s :
  prices !! t = Some p -> volatility !! t = Some v ->
  le_barrier (prices !! (t + s)%nat) (p * (1 - v * sl)) = true
  <-> touches_down prices volatility sl t s.
Proof.
  intros Hp Hv. unfold touches_down, le_barrier. split.
  - destruct (prices !! (t + s)%nat) as [f|]; [|done].
    intros Hle. apply Qleb_le in Hle. by exists p, v, f.
  - intros (p' & v' & f & Hp' & Hv' & -> & Hle).
    rewrite Hp in Hp'. rewrite Hv in Hv'. injection Hp' as <-. injection Hv' as <-.
    by apply Qleb_le.
Qed.

(** The label the function computes at an index, in terms of [first_hit]. *)
Lemma label_lookup prices volatility H pt sl min_ret t p v :
  prices !! t = Some p -> volatility !! t = Some v ->
  create_triple_barrier_target prices volatility H pt sl min_ret !! t
  = Some (if touch_lt
               (first_hit (fun s => ge_barrier (prices !! (t + s)%nat) (p * (1 + v * pt))) H)
               (first_hit (fun s => le_barrier (prices !! (t + s)%nat) (p * (1 - v * sl))) H)
             && Qltb min_ret (v * pt)
          then 1%Z else 0%Z).
Proof.
  intros Hp Hv. unfold create_triple_barrier_target.
  assert (Ht : (t < length prices)%nat) by (by eapply lookup_lt_Some).
  set (upper := zip_with _ prices volatility).
  set (lower := zip_with _ prices volatility).
  assert (Hu : upper !! t = Some (p * (1 + v * pt)))
    by (unfold upper; by rewrite lookup_zip_with, Hp, Hv).
  assert (Hl : lower !! t = Some (p * (1 - v * sl)))
    by (unfold lower; by rewrite lookup_zip_with, Hp, Hv).
  destruct (scan_invariant prices upper lower H t _ _ Ht Hu Hl) as [Hfu Hfd].
  rewrite lookup_zip_with, lookup_zip_with, Hfu, Hfd, list_lookup_fmap, Hv. simpl.
  do 2 f_equal. by destruct (first_hit _ H).
Qed.

(** C4: at every index [t] of the series the label is 1 exactly when the
    first step within the horizon at which the price meets or exceeds
    [p[t] * (1 + v[t] * pt)] is strictly earlier than the first step at which
    it meets or falls below [p[t] * (1 - v[t] * sl)], an unresolved touch
    counting as later than every step, and [v[t] * pt > min_ret]; the label
    is 0 otherwise, in particular when both first touches are the same step
    and when [v[t] * pt <= min_ret]. *)
Theorem label_iff_first_touch prices volatility H pt sl min_ret t p v fu fd :
  prices !! t = Some p ->
  volatility !! t = Some v ->
  first_step H (touches_up prices volatility pt t) fu ->
  first_step H (touches_down prices volatility sl t) fd ->
  exists label,
    create_triple_barrier_target prices volatility H pt sl min_ret !! t = Some label /\
    (label = 1%Z <-> earlier fu fd /\ min_ret < v * pt) /\
    (label = 1%Z \/ label = 0%Z) /\
    (fu = fd -> label = 0%Z) /\
    (v * pt <= min_ret -> label = 0%Z).
Proof.
  intros Hp Hv Hfu Hfd.
  rewrite (label_lookup prices volatility H pt sl min_ret t p v Hp Hv).
  set (u := first_hit _ H). set (d := first_hit _ H).
  assert (u = fu) as ->.
  { eapply first_step_unique; [|exact Hfu]. apply first_hit_first.
    intros s. by apply ge_barrier_touches. }
  assert (d = fd) as ->.
  { eapply first_step_unique; [|exact Hfd]. apply first_hit_first.
    intros s. by apply le_barrier_touches. }
  eexists. split; [reflexivity|].
  set (b := touch_lt fu fd && Qltb min_ret (v * pt)).
  assert (Hiff : b = true <-> earlier fu fd /\ min_ret < v * pt).
  { unfold b. rewrite andb_true_iff, touch_lt_earlier, Qltb_lt. done. }
  clearbody b. destruct b.
  - destruct (proj1 Hiff eq_refl) as [He Hw].
    split; [by split|]. split; [by left|]. split.
    + intros ->. by apply earlier_irrefl in He.
    + intros Hle. exfalso. exact (Qlt_not_le _ _ Hw Hle).
  - split; [|by split_and!; [right|..]].
    split; [done|]. intros Hw. apply Hiff in Hw. congruence.
Qed.

(** The theorem on the prices 100, 103, 99 with 1% volatility: from index 0
    the upper barrier 102 is met at step 1 and the lower barrier 98.5
    never. *)
Lemma label_iff_first_touch_witness :
  exists label,
    create_triple_barrier_target [100; 103; 99] [0.01; 0.01; 0.01] 2 2.0 1.5 0.0005
      !! 0%nat = Some label /\
    (label = 1%Z <-> earlier (Some 1%nat) None /\ 0.0005 < 0.01 * 2.0) /\
    (label = 1%Z \/ label = 0%Z) /\
    (Some 1%nat = None -> label = 0%Z) /\
    (0.01 * 2.0 <= 0.0005 -> label = 0%Z).
Proof.
  apply (label_iff_first_touch [100; 103; 99] [0.01; 0.01; 0.01] 2 2.0 1.5 0.0005
           0 100 0.01 (Some 1%nat) None).
  - reflexivity.
  - reflexivity.
  - simpl. split; [lia|]. split; [|intros s' Hs'; lia].
    exists 100, 0.01, 103. split; [reflexivity|]. split; [reflexivity|].
    split; [reflexivity|]. by vm_compute.
  - simpl. intros s Hs (p & v & f & Hp & Hv & Hf & Hle).
    injection Hp as <-. injection Hv as <-.
    assert (s = 1 \/ s = 2)%nat as [-> | ->] by lia;
      injection Hf as <-; by vm_compute in Hle.
Defined.

End LabelerFacts.

(** ** Circuit breaker and execution *)

Module TradingCoreFacts.
Import TradingCore.
Local Open Scope Q_scope.
Local Open Scope st_scope.

(** C8: [CircuitBreaker.check] raises exactly when the breaker state, the
    stored row or the default one when no row exists yet, is tripped; when
    it is not tripped the call returns normally, the state is as it was and
    the signal and order tables are untouched, the whole database being
    unchanged when the row existed. *)
Theorem check_raises_iff_tripped now d :
  let st := default (CircuitBreaker.default_state now) (breaker_states d !! 1%Z) in
  ((exists e d', CircuitBreaker.check now d = (Raise e, d')) <-> is_tripped st = true) /\
  (is_tripped st = false ->
     exists d', CircuitBreaker.check now d = (Ok tt, d') /\
       breaker_states d' !! 1%Z = Some st /\
       signals d' = signals d /\ orders d' = orders d /\
       (is_Some (breaker_states d !! 1%Z) -> d' = d)).
Proof.
  unfold CircuitBreaker.check, CircuitBreaker.get_or_create, st_bind.
  destruct (breaker_states d !! 1%Z) as [st|] eqn:E; simpl.
  - destruct (is_tripped st) eqn:Et; unfold st_raise, st_ret.
    + split; [|done]. split; [done|]. intros _. eauto.
    + split.
      * split; [|done]. intros (e & d' & [=]).
      * intros _. exists d. by split_and!.
  - unfold st_ret. split.
    + split; [|done]. intros (e & d' & [=]).
    + intros _. eexists. split; [reflexivity|]. simpl.
      split; [by rewrite lookup_insert_eq|]. by split_and!.
Qed.

(** Unfold one call of [execute_trade] down to the database operations. *)
Ltac run_execute_trade :=
  unfold execute_trade, try_except, atomic, st_bind, lift, get_self, TradingSignal_get;
  simpl.

Ltac run_process_order :=
  unfold _process_order, st_bind, lift, get_self, Order_create; simpl.

(** A signal that is not pending is skipped: nothing changes. *)
Lemma execute_not_pending now w sig :
  signals (db w) !! id (signal (self w)) = Some sig ->
  status sig <> "PENDING"%string ->
  execute_trade now w = (Ok tt, w).
Proof.
  intros Hsig Hst. destruct w as [d me]; simpl in *.
  run_execute_trade. rewrite Hsig. simpl. by rewrite bool_decide_eq_false_2.
Qed.

Lemma check_closed now d :
  breaker_closed d ->
  CircuitBreaker.check now d = (Ok tt, (CircuitBreaker.get_or_create now d).2).
Proof.
  intros Hcl. unfold CircuitBreaker.check, CircuitBreaker.get_or_create, st_bind.
  destruct (breaker_states d !! 1%Z) as [st|] eqn:E; simpl; [|done].
  by rewrite (Hcl st E).
Qed.

Lemma get_or_create_tables now d :
  signals (CircuitBreaker.get_or_create now d).2 = signals d /\
  orders (CircuitBreaker.get_or_create now d).2 = orders d /\
  next_order_id (CircuitBreaker.get_or_create now d).2 = next_order_id d /\
  next_signal_id (CircuitBreaker.get_or_create now d).2 = next_signal_id d.
Proof.
  unfold CircuitBreaker.get_or_create. by destruct (breaker_states d !! 1%Z).
Qed.

Lemma orders_of_tables pk d d' : orders d' = orders d -> orders_of pk d' = orders_of pk d.
Proof. intros H. unfold orders_of. by rewrite H. Qed.

(** A demo execution of a pending signal without an order. *)
Lemma execute_demo now w sig :
  signals (db w) !! id (signal (self w)) = Some sig ->
  status sig = "PENDING"%string ->
  mode (self w) <> "live"%string ->
  breaker_closed (db w) ->
  orders_of (id sig) (db w) = [] ->
  orders (db w) !! next_order_id (db w) = None ->
  execute_trade now w = (Ok tt, {| db := demo_filled now sig (db w); self := self w |}).
Proof.
  intros Hsig Hst Hmode Hcl Hnone Hfree. destruct w as [d me]; simpl in *.
  destruct (get_or_create_tables now d) as (Hs1 & Ho1 & Hn1 & Hm1).
  run_execute_trade. rewrite Hsig. simpl. rewrite bool_decide_eq_true_2 by done. simpl.
  rewrite (check_closed now d Hcl).
  unfold demo_filled.
  remember (CircuitBreaker.get_or_create now d).2 as d1 eqn:Ed1.
  run_process_order.
  rewrite (orders_of_tables _ d d1 Ho1), Hnone, Ho1, Hn1, Hfree. simpl.
  destruct (decide (mode me = "live"%string)) as [|_]; [done|]. simpl.
  unfold st_ret, filled_order, set_orders, set_signals. simpl.
  rewrite Hs1, Hm1, insert_insert_eq. done.
Qed.

Lemma elem_of_orders_of pk d o :
  o ∈ orders_of pk d <-> order_signal o = pk /\ exists k, orders d !! k = Some o.
Proof.
  unfold orders_of. rewrite list_elem_of_filter, list_elem_of_fmap. split.
  - intros [Hpk ([k o'] & -> & Hin)]. apply elem_of_map_to_list in Hin. eauto.
  - intros [Hpk [k Hk]]. split; [done|]. exists (k, o). split; [done|].
    by apply elem_of_map_to_list.
Qed.

(** A first order for a signal, stored under a free key, is its only one. *)
Lemma orders_of_insert_fresh pk d d' k o :
  orders d' = <[k := o]> (orders d) ->
  orders d !! k = None ->
  order_signal o = pk ->
  orders_of pk d = [] ->
  orders_of pk d' = [o].
Proof.
  intros Hd' Hfree Hpk Hnone. unfold orders_of in *. rewrite Hd'.
  apply Permutation_singleton_r.
  rewrite (map_to_list_insert (orders d) k o Hfree).
  rewrite fmap_cons, filter_cons_True by done. by rewrite Hnone.
Qed.

(** Marking the orders of a signal that has none changes nothing. *)
Lemma update_of_none pk st r d :
  orders_of pk d = [] -> Order_update_of pk st r d = (Ok tt, d).
Proof.
  intros Hnone. unfold Order_update_of, set_orders. f_equal.
  destruct d as [sg od br ns no]; simpl in *. f_equal.
  apply map_eq. intros k. rewrite lookup_fmap.
  destruct (od !! k) as [o|] eqn:E; simpl; [|done]. f_equal.
  destruct (decide (order_signal o = pk)) as [Hpk|]; [|done].
  assert (Hin : o ∈ orders_of pk
                  {| signals := sg; orders := od; breaker_states := br;
                     next_signal_id := ns; next_order_id := no |})
    by (apply elem_of_orders_of; eauto).
  rewrite Hnone in Hin. by apply elem_of_nil in Hin.
Qed.

(** In live mode the order created inside the atomic block is rolled back
    with the block, and the failure handler finds no order to mark. *)
Lemma execute_live_rolls_back now w sig :
  signals (db w) !! id (signal (self w)) = Some sig ->
  id sig = id (signal (self w)) ->
  status sig = "PENDING"%string ->
  mode (self w) = "live"%string ->
  breaker_closed (db w) ->
  orders_of (id sig) (db w) = [] ->
  orders (db w) !! next_order_id (db w) = None ->
  execute_trade now w = (Ok tt, w).
Proof.
  intros Hsig Hid Hst Hmode Hcl Hnone Hfree. destruct w as [d me]; simpl in *.
  destruct (get_or_create_tables now d) as (Hs1 & Ho1 & Hn1 & Hm1).
  run_execute_trade. rewrite Hsig. simpl. rewrite bool_decide_eq_true_2 by done. simpl.
  rewrite (check_closed now d Hcl).
  remember (CircuitBreaker.get_or_create now d).2 as d1 eqn:Ed1.
  run_process_order.
  rewrite (orders_of_tables _ d d1 Ho1), Hnone, Ho1, Hn1, Hfree. simpl.
  destruct (decide (mode me = "live"%string)) as [_|]; [|done]. simpl.
  unfold _handle_failure, st_bind, get_self, lift. simpl.
  rewrite <- Hid. do 2 f_equal.
  exact (f_equal snd (update_of_none (id sig) "FAILED" _ d Hnone)).
Qed.

(** C3: executing a pending signal in demo mode, the breaker not tripped,
    creates its one order, filled, and leaves the signal executed, hence no
    longer pending; a second execution then returns without changing
    anything, so that one order is all there is; and so does every
    execution of a signal that is not pending. *)
Theorem execute_twice_one_order now1 now2 w sig :
  signals (db w) !! id (signal (self w)) = Some sig ->
  id sig = id (signal (self w)) ->
  status sig = "PENDING"%string ->
  mode (self w) <> "live"%string ->
  breaker_closed (db w) ->
  orders_of (id sig) (db w) = [] ->
  orders (db w) !! next_order_id (db w) = None ->
  exists w1 o sig1,
    execute_trade now1 w = (Ok tt, w1) /\
    orders_of (id sig) (db w1) = [o] /\ order_status o = "FILLED"%string /\
    signals (db w1) !! id sig = Some sig1 /\
    status sig1 = "EXECUTED"%string /\ status sig1 <> "PENDING"%string /\
    execute_trade now2 w1 = (Ok tt, w1) /\
    forall now w' sig',
      signals (db w') !! id (signal (self w')) = Some sig' ->
      status sig' <> "PENDING"%string ->
      execute_trade now w' = (Ok tt, w').
Proof.
  intros Hsig Hid Hst Hmode Hcl Hnone Hfree.
  exists {| db := demo_filled now1 sig (db w); self := self w |},
         (filled_order now1 sig (db w)), (set_status sig "EXECUTED").
  split; [by apply execute_demo|].
  split; [by eapply (orders_of_insert_fresh _ (db w))|].
  split; [done|]. simpl.
  split; [by rewrite lookup_insert_eq|]. split; [done|]. split; [done|].
  split; [|intros now w' sig'; apply execute_not_pending].
  apply (execute_not_pending _ _ (set_status sig "EXECUTED")); [|done].
  simpl. rewrite <- Hid. by rewrite lookup_insert_eq.
Qed.

(** [sample_db] has no breaker row, hence no tripped one. *)
Lemma sample_db_closed : breaker_closed sample_db.
Proof. intros st Hst. simpl in Hst. by rewrite lookup_empty in Hst. Qed.

(** The theorem on [sample_signal], alone in [sample_db], in demo mode. *)
Lemma execute_twice_one_order_witness :
  exists w1 o sig1,
    execute_trade 5 {| db := sample_db; self := {| signal := sample_signal; mode := "demo" |} |}
    = (Ok tt, w1) /\
    orders_of (id sample_signal) (db w1) = [o] /\ order_status o = "FILLED"%string /\
    signals (db w1) !! id sample_signal = Some sig1 /\
    status sig1 = "EXECUTED"%string /\ status sig1 <> "PENDING"%string /\
    execute_trade 6 w1 = (Ok tt, w1) /\
    forall now w' sig',
      signals (db w') !! id (signal (self w')) = Some sig' ->
      status sig' <> "PENDING"%string ->
      execute_trade now w' = (Ok tt, w').
Proof.
  apply (execute_twice_one_order 5 6
           {| db := sample_db; self := {| signal := sample_signal; mode := "demo" |} |}
           sample_signal).
  - reflexivity.
  - reflexivity.
  - reflexivity.
  - simpl. discriminate.
  - exact sample_db_closed.
  - reflexivity.
  - reflexivity.
Defined.

(** C5 fails on the code in live mode.  The pending [sample_signal] has no
    order and the breaker is not tripped; [_process_order] creates the order
    and raises, the atomic block rolls the order back, and the failure
    handler finds none to mark: the call returns normally, the signal is
    still pending, and the database holds no order for it, failed or
    otherwise. *)
Theorem live_failure_leaves_no_order :
  run_execute sample_signal "live" 5 sample_db
  = (Ok tt, {| db := sample_db; self := {| signal := sample_signal; mode := "live" |} |}) /\
  orders_of 7 sample_db = [] /\
  signals sample_db !! 7%Z = Some sample_signal /\
  status sample_signal = "PENDING"%string.
Proof.
  split; [|by split_and!].
  apply (execute_live_rolls_back 5 _ sample_signal); try reflexivity.
  exact sample_db_closed.
Qed.

(** An execution touches the signal table at most at the row of its own
    signal, and there only the status and the metadata. *)
Lemma execute_signals now w r w' :
  signals (db w) !! id (signal (self w)) = Some (signal (self w)) ->
  execute_trade now w = (r, w') ->
  signals (db w') = signals (db w) \/
  exists s', same_terms (signal (self w)) s' /\
    signals (db w') = <[id (signal (self w)) := s']> (signals (db w)).
Proof.
  intros Hsig. destruct w as [d me]; simpl in *.
  run_execute_trade. rewrite Hsig. simpl.
  destruct (bool_decide (status (signal me) = "PENDING"%string)); simpl;
    [|intros [= <- <-]; by left].
  unfold CircuitBreaker.check, CircuitBreaker.get_or_create, st_bind.
  destruct (breaker_states d !! 1%Z) as [st|]; simpl.
  - destruct (is_tripped st); simpl.
    + unfold _handle_cancellation, st_bind, get_self, set_self_signal, lift. simpl.
      intros [= <- <-]. simpl. right. eexists. split; [|reflexivity]. done.
    + run_process_order.
      destruct (orders_of _ d); [destruct (orders d !! next_order_id d)|]; simpl;
        try (intros [= <- <-]; by left).
      destruct (decide (mode me = "live"%string)); simpl.
      * intros [= <- <-]. by left.
      * intros [= <- <-]. simpl. right. eexists. split; [|reflexivity]. done.
  - run_process_order.
    match goal with |- context [orders_of ?pk ?d'] =>
      destruct (orders_of pk d'); [destruct (orders d !! next_order_id d)|] end; simpl;
      try (intros [= <- <-]; by left).
    destruct (decide (mode me = "live"%string)); simpl.
    + intros [= <- <-]. by left.
    + intros [= <- <-]. simpl. right. eexists. split; [|reflexivity]. done.
Qed.

Lemma Qmax_ge_r a b : b <= Qmax a b.
Proof.
  unfold Qmax. destruct (Qltb a b) eqn:E; [apply Qle_refl|].
  destruct (Qlt_le_dec a b) as [Hlt | Hle]; [|done].
  apply Qltb_lt in Hlt. congruence.
Qed.

(** The levels of the row [fire] builds. *)
Lemma fire_levels price vol :
  price - Qmax (price * vol * 1.5) 2.5 < price /\
  price < price + Qmax (price * vol * 2.0) 4.0 /\
  Qeq_bool (Qmax (price * vol * 1.5) 2.5) 0 = false.
Proof.
  pose proof (Qmax_ge_r (price * vol * 1.5) 2.5) as Hs.
  pose proof (Qmax_ge_r (price * vol * 2.0) 4.0) as Ht.
  split; [lra|]. split; [lra|].
  destruct (Qeq_bool _ 0) eqn:E; [|done]. apply Qeq_bool_iff in E. lra.
Qed.

(** C10: a signal row that a run of the decision pipeline adds to the table
    is a BUY with its stop loss below and its take profit above the entry
    price. *)
Theorem created_signal_is_buy dm m now d r d' pk s :
  run_analysis dm m now d = (r, d') ->
  signals d !! pk = None ->
  signals d' !! pk = Some s ->
  signal_type s = "BUY"%string /\
  stop_loss s < entry_price s /\ entry_price s < take_profit s.
Proof.
  intros Hrun Hnone Hsome.
  assert (Hsame : forall r0, st_ret tt d = (r0, d') -> False)
    by (intros r0 [= <- <-]; congruence).
  unfold run_analysis in Hrun.
  destruct (loaded m) as [f|]; [|exfalso; by eapply Hsame].
  destruct (_ || _); [exfalso; by eapply Hsame|].
  destruct (_ || _); [exfalso; by eapply Hsame|].
  destruct (negb _); [exfalso; by eapply Hsame|].
  destruct (negb _); [exfalso; by eapply Hsame|].
  destruct (inferred m) as [i|]; [|exfalso; by eapply Hsame].
  destruct (Qltb (ml_prob i) 0.60); [exfalso; by eapply Hsame|].
  unfold fire in Hrun.
  destruct (fire_levels (last_close f) (vol_std i)) as (Hsl & Htp & Hnz).
  rewrite Hnz in Hrun. clear Hsame.
  unfold st_bind, TradingSignal_get_or_create in Hrun.
  destruct (signals_at (dm_asset dm) now d) as [|s0 [|s1 rest]];
    [|injection Hrun as <- <-; congruence..].
  destruct (signals d !! next_signal_id d) eqn:Efree;
    [injection Hrun as <- <-; congruence|].
  simpl in Hrun.
  match type of Hrun with
  | (let (_, _) := ?e in _) = _ => destruct e as [r1 w1] eqn:Hex
  end.
  injection Hrun as <- <-.
  unfold run_execute in Hex.
  apply execute_signals in Hex; [|by apply lookup_insert_eq]. simpl in Hex.
  destruct (decide (pk = next_signal_id d)) as [-> | Hne].
  - destruct Hex as [Heq | (s' & (Hty & Hen & Hst & Htk) & Heq)];
      rewrite Heq in Hsome; rewrite lookup_insert_eq in Hsome; injection Hsome as <-.
    + done.
    + by rewrite Hty, Hen, Hst, Htk.
  - exfalso.
    destruct Hex as [Heq | (s' & _ & Heq)]; rewrite Heq in Hsome;
      rewrite ?lookup_insert_ne in Hsome by done; congruence.
Qed.

(** The theorem on [sample_market]: the run adds the row 8, a BUY at 2010
    with stop 2003.97 and target 2018.04, and executes it. *)
Lemma created_signal_is_buy_witness :
  exists s,
    signals (run_analysis sample_manager sample_market 50 sample_db).2 !! 8%Z = Some s /\
    signals sample_db !! 8%Z = None /\
    status s = "EXECUTED"%string /\
    signal_type s = "BUY"%string /\
    stop_loss s < entry_price s /\ entry_price s < take_profit s.
Proof.
  eexists. split; [vm_compute; reflexivity|]. split; [reflexivity|].
  split; [reflexivity|].
  eapply (created_signal_is_buy sample_manager sample_market 50 sample_db _ _ 8%Z).
  - apply surjective_pairing.
  - reflexivity.
  - vm_compute. reflexivity.
Defined.

End TradingCoreFacts.

(** ** The risk sizer configuration *)

Module RiskFacts.
Import Risk.
Local Open Scope Q_scope.

(** The guard of line 25 in isolation. *)
Lemma guard_passes pct :
  Qltb 0 (value pct) && Qltb (value pct) float_0_1 = true
  <-> 0 < value pct /\ value pct < float_0_1.
Proof. by rewrite andb_true_iff, !Qltb_lt. Qed.

(** What the guard does on a finite [float] or [Decimal]: the fraction is
    rejected with [ValueError] exactly when it does not lie strictly between
    zero and the float literal [0.1]; inside the interval construction
    succeeds provided the balance and the fraction can be multiplied, that
    is, are both [Decimal] or both [float]. *)
Lemma risk_fraction_open_interval balance pct n :
  (RiskManager_init balance pct n
   = Raise (ValueError "risk_per_trade_pct must be between 0 and 0.1")
   <-> ~ (0 < value pct /\ value pct < float_0_1)) /\
  ((exists rm, RiskManager_init balance pct n = Ok rm
               /\ risk_per_trade_pct rm = pct /\ account_balance rm = balance)
   <-> 0 < value pct /\ value pct < float_0_1 /\
       exists x, py_mul balance pct = Ok x).
Proof.
  unfold RiskManager_init. pose proof (guard_passes pct) as Hg.
  destruct (Qltb 0 (value pct) && Qltb (value pct) float_0_1); simpl.
  - destruct (proj1 Hg eq_refl) as [Hlo Hhi].
    destruct (py_mul balance pct) as [x|e] eqn:Emul; simpl.
    + split; [split; [done|tauto]|]. split; [eauto|]. intros _. eauto.
    + split.
      * split; [|tauto]. intros [= ->]. by destruct balance, pct.
      * split; [by intros (rm & [=] & _)|]. by intros (_ & _ & x & [=]).
  - assert (Hout : ~ (0 < value pct /\ value pct < float_0_1))
      by (intros H; apply Hg in H; congruence).
    split; [done|]. split; [by intros (rm & [=] & _)|]. intros (Hlo & Hhi & _). tauto.
Qed.

(** C7: the guard of line 25 misses the bound its comment gives, "risk
    shouldn't be > 10%", on both sides.  The float [0.1], ten percent as a
    caller writes it, is rejected with [ValueError] although it satisfies
    [0 < x <= 0.1]; and because the bound is that float literal, which lies
    slightly above one tenth, the [Decimal] 0.10000000000000000001 is
    accepted, like [Decimal('0.1')], although it is larger than ten
    percent. *)
Lemma risk_fraction_boundary :
  RiskManager_init (PyFloat 10000) (PyFloat float_0_1) 100
  = Raise (ValueError "risk_per_trade_pct must be between 0 and 0.1") /\
  (exists rm, RiskManager_init (PyDecimal 10000) (PyDecimal 0.1) 100 = Ok rm) /\
  0.1 < 0.10000000000000000001 /\
  (exists rm,
     RiskManager_init (PyDecimal 10000) (PyDecimal 0.10000000000000000001) 100 = Ok rm).
Proof.
  split; [reflexivity|]. split; [eexists; reflexivity|].
  split; [reflexivity|]. eexists; reflexivity.
Qed.

End RiskFacts.

(** ** Execution: the other paths of [execute_trade] *)

Module ExecutionFacts.
Import TradingCore TradingCoreFacts.
Local Open Scope Q_scope.
Local Open Scope st_scope.

(** The row a cancellation writes: the manager's own signal object,
    cancelled, with the reason the breaker gave. *)
Lemma check_tripped now d st :
  breaker_states d !! 1%Z = Some st -> is_tripped st = true ->
  CircuitBreaker.check now d
  = (Raise (PermissionError ("Circuit Breaker Tripped: " +:+ default "None"%string (reason st))), d).
Proof.
  intros Hst Ht. unfold CircuitBreaker.check, CircuitBreaker.get_or_create, st_bind.
  rewrite Hst. simpl. by rewrite Ht.
Qed.

(** X1: with the breaker tripped, executing a pending signal cancels it:
    the call returns normally, the stored row becomes the manager's signal
    object with status CANCELLED and the breaker's message under
    [cancel_reason], and the order table is left as it was. *)
Theorem tripped_breaker_cancels now w sig st :
  signals (db w) !! id (signal (self w)) = Some sig ->
  status sig = "PENDING"%string ->
  breaker_states (db w) !! 1%Z = Some st ->
  is_tripped st = true ->
  exists w' row,
    execute_trade now w = (Ok tt, w') /\
    signals (db w') = <[id (signal (self w)) := row]> (signals (db w)) /\
    same_terms (signal (self w)) row /\
    status row = "CANCELLED"%string /\
    meta row !! "cancel_reason"%string
    = Some (JStr ("Circuit Breaker Tripped: " +:+ default "None"%string (reason st))) /\
    orders (db w') = orders (db w) /\
    breaker_states (db w') = breaker_states (db w).
Proof.
  intros Hsig Hst Hbr Ht. destruct w as [d me]; simpl in *.
  run_execute_trade. rewrite Hsig. simpl. rewrite bool_decide_eq_true_2 by done. simpl.
  rewrite (check_tripped now d st Hbr Ht). simpl.
  unfold _handle_cancellation, st_bind, get_self, set_self_signal, lift. simpl.
  eexists _, _. split; [reflexivity|]. simpl.
  split; [reflexivity|]. split; [done|]. split; [done|].
  split; [apply (lookup_insert_eq (meta (signal me)))|]. done.
Qed.

(** X2: when the pending signal already has an order, creating a second
    one violates the one-to-one constraint: the call still returns
    normally, no order is added, every order of the signal is marked FAILED,
    the other orders, the signals and the breaker rows are untouched. *)
Theorem existing_order_marked_failed now w sig :
  signals (db w) !! id (signal (self w)) = Some sig ->
  id sig = id (signal (self w)) ->
  status sig = "PENDING"%string ->
  breaker_closed (db w) ->
  orders_of (id sig) (db w) <> [] ->
  exists w',
    execute_trade now w = (Ok tt, w') /\
    signals (db w') = signals (db w) /\
    breaker_states (db w') = breaker_states (db w) /\
    (forall k, orders (db w) !! k = None -> orders (db w') !! k = None) /\
    (forall k o, orders (db w) !! k = Some o ->
       exists o', orders (db w') !! k = Some o' /\
         order_id o' = order_id o /\ order_signal o' = order_signal o /\
         (order_signal o = id sig -> order_status o' = "FAILED"%string) /\
         (order_signal o <> id sig -> o' = o)).
Proof.
  intros Hsig Hid Hst Hcl Hsome. destruct w as [d me]; simpl in *.
  destruct (get_or_create_tables now d) as (Hs1 & Ho1 & Hn1 & Hm1).
  run_execute_trade. rewrite Hsig. simpl. rewrite bool_decide_eq_true_2 by done. simpl.
  rewrite (check_closed now d Hcl).
  remember (CircuitBreaker.get_or_create now d).2 as d1 eqn:Ed1.
  run_process_order. rewrite (orders_of_tables _ d d1 Ho1).
  destruct (orders_of (id sig) d) as [|o0 rest] eqn:Eo; [done|]. simpl.
  unfold _handle_failure, st_bind, get_self, lift. simpl.
  eexists. split; [reflexivity|]. simpl. split; [done|]. split; [done|].
  rewrite <- Hid. split.
  - intros k Hk. by rewrite lookup_fmap, Hk.
  - intros k o Hk. rewrite lookup_fmap, Hk. simpl. eexists. split; [reflexivity|].
    destruct (decide (order_signal o = id sig)); simpl; by split_and!.
Qed.

(** X3: no exception leaves [execute_trade]: whatever the state of the
    database, the mode and the signal, the call returns normally. *)
Theorem execute_trade_returns now w :
  exists w', execute_trade now w = (Ok tt, w').
Proof.
  destruct w as [d me]. run_execute_trade.
  destruct (signals d !! id (signal me)) as [sig|]; simpl.
  2:{ unfold _handle_failure, st_bind, get_self, lift. simpl. eauto. }
  destruct (bool_decide (status sig = "PENDING"%string)); simpl; [|eauto].
  unfold CircuitBreaker.check, CircuitBreaker.get_or_create, st_bind.
  destruct (breaker_states d !! 1%Z) as [st|]; simpl.
  - destruct (is_tripped st); simpl.
    + unfold _handle_cancellation, st_bind, get_self, set_self_signal, lift. simpl. eauto.
    + run_process_order.
      destruct (orders_of _ d); [destruct (orders d !! next_order_id d)|]; simpl;
        try (unfold _handle_failure, st_bind, get_self, lift; simpl; by eauto).
      destruct (decide (mode me = "live"%string)); simpl; [|by eauto].
      unfold _handle_failure, st_bind, get_self, lift. simpl. eauto.
  - run_process_order.
    match goal with |- context [orders_of ?pk ?d'] =>
      destruct (orders_of pk d'); [destruct (orders d !! next_order_id d)|] end; simpl;
      try (unfold _handle_failure, st_bind, get_self, lift; simpl; by eauto).
    destruct (decide (mode me = "live"%string)); simpl; [|by eauto].
    unfold _handle_failure, st_bind, get_self, lift. simpl. eauto.
Qed.

(** What an execution can do to the order table: nothing, re-mark rows in
    place, or add the first order of a signal under a free key. *)
Lemma execute_orders now w r w' :
  execute_trade now w = (r, w') ->
  orders (db w') = orders (db w) \/
  (exists f : Order -> Order,
     (forall o, order_signal (f o) = order_signal o) /\
     orders (db w') = f <$> orders (db w)) \/
  (exists pk k o,
     orders_of pk (db w) = [] /\ orders (db w) !! k = None /\ order_signal o = pk /\
     orders (db w') = <[k := o]> (orders (db w))).
Proof.
  assert (Hmark : forall (d : database) pk st rr d',
            Order_update_of pk st rr d = (Ok tt, d') ->
            exists f : Order -> Order,
              (forall o, order_signal (f o) = order_signal o) /\
              orders d' = f <$> orders d).
  { intros d pk st rr d' [= <-]. eexists. split; [|reflexivity].
    intros o. simpl. by destruct (decide (order_signal o = pk)). }
  destruct w as [d me]. run_execute_trade.
  destruct (signals d !! id (signal me)) as [sig|]; simpl.
  2:{ unfold _handle_failure, st_bind, get_self, lift. simpl.
      intros [= <- <-]. right. left. by eapply Hmark. }
  destruct (bool_decide (status sig = "PENDING"%string)); simpl;
    [|intros [= <- <-]; by left].
  destruct (get_or_create_tables now d) as (Hs1 & Ho1 & Hn1 & Hm1).
  unfold CircuitBreaker.check, st_bind.
  destruct (CircuitBreaker.get_or_create now d) as [[[st cr]|e] d1] eqn:Eg; simpl in *.
  2:{ unfold CircuitBreaker.get_or_create in Eg.
      by destruct (breaker_states d !! 1%Z). }
  destruct (is_tripped st); simpl.
  - unfold _handle_cancellation, st_bind, get_self, set_self_signal, lift. simpl.
    intros [= <- <-]. by left.
  - run_process_order. rewrite (orders_of_tables _ d d1 Ho1).
    destruct (orders_of (id sig) d) eqn:Eo;
      [destruct (orders d1 !! next_order_id d1) eqn:Ek|]; simpl.
    + unfold _handle_failure, st_bind, get_self, lift. simpl.
      intros [= <- <-]. right. left. by eapply Hmark.
    + destruct (decide (mode me = "live"%string)); simpl.
      * unfold _handle_failure, st_bind, get_self, lift. simpl.
        intros [= <- <-]. right. left. by eapply Hmark.
      * intros [= <- <-]. simpl. right. right.
        exists (id sig), (next_order_id d). eexists.
        rewrite Ho1, Hn1 in Ek.
        split; [done|]. split; [done|]. split; [|by rewrite Ho1, Hn1, insert_insert_eq]. done.
    + unfold _handle_failure, st_bind, get_self, lift. simpl.
      intros [= <- <-]. right. left. by eapply Hmark.
Qed.

Lemma filter_fmap_length (f : Order -> Order) pk (l : list Order) :
  (forall o, order_signal (f o) = order_signal o) ->
  length (filter (fun o => order_signal o = pk) (f <$> l))
  = length (filter (fun o => order_signal o = pk) l).
Proof.
  intros Hf. induction l as [|o l IH]; [done|]. rewrite fmap_cons.
  destruct (decide (order_signal o = pk)) as [Hpk | Hpk].
  - rewrite !filter_cons_True by (by rewrite ?Hf). simpl. by rewrite IH.
  - rewrite !filter_cons_False by (by rewrite ?Hf). done.
Qed.

Lemma orders_of_fmap_length f pk d d' :
  (forall o, order_signal (f o) = order_signal o) ->
  orders d' = f <$> orders d ->
  length (orders_of pk d') = length (orders_of pk d).
Proof.
  intros Hf Hd'. unfold orders_of. rewrite Hd', map_to_list_fmap.
  assert (Hsnd : forall l : list (Z * Order), (prod_map Datatypes.id f <$> l).*2 = f <$> l.*2).
  { induction l as [|[k o] l IH]; [done|]. rewrite !fmap_cons. simpl. by rewrite IH. }
  rewrite Hsnd. by apply filter_fmap_length.
Qed.

Lemma orders_of_insert_other pk pk' d d' k o :
  orders d' = <[k := o]> (orders d) ->
  orders d !! k = None ->
  order_signal o = pk -> pk' <> pk ->
  length (orders_of pk' d') = length (orders_of pk' d).
Proof.
  intros Hd' Hfree Hpk Hne. unfold orders_of. rewrite Hd'.
  rewrite (map_to_list_insert (orders d) k o Hfree).
  rewrite fmap_cons, filter_cons_False by (simpl; congruence). done.
Qed.

(** X4: the one-to-one link between signals and orders survives every
    execution: if no signal has more than one order before the call, none
    has more than one after it. *)
Theorem one_order_per_signal_kept now w r w' :
  execute_trade now w = (r, w') ->
  (forall pk, length (orders_of pk (db w)) <= 1)%nat ->
  forall pk, (length (orders_of pk (db w')) <= 1)%nat.
Proof.
  intros Hex Hone pk.
  destruct (execute_orders now w r w' Hex)
    as [Heq | [(f & Hf & Heq) | (pk0 & k & o & Hnone & Hfree & Hpk & Heq)]].
  - by rewrite (orders_of_tables pk (db w) (db w') Heq).
  - by rewrite (orders_of_fmap_length f pk (db w) (db w') Hf Heq).
  - destruct (decide (pk = pk0)) as [-> | Hne].
    + by rewrite (orders_of_insert_fresh pk0 (db w) (db w') k o Heq Hfree Hpk Hnone).
    + by rewrite (orders_of_insert_other pk0 pk (db w) (db w') k o Heq Hfree Hpk Hne).
Qed.

(** X1 on [tripped_db]. *)
Lemma tripped_breaker_cancels_witness :
  exists w' row,
    execute_trade 5 (Notions.sample_world Notions.tripped_db "demo") = (Ok tt, w') /\
    signals (db w') = <[7%Z := row]> (signals Notions.tripped_db) /\
    same_terms sample_signal row /\
    status row = "CANCELLED"%string /\
    meta row !! "cancel_reason"%string
    = Some (JStr ("Circuit Breaker Tripped: " +:+ "Test trip")) /\
    orders (db w') = orders Notions.tripped_db /\
    breaker_states (db w') = breaker_states Notions.tripped_db.
Proof.
  apply (tripped_breaker_cancels 5 (Notions.sample_world Notions.tripped_db "demo")
           sample_signal Notions.tripped_state); reflexivity.
Defined.

(** X2 on [stale_db]. *)
Lemma existing_order_marked_failed_witness :
  exists w',
    execute_trade 5 (Notions.sample_world Notions.stale_db "demo") = (Ok tt, w') /\
    signals (db w') = signals Notions.stale_db /\
    breaker_states (db w') = breaker_states Notions.stale_db /\
    (forall k, orders Notions.stale_db !! k = None -> orders (db w') !! k = None) /\
    (forall k o, orders Notions.stale_db !! k = Some o ->
       exists o', orders (db w') !! k = Some o' /\
         order_id o' = order_id o /\ order_signal o' = order_signal o /\
         (order_signal o = 7%Z -> order_status o' = "FAILED"%string) /\
         (order_signal o <> 7%Z -> o' = o)).
Proof.
  apply (existing_order_marked_failed 5 (Notions.sample_world Notions.stale_db "demo")
           sample_signal); try reflexivity.
  - intros st Hst. simpl in Hst. by rewrite lookup_empty in Hst.
  - by vm_compute.
Defined.

(** X4 on [stale_db], at the signal that has an order. *)
Lemma one_order_per_signal_kept_witness :
  (length (orders_of 7
     (db (execute_trade 5 (Notions.sample_world Notions.stale_db "demo")).2)) <= 1)%nat.
Proof.
  apply (one_order_per_signal_kept 5 (Notions.sample_world Notions.stale_db "demo")
           (execute_trade 5 (Notions.sample_world Notions.stale_db "demo")).1).
  - apply surjective_pairing.
  - intros pk. unfold orders_of. simpl.
    rewrite map_to_list_singleton. simpl.
    destruct (decide (7%Z = pk)) as [<- | Hne].
    + by rewrite filter_cons_True.
    + rewrite filter_cons_False by done. simpl. lia.
Defined.

End ExecutionFacts.

(** ** The circuit breaker: [reset] and [update_state] *)

Module BreakerFacts.
Import TradingCore BreakerUpdate.
Local Open Scope Q_scope.
Local Open Scope st_scope.

(** X5: a reset always clears the breaker, whatever its state was: the row
    afterwards is not tripped, has no reason and no losses, the next
    [check] returns normally without changing anything, and signals and
    orders are untouched. *)
Theorem reset_then_check_passes now now' d :
  exists d1 st,
    CircuitBreaker.reset now d = (Ok tt, d1) /\
    breaker_states d1 !! 1%Z = Some st /\
    is_tripped st = false /\ reason st = None /\ consecutive_losses st = 0%nat /\
    last_reset_at st = now /\
    signals d1 = signals d /\ orders d1 = orders d /\
    CircuitBreaker.check now' d1 = (Ok tt, d1).
Proof.
  unfold CircuitBreaker.reset, CircuitBreaker.check, CircuitBreaker.get_or_create, st_bind.
  destruct (breaker_states d !! 1%Z) as [st|] eqn:E; simpl;
    (eexists _, _; split; [reflexivity|]; simpl;
     rewrite !lookup_insert_eq; by split_and!).
Qed.

Section UpdateState.
Variable drawdown_reason : Q -> Q -> string.

(** X6: when the drawdown from the configured balance reaches the limit,
    [update_state] trips the breaker, stamped with the time of the call,
    and from then on [check] raises [PermissionError]. *)
Theorem drawdown_trips_breaker cfg current_balance now now' d :
  ~ default 10000 (ACCOUNT_BALANCE cfg) == 0 ->
  default 0.03 (max_daily_drawdown_pct cfg)
  <= (default 10000 (ACCOUNT_BALANCE cfg) - current_balance)
    / default 10000 (ACCOUNT_BALANCE cfg) ->
  exists d1 st msg,
    update_state drawdown_reason cfg current_balance now d = (Returned, d1) /\
    breaker_states d1 !! 1%Z = Some st /\
    is_tripped st = true /\ tripped_at st = Some now /\
    signals d1 = signals d /\ orders d1 = orders d /\
    CircuitBreaker.check now' d1 = (Raise (PermissionError msg), d1).
Proof.
  intros Hnz Hdd. unfold update_state.
  destruct (Qeq_bool (default 10000 (ACCOUNT_BALANCE cfg)) 0) eqn:Ez;
    [by apply Qeq_bool_iff in Ez|].
  apply Qleb_le in Hdd. rewrite Hdd.
  unfold CircuitBreaker.get_or_create.
  destruct (breaker_states d !! 1%Z) as [st|] eqn:E; simpl;
    (eexists _, _, _; split; [reflexivity|]; simpl;
     unfold CircuitBreaker.check, CircuitBreaker.get_or_create, st_bind; simpl;
     rewrite !lookup_insert_eq; simpl; by split_and!).
Qed.

(** X7: [update_state] never clears a trip: if the breaker is tripped
    before the call it is tripped after it, whatever the balance. *)
Theorem update_state_keeps_trip cfg current_balance now d st :
  breaker_states d !! 1%Z = Some st ->
  is_tripped st = true ->
  exists st',
    breaker_states (update_state drawdown_reason cfg current_balance now d).2 !! 1%Z = Some st' /\
    is_tripped st' = true.
Proof.
  intros Hst Ht. unfold update_state, CircuitBreaker.get_or_create. rewrite Hst. simpl.
  destruct (Qeq_bool _ 0); simpl; [eauto|].
  destruct (Qleb _ _); simpl; [|eauto].
  rewrite lookup_insert_eq. eauto.
Qed.


End UpdateState.

(** X6 with the default settings and a balance of 9600, a drawdown of 4%. *)
Lemma drawdown_trips_breaker_witness :
  exists d1 st msg,
    update_state Notions.plain_reason Notions.default_settings 9600 5 sample_db
    = (Returned, d1) /\
    breaker_states d1 !! 1%Z = Some st /\
    is_tripped st = true /\ tripped_at st = Some 5%Z /\
    signals d1 = signals sample_db /\ orders d1 = orders sample_db /\
    CircuitBreaker.check 6 d1 = (Raise (PermissionError msg), d1).
Proof.
  apply (drawdown_trips_breaker Notions.plain_reason Notions.default_settings 9600 5 6
           sample_db); by vm_compute.
Defined.

(** X7 on [tripped_db] with the balance back at 10000. *)
Lemma update_state_keeps_trip_witness :
  exists st',
    breaker_states
      (update_state Notions.plain_reason Notions.default_settings 10000 5
         Notions.tripped_db).2 !! 1%Z = Some st' /\
    is_tripped st' = true.
Proof.
  apply (update_state_keeps_trip Notions.plain_reason Notions.default_settings 10000 5
           Notions.tripped_db Notions.tripped_state); reflexivity.
Defined.


End BreakerFacts.

(** ** Decimal rounding *)

Module DecimalFacts.
Import TradingCore.
Local Open Scope Q_scope.

(** Rounding half to even moves a number by at most one half. *)
Lemma round_half_even_near q :
  q - (1 # 2) <= inject_Z (round_half_even q) /\ inject_Z (round_half_even q) <= q + (1 # 2).
Proof.
  destruct q as [n d]. unfold round_half_even. simpl.
  pose proof (Z.div_mod n (Z.pos d) ltac:(lia)) as Hdm.
  pose proof (Z.mod_pos_bound n (Z.pos d) ltac:(lia)) as Hb.
  set (f := (n / Z.pos d)%Z) in *. set (r := (n mod Z.pos d)%Z) in *.
  assert (Hcases : forall z : Z,
            (2 * Z.pos d * z - Z.pos d <= 2 * n <= 2 * Z.pos d * z + Z.pos d)%Z ->
            (n # d) - (1 # 2) <= inject_Z z /\ inject_Z z <= (n # d) + (1 # 2)).
  { intros z Hz. unfold Qle, Qminus, Qplus, Qopp, inject_Z. simpl.
    rewrite !Pos2Z.inj_mul. split; nia. }
  apply Hcases.
  destruct (2 * r <? Z.pos d)%Z eqn:E1; [apply Z.ltb_lt in E1; nia|].
  apply Z.ltb_ge in E1.
  destruct (Z.pos d <? 2 * r)%Z eqn:E2; [apply Z.ltb_lt in E2; nia|].
  apply Z.ltb_ge in E2.
  destruct (Z.even f); nia.
Qed.

(** [quantize] to [p] places, seen at the scale [10^p]. *)
Lemma quantize_scaled q p :
  quantize q p * inject_Z (10 ^ Z.of_nat p) == inject_Z (round_half_even (q * inject_Z (10 ^ Z.of_nat p))).
Proof.
  unfold quantize.
  assert (Hpos : (0 < 10 ^ Z.of_nat p)%Z) by (apply Z.pow_pos_nonneg; lia).
  set (s := (10 ^ Z.of_nat p)%Z) in *.
  set (z := round_half_even (q * inject_Z s)).
  unfold Qeq, Qmult, inject_Z. simpl.
  rewrite Pos.mul_1_r, Z2Pos.id by done. ring.
Qed.

(** A quantity rounded to two places moves by at most 0.005. *)
Lemma quantize_2_near q : q - 0.005 <= quantize q 2 /\ quantize q 2 <= q + 0.005.
Proof.
  pose proof (quantize_scaled q 2) as Hs.
  pose proof (round_half_even_near (q * inject_Z (10 ^ Z.of_nat 2))) as [Hlo Hhi].
  rewrite <- Hs in Hlo, Hhi. change (inject_Z (10 ^ Z.of_nat 2)) with 100 in *.
  split; lra.
Qed.

(** To four places, by at most 0.00005. *)
Lemma quantize_4_near q : q - 0.00005 <= quantize q 4 /\ quantize q 4 <= q + 0.00005.
Proof.
  pose proof (quantize_scaled q 4) as Hs.
  pose proof (round_half_even_near (q * inject_Z (10 ^ Z.of_nat 4))) as [Hlo Hhi].
  rewrite <- Hs in Hlo, Hhi. change (inject_Z (10 ^ Z.of_nat 4)) with 10000 in *.
  split; lra.
Qed.

(** To five places, by at most 0.000005. *)
Lemma quantize_5_near q : q - 0.000005 <= quantize q 5 /\ quantize q 5 <= q + 0.000005.
Proof.
  pose proof (quantize_scaled q 5) as Hs.
  pose proof (round_half_even_near (q * inject_Z (10 ^ Z.of_nat 5))) as [Hlo Hhi].
  rewrite <- Hs in Hlo, Hhi. change (inject_Z (10 ^ Z.of_nat 5)) with 100000 in *.
  split; lra.
Qed.

End DecimalFacts.

(** ** The decision pipeline: gates, sizing, re-runs *)

Module DecisionFacts.
Import TradingCore TradingCoreFacts Notions.
Local Open Scope Q_scope.
Local Open Scope st_scope.

Lemma Qltb_ge x y : Qltb x y = false -> y <= x.
Proof.
  intros H. destruct (Qlt_le_dec x y) as [Hlt | Hle]; [|done].
  apply Qltb_lt in Hlt. congruence.
Qed.

(** An execution leaves every signal row as it is but for the status and
    the metadata of its own. *)
Lemma execute_rows now w r w' :
  signals (db w) !! id (signal (self w)) = Some (signal (self w)) ->
  execute_trade now w = (r, w') ->
  exists s', same_row (signal (self w)) s' /\
    signals (db w') = <[id (signal (self w)) := s']> (signals (db w)).
Proof.
  intros Hsig. destruct w as [d me]; simpl in *.
  assert (Hkeep : exists s', same_row (signal me) s' /\
                    signals d = <[id (signal me) := s']> (signals d)).
  { exists (signal me). split; [by repeat split|]. by rewrite insert_id. }
  run_execute_trade. rewrite Hsig. simpl.
  destruct (bool_decide (status (signal me) = "PENDING"%string)); simpl;
    [|by intros [= <- <-]].
  unfold CircuitBreaker.check, CircuitBreaker.get_or_create, st_bind.
  destruct (breaker_states d !! 1%Z) as [st|]; simpl.
  - destruct (is_tripped st); simpl.
    + unfold _handle_cancellation, st_bind, get_self, set_self_signal, lift. simpl.
      intros [= <- <-]. simpl. eexists. split; [|reflexivity]. by repeat split.
    + run_process_order.
      destruct (orders_of _ d); [destruct (orders d !! next_order_id d)|]; simpl;
        try (by intros [= <- <-]).
      destruct (decide (mode me = "live"%string)); simpl; [by intros [= <- <-]|].
      intros [= <- <-]. simpl. eexists. split; [|reflexivity]. by repeat split.
  - run_process_order.
    match goal with |- context [orders_of ?pk ?d'] =>
      destruct (orders_of pk d'); [destruct (orders d !! next_order_id d)|] end; simpl;
      try (by intros [= <- <-]).
    destruct (decide (mode me = "live"%string)); simpl; [by intros [= <- <-]|].
    intros [= <- <-]. simpl. eexists. split; [|reflexivity]. by repeat split.
Qed.

(** What a run of the pipeline does to the database: nothing, or, every
    gate passed and no row stored for the asset and the time, it adds one
    row under the next key. *)
Lemma run_analysis_cases dm m now d r d' :
  run_analysis dm m now d = (r, d') ->
  d' = d \/
  exists f i s,
    gates_pass m f i /\
    signals_at (dm_asset dm) now d = [] /\
    signals d !! next_signal_id d = None /\
    signals d' = <[next_signal_id d := s]> (signals d) /\
    id s = next_signal_id d /\ asset s = dm_asset dm /\ timestamp s = now /\
    signal_type s = "BUY"%string /\
    entry_price s = last_close f /\
    stop_loss s = last_close f - Qmax (last_close f * vol_std i * 1.5) 2.5 /\
    take_profit s = last_close f + Qmax (last_close f * vol_std i * 2.0) 4.0 /\
    position_size s
    = quantize (account_balance dm * risk_per_trade_pct dm
                / Qmax (last_close f * vol_std i * 1.5) 2.5) 2.
Proof.
  intros Hrun. unfold run_analysis in Hrun.
  assert (Hsame : forall r0 d0, st_ret tt d = (r0, d0) -> d0 = d)
    by (by intros r0 d0 [= _ <-]).
  destruct (loaded m) as [f|] eqn:Ef; [|left; by eapply Hsame].
  destruct ((len_h1 f <? 200)%nat || (len_d1 f <? 50)%nat) eqn:Elen;
    [left; by eapply Hsame|].
  apply orb_false_iff in Elen as [Eh1 Ed1].
  apply Nat.ltb_ge in Eh1, Ed1.
  destruct (Qltb (d1_atr f) 15.0 || Qltb (d1_adx f) 20.0) eqn:Ereg;
    [left; by eapply Hsame|].
  apply orb_false_iff in Ereg as [Eatr Eadx]. apply Qltb_ge in Eatr, Eadx.
  destruct (Qltb (h1_ema200 f) (last_close f) && Qltb (h1_rsi f) 45
            && Qltb 20 (h1_adx f) && Qltb (last_open f) (last_close f)) eqn:Esig;
    simpl in Hrun; [|left; by eapply Hsame].
  apply andb_true_iff in Esig as [Esig Egreen].
  apply andb_true_iff in Esig as [Esig Estrong].
  apply andb_true_iff in Esig as [Etrend Epull].
  apply Qltb_lt in Egreen, Estrong, Etrend, Epull.
  destruct (model_info m) eqn:Emod; simpl in Hrun; [|left; by eapply Hsame].
  destruct (inferred m) as [i|] eqn:Ei; [|left; by eapply Hsame].
  destruct (Qltb (ml_prob i) 0.60) eqn:Eml; [left; by eapply Hsame|].
  apply Qltb_ge in Eml.
  assert (Hg : gates_pass m f i) by (by repeat split).
  unfold fire in Hrun.
  destruct (fire_levels (last_close f) (vol_std i)) as (_ & _ & Hnz).
  rewrite Hnz in Hrun.
  unfold st_bind, TradingSignal_get_or_create in Hrun.
  destruct (signals_at (dm_asset dm) now d) as [|s0 [|s1 rest]] eqn:Eat;
    [|left; by injection Hrun as _ <-..].
  destruct (signals d !! next_signal_id d) eqn:Efree;
    [left; by injection Hrun as _ <-|].
  simpl in Hrun.
  match type of Hrun with
  | (let (_, _) := ?e in _) = _ => destruct e as [r1 w1] eqn:Hex
  end.
  injection Hrun as <- <-. unfold run_execute in Hex.
  apply execute_rows in Hex; [|by apply lookup_insert_eq]. simpl in Hex.
  destruct Hex as (s' & (Hid & Has & Hts & Hty & Hen & Hsl & Htp & Hps) & Heq).
  right. exists f, i, s'. rewrite Heq, insert_insert_eq.
  by split_and!.
Qed.

(** X9: the pipeline adds a signal only when every gate lets the market
    through: data loaded with at least 200 hourly and 50 daily bars, daily
    ATR at least 15 and daily ADX at least 20, close above the EMA, RSI
    below 45, hourly ADX above 20, a rising last bar, an active model and a
    probability of at least 0.60.  Whenever one of them fails the signal
    table is left as it was. *)
Theorem no_signal_without_gates dm m now d r d' :
  run_analysis dm m now d = (r, d') ->
  signals d' <> signals d ->
  exists f i, gates_pass m f i.
Proof.
  intros Hrun Hch.
  destruct (run_analysis_cases dm m now d r d' Hrun) as [-> | (f & i & s & Hg & _)];
    [done|eauto].
Qed.

(** X10: a row the pipeline adds is stored for the manager's asset at the
    time of the run, with its stop at least 2.5 below and its target at
    least 4.0 above the entry price, and with a size within 0.005 units of
    the risked amount, balance times risk fraction, divided by the stop
    distance. *)
Theorem created_signal_sized dm m now d r d' pk s :
  run_analysis dm m now d = (r, d') ->
  signals d !! pk = None ->
  signals d' !! pk = Some s ->
  asset s = dm_asset dm /\ timestamp s = now /\ id s = pk /\
  2.5 <= entry_price s - stop_loss s /\
  4.0 <= take_profit s - entry_price s /\
  (position_size s - 0.005) * (entry_price s - stop_loss s)
    <= account_balance dm * risk_per_trade_pct dm /\
  account_balance dm * risk_per_trade_pct dm
    <= (position_size s + 0.005) * (entry_price s - stop_loss s).
Proof.
  intros Hrun Hnone Hsome.
  destruct (run_analysis_cases dm m now d r d' Hrun)
    as [-> | (f & i & s' & _ & _ & _ & Heq & Hid & Has & Hts & _ & Hen & Hsl & Htp & Hps)];
    [congruence|].
  rewrite Heq in Hsome.
  destruct (decide (pk = next_signal_id d)) as [-> | Hne];
    [|rewrite lookup_insert_ne in Hsome by done; congruence].
  rewrite lookup_insert_eq in Hsome. injection Hsome as <-.
  pose proof (Qmax_ge_r (last_close f * vol_std i * 1.5) 2.5) as Hd.
  pose proof (Qmax_ge_r (last_close f * vol_std i * 2.0) 4.0) as Ht.
  set (dist := Qmax (last_close f * vol_std i * 1.5) 2.5) in *.
  set (risk := account_balance dm * risk_per_trade_pct dm) in *.
  destruct (DecimalFacts.quantize_2_near (risk / dist)) as [Hlo Hhi].
  rewrite <- Hps in Hlo, Hhi.
  assert (Hdist : entry_price s' - stop_loss s' == dist) by (rewrite Hen, Hsl; ring).
  assert (Hrisk : risk / dist * dist == risk) by (field; lra).
  rewrite Hen, Hsl, Htp in *. split_and!; try done; try lra.
  - rewrite Hdist, <- Hrisk. apply Qmult_le_compat_r; lra.
  - rewrite Hdist, <- Hrisk. apply Qmult_le_compat_r; lra.
Qed.

(** X11: creation is keyed by the time of the call.  Whenever every gate
    passes and no row is stored for the asset at that time, the run stores
    one new BUY row under the next key, whatever rows earlier runs have
    stored: a run one tick after another that fired adds a second signal. *)
Theorem passing_run_adds_signal dm m now d f i :
  gates_pass m f i ->
  signals_at (dm_asset dm) now d = [] ->
  signals d !! next_signal_id d = None ->
  exists r d' s,
    run_analysis dm m now d = (r, d') /\
    signals d' = <[next_signal_id d := s]> (signals d) /\
    id s = next_signal_id d /\ asset s = dm_asset dm /\ timestamp s = now /\
    signal_type s = "BUY"%string /\
    size (signals d') = S (size (signals d)).
Proof.
  intros (Hl & Hi & Hm & Hh1 & Hd1 & Hatr & Hadx & Htrend & Hpull & Hstrong & Hgreen & Hml)
    Hat Hfree.
  unfold run_analysis. rewrite Hl, Hi, Hm.
  apply Nat.ltb_ge in Hh1, Hd1. rewrite Hh1, Hd1.
  rewrite (BacktestFacts.Qltb_false _ _ Hatr), (BacktestFacts.Qltb_false _ _ Hadx).
  apply Qltb_lt in Htrend, Hpull, Hstrong, Hgreen. rewrite Htrend, Hpull, Hstrong, Hgreen.
  rewrite (BacktestFacts.Qltb_false _ _ Hml). simpl.
  unfold fire.
  destruct (fire_levels (last_close f) (vol_std i)) as (_ & _ & Hnz). rewrite Hnz.
  unfold st_bind, TradingSignal_get_or_create. rewrite Hat, Hfree. simpl.
  match goal with
  | |- context [run_execute ?s ?md ?n ?d0] => destruct (run_execute s md n d0) as [r1 w1] eqn:Hex
  end.
  unfold run_execute in Hex.
  apply execute_rows in Hex; [|by apply lookup_insert_eq]. simpl in Hex.
  destruct Hex as (s' & (Hid & Has & Hts & Hty & _) & Heq).
  exists r1, (db w1), s'. rewrite Heq, insert_insert_eq.
  split_and!; try done. by rewrite map_size_insert_None.
Qed.

(** X9 on [sample_market]. *)
Lemma no_signal_without_gates_witness :
  exists f i, gates_pass sample_market f i.
Proof.
  apply (no_signal_without_gates sample_manager sample_market 50 sample_db
           (run_analysis sample_manager sample_market 50 sample_db).1
           (run_analysis sample_manager sample_market 50 sample_db).2).
  - apply surjective_pairing.
  - intros Heq. apply (f_equal (fun t => t !! 8%Z)) in Heq. by vm_compute in Heq.
Defined.

(** X10 on [sample_market]: the row 8, of size 4.15 for a stop 6.03 away. *)
Lemma created_signal_sized_witness :
  exists s,
    signals (run_analysis sample_manager sample_market 50 sample_db).2 !! 8%Z = Some s /\
    position_size s == 4.15 /\
    asset s = dm_asset sample_manager /\ timestamp s = 50%Z /\ id s = 8%Z /\
    2.5 <= entry_price s - stop_loss s /\
    4.0 <= take_profit s - entry_price s /\
    (position_size s - 0.005) * (entry_price s - stop_loss s)
      <= account_balance sample_manager * risk_per_trade_pct sample_manager /\
    account_balance sample_manager * risk_per_trade_pct sample_manager
      <= (position_size s + 0.005) * (entry_price s - stop_loss s).
Proof.
  eexists. split; [vm_compute; reflexivity|]. split; [by vm_compute|].
  eapply (created_signal_sized sample_manager sample_market 50 sample_db _ _ 8%Z).
  - apply surjective_pairing.
  - reflexivity.
  - vm_compute. reflexivity.
Defined.

(** X11 on [sample_market]: a second run, one tick after the run that
    stored the row 8, stores the row 9. *)
Lemma passing_run_adds_signal_witness :
  exists r d' s,
    run_analysis sample_manager sample_market 51
      (run_analysis sample_manager sample_market 50 sample_db).2 = (r, d') /\
    signals d'
    = <[next_signal_id (run_analysis sample_manager sample_market 50 sample_db).2 := s]>
        (signals (run_analysis sample_manager sample_market 50 sample_db).2) /\
    id s = next_signal_id (run_analysis sample_manager sample_market 50 sample_db).2 /\
    asset s = dm_asset sample_manager /\ timestamp s = 51%Z /\
    signal_type s = "BUY"%string /\
    size (signals d')
    = S (size (signals (run_analysis sample_manager sample_market 50 sample_db).2)).
Proof.
  apply (passing_run_adds_signal sample_manager sample_market 51
           (run_analysis sample_manager sample_market 50 sample_db).2
           {| len_h1 := 480; len_d1 := 100; d1_adx := 25; d1_atr := 30;
              h1_ema200 := 2000; h1_rsi := 40; h1_adx := 25;
              last_close := 2010; last_open := 2005 |}
           {| ml_prob := 0.7; vol_std := 0.002 |}).
  - unfold gates_pass. simpl. split_and!; try reflexivity; try lia; by vm_compute.
  - by vm_compute.
  - by vm_compute.
Defined.

End DecisionFacts.

(** ** The position simulator: returns, drawdown, chronology *)

Module SimulatorFacts.
Import Backtest BacktestFacts Notions.
Local Open Scope Q_scope.
Local Open Scope res_scope.

Lemma compound_last_growth e0 ts e :
  last (compound e0 ts) = Some e -> e == e0 * growth ts.
Proof.
  revert e0. induction ts as [|t ts IH]; intros e0 He; simpl in *.
  - injection He as <-. ring.
  - destruct (compound_last (e0 * (1 + pnl_pct t)) ts) as [e' He'].
    rewrite last_cons, He' in He. injection He as <-.
    rewrite (IH _ He'). ring.
Qed.

Lemma fold_min_le (l : list Q) (x : Q) :
  fold_left (fun m y => if Qleb y m then y else m) l x <= x.
Proof.
  revert x. induction l as [|y l IH]; intros x; simpl; [apply Qle_refl|].
  destruct (Qleb y x) eqn:E.
  - apply Qleb_le in E. eapply Qle_trans; [apply IH|done].
  - apply IH.
Qed.

(** The result of [summarize] on a state of the loop, field by field. *)
Lemma summarize_fields mean std af c df st :
  inv c df st ->
  exists r e e0 rest,
    summarize mean std af c st = Ok r /\
    result_trades r = trades st /\
    equity st = e0 :: rest /\ last (equity st) = Some e /\
    (trades st = [] ->
       final_capital r = initial_capital c /\ total_return_pct r = 0 /\
       max_drawdown_pct r = 0) /\
    (trades st <> [] ->
       final_capital r = e /\
       total_return_pct r = (e / initial_capital c - 1) * 100 /\
       max_drawdown_pct r
       = series_min (zip_with (fun e m => (e - m) / m) (equity st) (cummax (equity st))) * 100).
Proof.
  intros ((Hne & Hlen & _) & _). unfold summarize, make_series.
  apply Nat.eqb_eq in Hlen as Hlenb. rewrite Hlenb. simpl.
  assert (Hsnd : (zip (dates st) (equity st)).*2 = equity st) by (apply snd_zip; lia).
  destruct (last_equity_ok _ Hne) as (e & He & Hle).
  destruct (equity st) as [|e0 rest] eqn:Ee; [done|].
  destruct (dates st) as [|d0 ds] eqn:Ed; [done|].
  case_bool_decide as Htr.
  - simpl. eexists _, e, e0, rest. split; [done|]. simpl. by split_and!.
  - rewrite Hsnd, Hle. simpl. eexists _, e, e0, rest. split; [done|]. simpl. by split_and!.
Qed.

(** X12: the final capital is the initial capital times the product of
    [1 + pnl_pct] over the trades, in the order they closed; when the
    initial capital is not zero the total return in percent is that
    product minus one, times one hundred. *)
Theorem final_capital_compounds mean std af now df c :
  exists r,
    run_vectorized_backtest mean std af now df c = Ok r /\
    final_capital r == initial_capital c * growth (result_trades r) /\
    (~ initial_capital c == 0 ->
       total_return_pct r == (growth (result_trades r) - 1) * 100).
Proof.
  destruct (run_loop_total c now df) as (st & Hrun & Hinv).
  destruct (summarize_fields mean std af c df st Hinv)
    as (r & e & e0 & rest & Hsum & Htr & _ & He & Hzero & Hsome).
  exists r. unfold run_vectorized_backtest. rewrite Hrun. simpl. split; [done|].
  destruct Hinv as (_ & Heq & _). rewrite Heq in He.
  apply compound_last_growth in He. rewrite Htr.
  destruct (trades st) as [|t ts] eqn:Et.
  - destruct (Hzero eq_refl) as (-> & -> & _). simpl. split; [ring|]. intros _. ring.
  - destruct Hsome as (-> & -> & _); [done|]. split; [done|].
    intros Hnz. rewrite He. field. done.
Qed.

(** X13: with a positive initial capital the reported maximum drawdown is
    never positive. *)
Theorem max_drawdown_not_positive mean std af now df c :
  0 < initial_capital c ->
  exists r,
    run_vectorized_backtest mean std af now df c = Ok r /\
    max_drawdown_pct r <= 0.
Proof.
  intros Hpos.
  destruct (run_loop_total c now df) as (st & Hrun & Hinv).
  destruct (summarize_fields mean std af c df st Hinv)
    as (r & e & e0 & rest & Hsum & Htr & Hcons & He & Hzero & Hsome).
  exists r. unfold run_vectorized_backtest. rewrite Hrun. simpl. split; [done|].
  destruct (trades st) as [|t ts] eqn:Et.
  - destruct (Hzero eq_refl) as (_ & _ & ->). apply Qle_refl.
  - destruct Hsome as (_ & _ & ->); [done|]. rewrite Hcons. simpl.
    pose proof (fold_min_le
                  (zip_with (fun e m => (e - m) / m) rest (cummax_from e0 rest))
                  ((e0 - e0) / e0)) as Hmin.
    assert (Hfirst : (e0 - e0) / e0 <= 0) by (unfold Qdiv; ring_simplify; apply Qle_refl).
    pose proof (Qle_trans _ _ _ Hmin Hfirst) as H0.
    set (x := fold_left _ _ _) in *. lra.
Qed.

(** The theorem on [long_stopped], with stand-ins for the pandas
    statistics. *)
Lemma max_drawdown_not_positive_witness :
  exists r,
    run_vectorized_backtest (fun _ => 0) (fun _ => 0) 1 0 long_stopped (sample_config 0) = Ok r /\
    max_drawdown_pct r <= 0.
Proof.
  apply (max_drawdown_not_positive (fun _ => 0) (fun _ => 0) 1 0 long_stopped (sample_config 0)).
  reflexivity.
Defined.

Lemma sequential_snoc ts t :
  sequential ts ->
  Forall (fun t1 => (trade_exit_time t1 <= trade_entry_time t)%Z) ts ->
  sequential (ts ++ [t]).
Proof.
  intros Hseq Hall i j t1 t2 Hij H1 H2.
  destruct (decide (j < length ts)%nat) as [Hj | Hj].
  - rewrite lookup_app_l in H1, H2 by lia. exact (Hseq i j t1 t2 Hij H1 H2).
  - rewrite lookup_app_r in H2 by lia.
    destruct (j - length ts)%nat as [|n] eqn:En; simpl in H2; [|done].
    injection H2 as <-.
    rewrite lookup_app_l in H1 by lia.
    rewrite Forall_forall in Hall. apply Hall. by eapply list_elem_of_lookup_2.
Qed.

Lemma chronological_later st bound bound' :
  (bound <= bound')%Z -> chronological st bound -> chronological st bound'.
Proof.
  intros Hle (Htr & Hseq & Hpos). split_and!; [|done|].
  - eapply Forall_impl; [exact Htr|]. simpl. intros t [? ?]. lia.
  - intros pd Hpd. destruct (Hpos pd Hpd) as [? ?]. split; [lia|done].
Qed.

(** One iteration on a bar later than everything recorded. *)
Lemma step_chronological c st r bound :
  wf c st -> chronological st bound -> (bound < name (row_bar r))%Z ->
  exists st', step c st r = Ok st' /\ wf c st' /\ chronological st' (name (row_bar r)).
Proof.
  intros Hwf Hch Hlt.
  assert (Hexit : exists st1, exit_phase c st (row_bar r) = Ok st1 /\ wf c st1 /\
                    chronological st1 (name (row_bar r))).
  { destruct (exit_phase_cases c st (row_bar r) Hwf)
      as [Hsame | (pd & price & reason & e & Hside & Hpd & He & Hex & Ht & Hclose)].
    - exists st. split_and!; [done..|]. eapply chronological_later; [|done]. lia.
    - exists (closed_state c st pd (row_bar r) price reason e). split; [done|].
      destruct Hwf as (Hne & Hlen & _). destruct Hch as (Htr & Hseq & Hpos).
      destruct (Hpos pd Hpd) as [Hen Hbefore].
      split; [|split_and!].
      + unfold wf, closed_state; simpl. split_and!; [by destruct (equity st)| |done].
        rewrite !length_app. simpl. lia.
      + unfold closed_state; simpl. apply Forall_app. split.
        * eapply Forall_impl; [exact Htr|]. simpl. intros t [? ?]. lia.
        * apply Forall_singleton. simpl. lia.
      + unfold closed_state; simpl. by apply sequential_snoc.
      + unfold closed_state; simpl. done. }
  destruct Hexit as (st1 & Hex & Hwf1 & Hch1).
  pose proof Hch1 as (Htr & Hseq & Hpos).
  exists (entry_phase c st1 r). unfold step. rewrite Hex. simpl. split; [done|].
  assert (Hopen : forall pd, entry_time pd = name (row_bar r) ->
            (entry_time pd <= name (row_bar r))%Z /\
            Forall (fun t => (trade_exit_time t <= entry_time pd)%Z) (trades st1)).
  { intros pd ->. split; [lia|]. eapply Forall_impl; [exact Htr|]. simpl. intros t [? ?]. lia. }
  unfold entry_phase. destruct (in_position st1 =? 0)%Z; [|done].
  destruct (enter_long r); [|destruct (enter_short r); [|done]];
    destruct Hwf1 as (Hne & Hlen & _).
  - split.
    + split; [done|]. split; [done|]. simpl. split; [by left|].
      split; [apply barrier_below_set | apply barrier_above_set].
    + split; [done|]. split; [done|]. simpl. intros pd [= <-]. by apply Hopen.
  - split.
    + split; [done|]. split; [done|]. simpl. split; [by right|].
      split; [apply barrier_above_set | apply barrier_below_set].
    + split; [done|]. split; [done|]. simpl. intros pd [= <-]. by apply Hopen.
Qed.

Lemma run_loop_chronological c rows st bound :
  wf c st -> chronological st bound ->
  ascending bound ((fun r => name (row_bar r)) <$> rows) ->
  exists st' bound', run_loop c rows st = Ok st' /\ chronological st' bound'.
Proof.
  revert st bound. induction rows as [|r rows IH]; intros st bound Hwf Hch Hasc; simpl.
  - eauto.
  - destruct Hasc as [Hlt Hasc].
    destruct (step_chronological c st r bound Hwf Hch Hlt) as (st1 & -> & Hwf1 & Hch1).
    simpl. by eapply IH.
Qed.

(** X14: over a frame whose index increases strictly, every recorded trade
    ends strictly after it started, and no trade starts before the one
    before it has ended: the simulator never holds two positions at once. *)
Theorem trades_in_order c now df :
  increasing (name <$> df) ->
  exists st,
    run_loop c (loop_rows df) (init_state c now df) = Ok st /\
    Forall (fun t => (trade_entry_time t < trade_exit_time t)%Z) (trades st) /\
    sequential (trades st).
Proof.
  intros Hinc.
  assert (Hinit : forall bound, chronological (init_state c now df) bound).
  { intros bound. split_and!; [by apply Forall_nil_2| |done].
    intros i j t1 t2 _ H1. simpl in H1. by rewrite lookup_nil in H1. }
  assert (Hwf : wf c (init_state c now df)) by apply init_inv.
  assert (Hrows : match df with
                  | [] => True
                  | b :: _ => ascending (name b) ((fun r => name (row_bar r)) <$> loop_rows df)
                  end).
  { destruct df as [|b rest]; [done|]. unfold loop_rows. simpl in *.
    rewrite <- (add_entries_bars (Some b) rest) in Hinc.
    by rewrite <- list_fmap_compose in Hinc. }
  destruct df as [|b rest].
  - exists (init_state c now []). simpl. split; [done|]. split; [by apply Forall_nil_2|].
    intros i j t1 t2 _ H1. simpl in H1. by rewrite lookup_nil in H1.
  - destruct (run_loop_chronological c _ _ (name b) Hwf (Hinit _) Hrows)
      as (st & bound & Hrun & Htr & Hseq & _).
    exists st. split; [done|]. split; [|done].
    eapply Forall_impl; [exact Htr|]. simpl. by intros t [? _].
Qed.

(** The theorem on [long_stopped], whose bars carry the times 0, 1, 2. *)
Lemma trades_in_order_witness :
  exists st,
    run_loop (sample_config 0) (loop_rows long_stopped)
      (init_state (sample_config 0) 0 long_stopped) = Ok st /\
    Forall (fun t => (trade_entry_time t < trade_exit_time t)%Z) (trades st) /\
    sequential (trades st).
Proof.
  apply (trades_in_order (sample_config 0) 0 long_stopped).
  simpl. lia.
Defined.

Lemma ratio_at_most a b : 0 < b -> a <= b -> a / b - 1 <= 0.
Proof. intros Hb Hab. assert (a / b <= 1); [|lra]. apply Qle_shift_div_r; lra. Qed.

Lemma ratio_at_least a b : 0 < b -> 0 <= a -> -1 <= a / b - 1.
Proof. intros Hb Ha. assert (0 <= a / b); [|lra]. apply Qle_shift_div_l; lra. Qed.

Lemma barrier_below_some o pct x :
  barrier_below o pct = Some x -> exists p, pct = Some p /\ ~ p == 0 /\ x = o * (1 - p).
Proof.
  unfold barrier_below. destruct pct as [p|]; simpl; [|done].
  unfold truthy. destruct (Qeq_bool p 0) eqn:E; simpl; [done|].
  intros [= <-]. exists p. split_and!; [done| |done].
  intros H. apply Qeq_bool_iff in H. congruence.
Qed.

Lemma barrier_above_some o pct x :
  barrier_above o pct = Some x -> exists p, pct = Some p /\ ~ p == 0 /\ x = o * (1 + p).
Proof.
  unfold barrier_above. destruct pct as [p|]; simpl; [|done].
  unfold truthy. destruct (Qeq_bool p 0) eqn:E; simpl; [done|].
  intros [= <-]. exists p. split_and!; [done| |done].
  intros H. apply Qeq_bool_iff in H. congruence.
Qed.

(** X15: a stop never closes a trade at a gain.  When the stop percentage
    is not negative, slippage and commission are not negative and together
    at most one, and every open is positive, each trade closed by its stop
    has a [pnl_pct] of at most zero, for a long and for a short alike. *)
Theorem stop_exit_never_gains c now df :
  (forall sl, sl_pct c = Some sl -> 0 <= sl) ->
  0 <= slippage c -> 0 <= commission c -> slippage c + commission c <= 1 ->
  Forall (fun b => 0 < open b) df ->
  exists st,
    run_loop c (loop_rows df) (init_state c now df) = Ok st /\
    Forall (fun t => exit_reason t = "SL"%string -> pnl_pct t <= 0) (trades st).
Proof.
  intros Hsl Hs0 Hm0 Hk1 Hopen.
  destruct (run_loop_total c now df) as (st & Hrun & Hinv).
  exists st. split; [done|].
  destruct Hinv as (_ & _ & _ & Hexp).
  eapply Forall_impl; [exact Hexp|]. simpl.
  intros t (b_in & b_out & x & Hin & _ & _ & _ & Hcase) Hreason.
  rewrite Forall_forall in Hopen. specialize (Hopen _ Hin).
  remember (slippage c) as s eqn:Es. remember (commission c) as m eqn:Em.
  remember (open b_in) as o eqn:Eo.
  assert (Hden : 0 < o * (1 + s + m)) by (apply Qmult_lt_0_compat; lra).
  assert (Hnum : 0 <= o * (1 - s - m)) by (apply Qmult_le_0_compat; lra).
  assert (Hcost : 0 <= o * (s + m)) by (apply Qmult_le_0_compat; lra).
  destruct Hcase as [(_ & Hbar & ->) | (_ & Hbar & ->)].
  - destruct Hbar as [[_ Hb] | [Hr _]]; [|congruence].
    apply barrier_below_some in Hb as (p & Hp & Hnz & ->).
    specialize (Hsl p Hp).
    apply ratio_at_most; [done|].
    assert (0 <= o * (1 - s - m) * p) by (apply Qmult_le_0_compat; lra).
    lra.
  - destruct Hbar as [[_ Hb] | [Hr _]]; [|congruence].
    apply barrier_above_some in Hb as (p & Hp & Hnz & ->).
    specialize (Hsl p Hp).
    assert (0 <= o * (1 + s + m) * p) by (apply Qmult_le_0_compat; lra).
    apply ratio_at_most; lra.
Qed.

(** The theorem on [long_stopped]: stop 2%, no costs. *)
Lemma stop_exit_never_gains_witness :
  exists st,
    run_loop (sample_config 0) (loop_rows long_stopped)
      (init_state (sample_config 0) 0 long_stopped) = Ok st /\
    Forall (fun t => exit_reason t = "SL"%string -> pnl_pct t <= 0) (trades st).
Proof.
  apply (stop_exit_never_gains (sample_config 0) 0 long_stopped).
  - simpl. intros sl [= <-]. lra.
  - by vm_compute.
  - by vm_compute.
  - by vm_compute.
  - repeat (apply Forall_cons; split; [reflexivity|]). apply Forall_nil_2.
Defined.

Lemma growth_not_negative ts : Forall (fun t => -1 <= pnl_pct t) ts -> 0 <= growth ts.
Proof.
  induction 1 as [|t ts Ht _ IH]; simpl; [lra|]. apply Qmult_le_0_compat; lra.
Qed.

(** X16: the equity never falls below zero.  With a positive initial
    capital, a stop percentage in [0, 1], a target percentage in [0, 1),
    slippage and commission that are not negative and together at most one,
    and positive opens, no trade loses more than the capital it compounds:
    every [pnl_pct] is at least -1, the final capital is not negative and
    the total return is at least -100 percent. *)
Theorem equity_never_negative mean std af now df c :
  0 < initial_capital c ->
  (forall sl, sl_pct c = Some sl -> 0 <= sl /\ sl <= 1) ->
  (forall tp, tp_pct c = Some tp -> 0 <= tp /\ tp < 1) ->
  0 <= slippage c -> 0 <= commission c -> slippage c + commission c <= 1 ->
  Forall (fun b => 0 < open b) df ->
  exists r,
    run_vectorized_backtest mean std af now df c = Ok r /\
    Forall (fun t => -1 <= pnl_pct t) (result_trades r) /\
    0 <= final_capital r /\
    -100 <= total_return_pct r.
Proof.
  intros Hcap Hsl Htp Hs0 Hm0 Hk1 Hopen.
  destruct (run_loop_total c now df) as (st & Hrun & Hinv).
  destruct (summarize_fields mean std af c df st Hinv)
    as (r & e & e0 & rest & Hsum & Htr & _ & He & Hzero & Hsome).
  exists r. unfold run_vectorized_backtest. rewrite Hrun. simpl. split; [done|].
  destruct Hinv as (_ & Heq & _ & Hexp). rewrite Heq in He.
  apply compound_last_growth in He.
  assert (Hpnl : Forall (fun t => -1 <= pnl_pct t) (trades st)).
  { eapply Forall_impl; [exact Hexp|]. simpl.
    intros t (b_in & b_out & x & Hin & _ & _ & _ & Hcase).
    rewrite Forall_forall in Hopen. specialize (Hopen _ Hin).
    remember (slippage c) as s eqn:Es. remember (commission c) as m eqn:Em.
    remember (open b_in) as o eqn:Eo.
    assert (Hden : 0 < o * (1 + s + m)) by (apply Qmult_lt_0_compat; lra).
    assert (Hnum : 0 <= o * (1 - s - m)) by (apply Qmult_le_0_compat; lra).
    destruct Hcase as [(_ & Hbar & ->) | (_ & Hbar & ->)].
    - apply ratio_at_least; [done|].
      destruct Hbar as [[_ Hb] | [_ Hb]].
      + apply barrier_below_some in Hb as (p & Hp & Hnz & ->).
        destruct (Hsl p Hp). apply Qmult_le_0_compat; [apply Qmult_le_0_compat|]; lra.
      + apply barrier_above_some in Hb as (p & Hp & Hnz & ->).
        destruct (Htp p Hp). apply Qmult_le_0_compat; [apply Qmult_le_0_compat|]; lra.
    - apply ratio_at_least; [|done].
      destruct Hbar as [[_ Hb] | [_ Hb]].
      + apply barrier_above_some in Hb as (p & Hp & Hnz & ->).
        destruct (Hsl p Hp). apply Qmult_lt_0_compat; [apply Qmult_lt_0_compat|]; lra.
      + apply barrier_below_some in Hb as (p & Hp & Hnz & ->).
        destruct (Htp p Hp). apply Qmult_lt_0_compat; [apply Qmult_lt_0_compat|]; lra. }
  rewrite Htr. split; [done|].
  pose proof (growth_not_negative _ Hpnl) as Hg.
  assert (He0 : 0 <= e) by (rewrite He; apply Qmult_le_0_compat; lra).
  destruct (trades st) as [|t ts] eqn:Et.
  - destruct (Hzero eq_refl) as (-> & -> & _). split; lra.
  - destruct Hsome as (-> & -> & _); [done|]. split; [done|].
    assert (0 <= e / initial_capital c) by (apply Qle_shift_div_l; lra). lra.
Qed.

(** The theorem on [long_stopped], with stand-ins for the pandas
    statistics. *)
Lemma equity_never_negative_witness :
  exists r,
    run_vectorized_backtest (fun _ => 0) (fun _ => 0) 1 0 long_stopped (sample_config 0) = Ok r /\
    Forall (fun t => -1 <= pnl_pct t) (result_trades r) /\
    0 <= final_capital r /\
    -100 <= total_return_pct r.
Proof.
  apply (equity_never_negative (fun _ => 0) (fun _ => 0) 1 0 long_stopped (sample_config 0)).
  - reflexivity.
  - simpl. intros sl [= <-]. lra.
  - simpl. intros tp [= <-]. lra.
  - by vm_compute.
  - by vm_compute.
  - by vm_compute.
  - repeat (apply Forall_cons; split; [reflexivity|]). apply Forall_nil_2.
Defined.

Lemma step_same_row c st r r' : same_row_data r r' -> step c st r = step c st r'.
Proof.
  destruct r as [[n o h l cl ls ss] el es], r' as [[n' o' h' l' cl' ls' ss'] el' es'].
  unfold same_row_data, same_prices. simpl. intros ((-> & -> & -> & ->) & -> & ->).
  reflexivity.
Qed.

Lemma run_loop_same_rows c rows rows' st :
  Forall2 same_row_data rows rows' -> run_loop c rows st = run_loop c rows' st.
Proof.
  intros H. revert st. induction H as [|r r' rows rows' Hr _ IH]; intros st; simpl; [done|].
  rewrite (step_same_row c st r r' Hr). destruct (step c st r'); simpl; [apply IH|done].
Qed.

Lemma add_entries_same prev df b b' :
  same_prices b b' ->
  Forall2 same_row_data (add_entries prev (df ++ [b])) (add_entries prev (df ++ [b'])).
Proof.
  intros Hsame. revert prev. induction df as [|b0 df IH]; intros prev; simpl.
  - apply Forall2_cons. split; [|done]. by split_and!.
  - apply Forall2_cons. split; [|apply IH]. by split_and!.
Qed.

(** X17: the simulator reads neither the signals of the last bar nor its
    close: two frames that differ only in the last bar, and there only in
    the signals and the close, give the same result. *)
Theorem last_bar_signals_unused mean std af now df b b' c :
  same_prices b b' ->
  run_vectorized_backtest mean std af now (df ++ [b']) c
  = run_vectorized_backtest mean std af now (df ++ [b]) c.
Proof.
  intros Hsame. unfold run_vectorized_backtest.
  assert (Hinit : init_state c now (df ++ [b']) = init_state c now (df ++ [b])).
  { unfold init_state. destruct df as [|b0 df]; simpl; [|done]. by destruct Hsame as (-> & _). }
  assert (Hrows : Forall2 same_row_data (loop_rows (df ++ [b])) (loop_rows (df ++ [b']))).
  { unfold loop_rows. pose proof (add_entries_same None df b b' Hsame) as H.
    destruct H; simpl; [done|]. done. }
  by rewrite Hinit, (run_loop_same_rows c _ _ _ Hrows).
Qed.

(** The theorem on [long_stopped] with a long signal and another close on
    its last bar. *)
Lemma last_bar_signals_unused_witness :
  run_vectorized_backtest (fun _ => 0) (fun _ => 0) 1 0
    ([long_bar 0 100 100 100 100; flat_bar 1 100 101 99 100] ++ [long_bar 2 100 100 97 55])
    (sample_config 0)
  = run_vectorized_backtest (fun _ => 0) (fun _ => 0) 1 0
      ([long_bar 0 100 100 100 100; flat_bar 1 100 101 99 100] ++ [flat_bar 2 100 100 97 98])
      (sample_config 0).
Proof.
  apply (last_bar_signals_unused (fun _ => 0) (fun _ => 0) 1 0
           [long_bar 0 100 100 100 100; flat_bar 1 100 101 99 100]
           (flat_bar 2 100 100 97 98) (long_bar 2 100 100 97 55) (sample_config 0)).
  repeat split.
Defined.

End SimulatorFacts.

(** ** The labeler: the horizon *)

Module HorizonFacts.
Import Labeler LabelerFacts Notions.
Local Open Scope Q_scope.

Lemma first_hit_ext f g n :
  (forall s, (1 <= s <= n)%nat -> f s = g s) -> first_hit f n = first_hit g n.
Proof.
  induction n as [|n IH]; intros Hfg; simpl; [done|].
  rewrite IH by (intros s Hs; apply Hfg; lia).
  rewrite (Hfg (S n)) by lia. done.
Qed.

Lemma first_hit_bound f n s : first_hit f n = Some s -> (1 <= s <= n)%nat.
Proof.
  induction n as [|n IH]; simpl; [done|].
  destruct (first_hit f n) as [s'|].
  - intros [= <-]. specialize (IH eq_refl). lia.
  - destruct (f (S n)); [|done]. intros [= <-]. lia.
Qed.

Lemma first_hit_stays f n k s : first_hit f n = Some s -> first_hit f (n + k) = Some s.
Proof.
  intros H. induction k as [|k IH]; [by rewrite Nat.add_0_r|].
  rewrite Nat.add_succ_r. simpl. by rewrite IH.
Qed.

Lemma first_hit_later f n k s :
  first_hit f n = None -> first_hit f (n + k) = Some s -> (n < s)%nat.
Proof.
  intros Hn. induction k as [|k IH]; [rewrite Nat.add_0_r; intros; congruence|].
  rewrite Nat.add_succ_r. simpl. destruct (first_hit f (n + k)) as [s'|].
  - intros [= <-]. by apply IH.
  - destruct (f (S (n + k))); [|done]. intros [= <-]. lia.
Qed.

Lemma first_hit_no_future f n : (forall s, (1 <= s <= n)%nat -> f s = false) -> first_hit f n = None.
Proof.
  intros Hf. rewrite (first_hit_ext f (fun _ => false) n Hf). clear Hf.
  induction n as [|n IH]; simpl; [done|]. by rewrite IH.
Qed.

(** X18: a row with no later row, the last of the series, is labelled 0
    whatever the barriers are; so is every row when the horizon is 0. *)
Theorem no_future_label_zero prices volatility H pt sl min_ret t p v :
  prices !! t = Some p -> volatility !! t = Some v ->
  (H = 0 \/ length prices <= t + 1)%nat ->
  create_triple_barrier_target prices volatility H pt sl min_ret !! t = Some 0%Z.
Proof.
  intros Hp Hv Hend. rewrite (label_lookup _ _ _ _ _ _ _ p v Hp Hv).
  rewrite first_hit_no_future; [done|].
  intros s Hs. destruct Hend as [-> | Hlen]; [lia|].
  rewrite lookup_ge_None_2 by lia. done.
Qed.

(** The theorem on the last of [rising_prices]. *)
Lemma no_future_label_zero_witness :
  create_triple_barrier_target rising_prices one_percent 24 2 1.5 0.0005 !! 2%nat = Some 0%Z.
Proof.
  apply (no_future_label_zero rising_prices one_percent 24 2 1.5 0.0005 2 103 0.01).
  - reflexivity.
  - reflexivity.
  - right. simpl. lia.
Defined.

(** X19: a longer horizon never takes a label 1 away: a row labelled 1
    under the horizon [H] is labelled 1 under every horizon from [H] on. *)
Theorem longer_horizon_keeps_label prices volatility H H' pt sl min_ret t p v :
  prices !! t = Some p -> volatility !! t = Some v -> (H <= H')%nat ->
  create_triple_barrier_target prices volatility H pt sl min_ret !! t = Some 1%Z ->
  create_triple_barrier_target prices volatility H' pt sl min_ret !! t = Some 1%Z.
Proof.
  intros Hp Hv Hle. rewrite !(label_lookup _ _ _ _ _ _ _ p v Hp Hv).
  replace H' with (H + (H' - H))%nat by lia.
  set (up := fun s => ge_barrier _ _). set (down := fun s => le_barrier _ _).
  destruct (Qltb min_ret (v * pt)); rewrite ?andb_false_r, ?andb_true_r; [|done].
  destruct (first_hit up H) as [x|] eqn:Eu; [|done].
  rewrite (first_hit_stays up H _ x Eu).
  pose proof (first_hit_bound up H x Eu) as Hx.
  destruct (first_hit down H) as [y|] eqn:Ed.
  - by rewrite (first_hit_stays down H _ y Ed).
  - intros _. destruct (first_hit down (H + (H' - H))) as [y'|] eqn:Ed'; [|done].
    apply first_hit_later in Ed'; [|done]. simpl.
    destruct (x <? y')%nat eqn:E; [done|]. apply Nat.ltb_ge in E. lia.
Qed.

(** The theorem on the first of [rising_prices], from the horizon 2 to
    the horizon 24. *)
Lemma longer_horizon_keeps_label_witness :
  create_triple_barrier_target rising_prices one_percent 24 2 1.5 0.0005 !! 0%nat = Some 1%Z.
Proof.
  apply (longer_horizon_keeps_label rising_prices one_percent 2 24 2 1.5 0.0005 0 100 0.01).
  - reflexivity.
  - reflexivity.
  - lia.
  - reflexivity.
Defined.

End HorizonFacts.

(** ** The average true range *)

Module AtrFacts.
Import Atr Notions.
Local Open Scope Q_scope.

Lemma max2_ge_l a b : a <= max2 a b.
Proof.
  unfold max2. destruct (Qleb a b) eqn:E; [by apply Qleb_le|apply Qle_refl].
Qed.

Lemma max2_ge_r a b : b <= max2 a b.
Proof.
  unfold max2. destruct (Qleb a b) eqn:E; [apply Qle_refl|].
  destruct (Qlt_le_dec b a) as [Hlt | Hle]; [lra|].
  apply Qleb_le in Hle. congruence.
Qed.

Lemma true_range_ge_high_low h l pc : h - l <= true_range h l pc.
Proof.
  destruct pc as [pc|]; simpl; [|apply Qle_refl].
  eapply Qle_trans; [|apply max2_ge_l]. apply max2_ge_l.
Qed.

Lemma alpha_unit (w : positive) :
  0 < 1 / inject_Z (Z.pos w) /\ 1 / inject_Z (Z.pos w) <= 1.
Proof.
  assert (Hw : 1 <= inject_Z (Z.pos w)).
  { change 1 with (inject_Z 1). rewrite <- Zle_Qle. lia. }
  split.
  - apply Qlt_shift_div_l; lra.
  - apply Qle_shift_div_r; lra.
Qed.

Lemma ewm_from_between alpha lo hi y xs :
  0 <= alpha -> alpha <= 1 -> lo <= y -> y <= hi ->
  Forall (fun x => lo <= x /\ x <= hi) xs ->
  Forall (fun x => lo <= x /\ x <= hi) (ewm_from alpha y xs).
Proof.
  intros Ha0 Ha1 Hlo Hhi Hxs. revert y Hlo Hhi.
  induction Hxs as [|x xs [Hx1 Hx2] _ IH]; intros y Hlo Hhi; simpl; [done|].
  assert (H1 : 0 <= (1 - alpha) * (y - lo)) by (apply Qmult_le_0_compat; lra).
  assert (H2 : 0 <= alpha * (x - lo)) by (apply Qmult_le_0_compat; lra).
  assert (H3 : 0 <= (1 - alpha) * (hi - y)) by (apply Qmult_le_0_compat; lra).
  assert (H4 : 0 <= alpha * (hi - x)) by (apply Qmult_le_0_compat; lra).
  assert (lo <= (1 - alpha) * y + alpha * x /\ (1 - alpha) * y + alpha * x <= hi) as [? ?]
    by (split; lra).
  apply Forall_cons. split; [done|]. by apply IH.
Qed.

(** X21: the smoothing never leaves the range of what it smooths: when
    every true range lies between [lo] and [hi], so does every value of the
    ATR, for every window. *)
Theorem atr_between_extremes high low close window lo hi :
  Forall (fun x => lo <= x /\ x <= hi) (true_ranges high low close) ->
  Forall (fun x => lo <= x /\ x <= hi) (atr high low close window).
Proof.
  intros Htr. unfold atr, ewm_mean.
  destruct (alpha_unit window) as [Ha0 Ha1].
  destruct Htr as [|x xs [Hx1 Hx2] Hxs]; [done|].
  apply Forall_cons. split; [done|]. apply ewm_from_between; [lra|done..].
Qed.

(** The theorem on two bars whose true ranges are 1 and 2. *)
Lemma atr_between_extremes_witness :
  Forall (fun x => 1 <= x /\ x <= 2) (atr [2; 3] [1; 1] [1.5; 2] 14).
Proof.
  apply (atr_between_extremes [2; 3] [1; 1] [1.5; 2] 14 1 2).
  repeat (apply Forall_cons; split; [split; vm_compute; discriminate|]). apply Forall_nil_2.
Defined.

Lemma true_ranges_nonneg high low close :
  Forall2 (fun h l => l <= h) high low ->
  Forall (fun x => 0 <= x) (true_ranges high low close).
Proof.
  intros Hhl. unfold true_ranges.
  generalize (None :: (Some <$> close)) as pcs.
  induction Hhl as [|h l high low Hle _ IH]; intros pcs; simpl; [done|].
  destruct pcs as [|pc pcs]; [done|]. simpl.
  apply Forall_cons. split; [|apply IH].
  eapply Qle_trans; [|apply true_range_ge_high_low]. lra.
Qed.

Lemma ewm_from_above alpha lo y xs :
  0 <= alpha -> alpha <= 1 -> lo <= y ->
  Forall (fun x => lo <= x) xs -> Forall (fun x => lo <= x) (ewm_from alpha y xs).
Proof.
  intros Ha0 Ha1 Hlo Hxs. revert y Hlo.
  induction Hxs as [|x xs Hx _ IH]; intros y Hlo; simpl; [done|].
  assert (H1 : 0 <= (1 - alpha) * (y - lo)) by (apply Qmult_le_0_compat; lra).
  assert (H2 : 0 <= alpha * (x - lo)) by (apply Qmult_le_0_compat; lra).
  assert (lo <= (1 - alpha) * y + alpha * x) by lra.
  apply Forall_cons. split; [done|]. by apply IH.
Qed.

Lemma ewm_mean_above alpha lo xs :
  0 <= alpha -> alpha <= 1 ->
  Forall (fun x => lo <= x) xs -> Forall (fun x => lo <= x) (ewm_mean alpha xs).
Proof.
  intros Ha0 Ha1 [|x xs' Hx Hxs]; simpl; [done|].
  apply Forall_cons. split; [done|]. by apply ewm_from_above.
Qed.

(** X22: when no low is above its high, no value of the ATR is
    negative. *)
Theorem atr_not_negative high low close window :
  Forall2 (fun h l => l <= h) high low ->
  Forall (fun x => 0 <= x) (atr high low close window).
Proof.
  intros Hhl. unfold atr.
  destruct (alpha_unit window) as [Ha0 Ha1].
  apply ewm_mean_above; [lra|done|]. by apply true_ranges_nonneg.
Qed.

(** The theorem on the same two bars. *)
Lemma atr_not_negative_witness :
  Forall (fun x => 0 <= x) (atr [2; 3] [1; 1] [1.5; 2] 14).
Proof.
  apply (atr_not_negative [2; 3] [1; 1] [1.5; 2] 14).
  repeat (apply Forall2_cons; split; [vm_compute; discriminate|]). apply Forall2_nil_2.
Defined.

Lemma ewm_from_length alpha y xs : length (ewm_from alpha y xs) = length xs.
Proof. revert y. induction xs as [|x xs IH]; intros y; simpl; [done|]. by rewrite IH. Qed.

Lemma atr_length high low close window :
  length (atr high low close window)
  = ((length high `min` length low) `min` S (length close))%nat.
Proof.
  unfold atr, ewm_mean, true_ranges.
  destruct (zip_with _ _ _) as [|x xs] eqn:E.
  - rewrite <- E. by rewrite length_zip_with, length_zip, length_cons, length_fmap.
  - simpl. rewrite ewm_from_length. change (S (length xs)) with (length (x :: xs)).
    rewrite <- E. by rewrite length_zip_with, length_zip, length_cons, length_fmap.
Qed.

End AtrFacts.

(** ** The trade parameters of the risk manager *)

Module SizingFacts.
Import Atr AtrFacts Risk RiskSizing TradingCore DecimalFacts Notions.
Local Open Scope Q_scope.
Local Open Scope res_scope.

Lemma candles_atr_length (df : list candle) w :
  length (atr (high <$> df) (low <$> df) (close <$> df) w) = length df.
Proof. rewrite atr_length, !length_fmap. lia. Qed.

Lemma candles_atr_last (df : list candle) w :
  df <> [] -> exists a, last (atr (high <$> df) (low <$> df) (close <$> df) w) = Some a.
Proof.
  intros Hne. pose proof (candles_atr_length df w) as Hlen.
  destruct (atr _ _ _ w) as [|x xs] eqn:E.
  - destruct df; [done|]. simpl in Hlen. lia.
  - destruct (last (x :: xs)) as [a|] eqn:El; [by exists a|].
    by apply last_None in El.
Qed.

Lemma near_abs x y e : y - e <= x /\ x <= y + e -> Qabs (x - y) <= e.
Proof. intros [? ?]. apply Qabs_Qle_condition. split; lra. Qed.

(** X23: when [calculate_trade_parameters] returns a triple over candles
    whose lows are not above their highs, the last ATR [a] is positive, the
    risk amount is a [Decimal] [r], the size is [r / (2 a)] to within half
    a unit of the fourth decimal, and the levels are the entry price minus
    or plus [2 a] and plus or minus [3 a], to within half a unit of the
    fifth decimal: below and above the entry for a BUY, mirrored for a
    SELL. *)
Theorem trade_parameters_levels (self : RiskManager) df entry side size sl tp :
  Forall (fun c => low c <= high c) df ->
  calculate_trade_parameters self df entry side = Ok (Some (size, sl, tp)) ->
  exists a r,
    last (atr (high <$> df) (low <$> df) (close <$> df) 14) = Some a /\
    0 < a /\ risk_amount self = PyDecimal r /\
    Qabs (size - r / (a * 2)) <= 0.00005 /\
    ((side = "BUY"%string /\
      Qabs (sl - (entry - a * 2)) <= 0.000005 /\ Qabs (tp - (entry + a * 2 * 1.5)) <= 0.000005) \/
     (side = "SELL"%string /\
      Qabs (sl - (entry + a * 2)) <= 0.000005 /\ Qabs (tp - (entry - a * 2 * 1.5)) <= 0.000005)).
Proof.
  intros Hhl. unfold calculate_trade_parameters.
  destruct (length df <? 20)%nat; [done|].
  destruct (last _) as [a|] eqn:Ea; [|done].
  assert (Ha : 0 <= a).
  { assert (Hall : Forall (fun x => 0 <= x) (atr (high <$> df) (low <$> df) (close <$> df) 14)).
    { unfold atr. destruct (alpha_unit 14) as [Ha0 Ha1].
      apply ewm_mean_above; [lra|done|].
      apply true_ranges_nonneg, Forall2_fmap, Forall_Forall2_diag.
      eapply Forall_impl; [exact Hhl|]. done. }
    rewrite Forall_forall in Hall. apply Hall.
    apply last_Some in Ea as [l' ->]. set_solver. }
  assert (Hsize : forall x y,
            (if Qeq_bool (a * 2) 0 then Ok None
             else let? position_size := div_by_decimal (risk_amount self) (a * 2) in
                  Ok (Some (quantize position_size 4, quantize x 5, quantize y 5)))
            = Ok (Some (size, sl, tp)) ->
            0 < a /\ exists r, risk_amount self = PyDecimal r /\
              size = quantize (r / (a * 2)) 4 /\ sl = quantize x 5 /\ tp = quantize y 5).
  { intros x y. destruct (Qeq_bool (a * 2) 0) eqn:E; [done|].
    destruct (risk_amount self) as [r|r]; simpl; [done|]. intros [= <- <- <-].
    split; [|by exists r].
    destruct (Qlt_le_dec 0 a) as [?|Hle]; [done|].
    assert (Hz : a * 2 == 0) by lra. apply Qeq_bool_iff in Hz. congruence. }
  destruct (decide (side = "BUY"%string)) as [Hb|Hb]; [|destruct (decide (side = "SELL"%string)) as [Hs|Hs]; [|done]];
    intros Hres; apply Hsize in Hres as (Hpos & r & Hr & -> & -> & ->);
    exists a, r; (split; [done|]); (split; [done|]); (split; [done|]);
    (split; [apply near_abs, quantize_4_near|]); [left|right];
    (split; [done|]); split; apply near_abs, quantize_5_near.
Qed.

(** The theorem on [sample_candles], whose ATR is 0.1: a BUY at 1.5 for
    a risk amount of 100. *)
Lemma trade_parameters_levels_witness :
  exists a r,
    last (atr (high <$> sample_candles) (low <$> sample_candles) (close <$> sample_candles) 14)
    = Some a /\
    0 < a /\ risk_amount decimal_manager = PyDecimal r /\
    Qabs ((5000000 # 10000) - r / (a * 2)) <= 0.00005 /\
    (("BUY"%string = "BUY"%string /\
      Qabs ((130000 # 100000) - (1.5 - a * 2)) <= 0.000005 /\
      Qabs ((180000 # 100000) - (1.5 + a * 2 * 1.5)) <= 0.000005) \/
     ("BUY"%string = "SELL"%string /\
      Qabs ((130000 # 100000) - (1.5 + a * 2)) <= 0.000005 /\
      Qabs ((180000 # 100000) - (1.5 - a * 2 * 1.5)) <= 0.000005)).
Proof.
  apply (trade_parameters_levels decimal_manager sample_candles 1.5 "BUY"
           (5000000 # 10000) (130000 # 100000) (180000 # 100000)).
  - apply Forall_replicate. vm_compute. discriminate.
  - vm_compute. reflexivity.
Defined.

(** X24: a manager built over a [float] balance never sizes a trade:
    [calculate_trade_parameters] returns [None] or raises [TypeError], since
    the risk amount is then a [float] and the stop distance a [Decimal]. *)
Theorem float_balance_never_sizes x pct n self df entry side :
  RiskManager_init (PyFloat x) pct n = Ok self ->
  calculate_trade_parameters self df entry side = Ok None \/
  calculate_trade_parameters self df entry side = Raise TypeError.
Proof.
  unfold RiskManager_init. destruct (negb _); [done|].
  destruct pct as [p|p]; simpl; [|done]. intros [= <-].
  unfold calculate_trade_parameters. simpl.
  destruct (length df <? 20)%nat eqn:El; [by left|].
  apply Nat.ltb_ge in El.
  destruct (candles_atr_last df 14) as [a ->]; [intros ->; simpl in El; lia|].
  destruct (decide (side = "BUY"%string)); [|destruct (decide (side = "SELL"%string)); [|by left]];
    (destruct (Qeq_bool (a * 2) 0); [by left|by right]).
Qed.

(** The theorem on [float_manager] and [sample_candles]. *)
Lemma float_balance_never_sizes_witness :
  calculate_trade_parameters float_manager sample_candles 1.5 "BUY" = Ok None \/
  calculate_trade_parameters float_manager sample_candles 1.5 "BUY" = Raise TypeError.
Proof.
  apply (float_balance_never_sizes 10000 (PyFloat 0.01) 20 float_manager sample_candles 1.5 "BUY").
  reflexivity.
Defined.

Lemma ewm_from_zero alpha y xs :
  y == 0 -> Forall (fun x => x == 0) xs -> Forall (fun x => x == 0) (ewm_from alpha y xs).
Proof.
  intros Hy Hxs. revert y Hy. induction Hxs as [|x xs Hx _ IH]; intros y Hy; simpl; [done|].
  assert ((1 - alpha) * y + alpha * x == 0) by (rewrite Hy, Hx; ring).
  apply Forall_cons. split; [done|]. by apply IH.
Qed.

Lemma flat_true_ranges p (df : list candle) pcs :
  Forall (fun c => high c = p /\ low c = p /\ close c = p) df ->
  Forall (fun pc => pc = None \/ pc = Some p) pcs ->
  Forall (fun x => x == 0)
    (zip_with (fun hl pc => true_range hl.1 hl.2 pc) (zip (high <$> df) (low <$> df)) pcs).
Proof.
  intros Hdf. revert pcs. induction Hdf as [|c df (Hh & Hl & Hc) _ IH]; intros pcs Hpcs; simpl; [done|].
  destruct Hpcs as [|pc pcs Hpc Hpcs]; [done|]. simpl.
  apply Forall_cons. split; [|by apply IH].
  rewrite Hh, Hl. destruct Hpc as [-> | ->]; simpl; [ring|].
  assert (Hz : p - p == 0) by ring.
  assert (Ha : Qabs (p - p) == 0) by (rewrite Hz; reflexivity).
  unfold max2. repeat (destruct (Qleb _ _)); done.
Qed.

(** X25: over candles that all sit at one price the ATR is zero and no
    parameters are returned, whatever the manager, the entry price and the
    side. *)
Theorem flat_market_no_parameters (self : RiskManager) df entry side p :
  Forall (fun c => high c = p /\ low c = p /\ close c = p) df ->
  calculate_trade_parameters self df entry side = Ok None.
Proof.
  intros Hflat. unfold calculate_trade_parameters.
  destruct (length df <? 20)%nat eqn:El; [done|]. apply Nat.ltb_ge in El.
  destruct (candles_atr_last df 14) as [a Ha]; [intros ->; simpl in El; lia|]. rewrite Ha.
  assert (Hz : a == 0).
  { assert (Hall : Forall (fun x => x == 0) (atr (high <$> df) (low <$> df) (close <$> df) 14)).
    { unfold atr, ewm_mean.
      pose proof (flat_true_ranges p df (None :: (Some <$> (close <$> df))) Hflat) as Htr.
      fold (true_ranges (high <$> df) (low <$> df) (close <$> df)) in Htr.
      destruct Htr as [|x xs Hx Hxs].
      - apply Forall_cons. split; [by left|]. apply Forall_fmap, Forall_fmap.
        eapply Forall_impl; [exact Hflat|]. simpl. intros c (_ & _ & ->). by right.
      - done.
      - apply Forall_cons. split; [done|]. by apply ewm_from_zero. }
    rewrite Forall_forall in Hall. apply Hall.
    apply last_Some in Ha as [l' ->]. set_solver. }
  assert (Hb : Qeq_bool (a * 2) 0 = true) by (apply Qeq_bool_iff; rewrite Hz; ring).
  rewrite Hb.
  destruct (decide (side = "BUY"%string)); [done|]. by destruct (decide (side = "SELL"%string)).
Qed.

(** The theorem on [still_candles]. *)
Lemma flat_market_no_parameters_witness :
  calculate_trade_parameters decimal_manager still_candles 1.5 "BUY" = Ok None.
Proof.
  apply (flat_market_no_parameters decimal_manager still_candles 1.5 "BUY" 1).
  apply Forall_replicate. repeat split.
Defined.

End SizingFacts.

(** ** The rolling-window split *)

Module SplitFacts.
Import WalkForward.

Lemma split_from_lookup fuel train_size test_size step n start k :
  split_from fuel train_size test_size step n start !! k
  = if (k <? fuel)%nat && (start + k * step + train_size + test_size <=? n)%nat
    then Some (seq (start + k * step) train_size, seq (start + k * step + train_size) test_size)
    else None.
Proof.
  revert start k. induction fuel as [|fuel IH]; intros start k; simpl; [done|].
  destruct (start + train_size + test_size <=? n)%nat eqn:E.
  - destruct k as [|k]; simpl.
    + rewrite !Nat.add_0_r, E. done.
    + rewrite IH. change (S k <? S fuel)%nat with (k <? fuel)%nat.
      replace (start + step + k * step)%nat with (start + (step + k * step))%nat by lia. done.
  - apply Nat.leb_gt in E. rewrite lookup_nil.
    destruct (k <? S fuel)%nat; [|done]. simpl.
    destruct (_ <=? n)%nat eqn:E'; [|done]. apply Nat.leb_le in E'. lia.
Qed.

Lemma fold_count_spec train_size test_size step n k :
  (1 <= step)%nat ->
  (k < fold_count train_size test_size step n)%nat <-> (k * step + train_size + test_size <= n)%nat.
Proof.
  intros Hstep. unfold fold_count.
  destruct (train_size + test_size <=? n)%nat eqn:E.
  - apply Nat.leb_le in E. rewrite Nat.lt_succ_r. split; intros H.
    + assert (k * step <= n - train_size - test_size)%nat; [|lia].
      etransitivity; [apply Nat.mul_le_mono_r, H|].
      rewrite Nat.mul_comm. apply Nat.Div0.mul_div_le.
    + apply Nat.div_le_lower_bound; [lia|]. lia.
  - apply Nat.leb_gt in E. lia.
Qed.

(** X26: with a step of at least one and enough iterations, the folds are
    the [fold_count] windows that fit: fold [k] trains on the [train_size]
    rows from [k * step] and tests on the [test_size] rows after them, and
    there is no fold from [fold_count] on. *)
Theorem kth_fold fuel train_size test_size step n k :
  (1 <= step)%nat -> (n < fuel)%nat ->
  split fuel train_size test_size step n !! k
  = if (k <? fold_count train_size test_size step n)%nat
    then Some (seq (k * step) train_size, seq (k * step + train_size) test_size)
    else None.
Proof.
  intros Hstep Hfuel. unfold split. rewrite split_from_lookup. simpl.
  pose proof (fold_count_spec train_size test_size step n k Hstep) as Hspec.
  destruct (k <? fold_count _ _ _ _)%nat eqn:E.
  - apply Nat.ltb_lt, Hspec in E.
    assert (Hk : (k <? fuel)%nat = true) by (apply Nat.ltb_lt; nia).
    assert (Hn : (k * step + train_size + test_size <=? n)%nat = true) by (by apply Nat.leb_le).
    by rewrite Hk, Hn.
  - apply Nat.ltb_ge in E.
    destruct (k * step + train_size + test_size <=? n)%nat eqn:En; [|by rewrite andb_false_r].
    apply Nat.leb_le, Hspec in En. lia.
Qed.

(** The theorem over 30 rows: train 10, test 5, step 5, second fold. *)
Lemma kth_fold_witness :
  split 31 10 5 5 30 !! 1%nat
  = if (1 <? fold_count 10 5 5 30)%nat
    then Some (seq (1 * 5) 10, seq (1 * 5 + 10) 5)
    else None.
Proof.
  apply (kth_fold 31 10 5 5 30 1); lia.
Defined.

(** X27: with a step of zero and a frame that holds one window, the loop
    never ends: it yields the first fold again at every iteration, however
    many there are. *)
Theorem zero_step_never_stops fuel train_size test_size n :
  (train_size + test_size <= n)%nat ->
  split fuel train_size test_size 0 n
  = replicate fuel (seq 0 train_size, seq train_size test_size).
Proof.
  intros Hn. unfold split. induction fuel as [|fuel IH]; simpl; [done|].
  apply Nat.leb_le in Hn. rewrite Hn. simpl. by rewrite IH.
Qed.

(** The theorem over 30 rows, for seven iterations. *)
Lemma zero_step_never_stops_witness :
  split 7 10 5 0 30 = replicate 7 (seq 0 10, seq 10 5).
Proof.
  apply (zero_step_never_stops 7 10 5 30). lia.
Defined.

(** X28: in every fold each test row comes after each training row, and
    lies inside the frame. *)
Theorem test_rows_follow_train fuel train_size test_size step n :
  Forall (fun fold => forall i j, i ∈ fold.1 -> j ∈ fold.2 -> (i < j < n)%nat)
    (split fuel train_size test_size step n).
Proof.
  unfold split. generalize 0%nat as start.
  induction fuel as [|fuel IH]; intros start; simpl; [done|].
  destruct (start + train_size + test_size <=? n)%nat eqn:E; [|done].
  apply Nat.leb_le in E. apply Forall_cons. split; [|apply IH].
  simpl. intros i j Hi Hj. apply elem_of_seq in Hi, Hj. lia.
Qed.

End SplitFacts.
